(** * The Redis check of datadog-checks ([redis/checks/redisdb.py])

    A shallow embedding of the [Redis] agent check and the properties of its
    metric extraction: the legacy per-database string parser, the connection
    cache, the derived ratios, the list-length queries and the
    command-count delta.

    The check is Python 2 code.  Python integers are [Z]; Python floats are
    IEEE 754 binary64 numbers, taken from the specification of floating-point
    arithmetic in [SpecFloat] ([prec = 53], [emax = 1024]); byte strings are
    [string]; a dictionary whose iteration matters (the [info] snapshot) is an
    association list in iteration order; the two dictionaries the check keeps
    between invocations are finite maps. *)

From Stdlib Require Import ZArith String Ascii List Bool Lia.
From Stdlib Require Import SpecFloat DecimalString DecimalPos Sorted.
From stdpp Require Import gmap strings.

Local Open Scope string_scope.
Local Open Scope Z_scope.
Local Set Warnings "-register-all".

(** ** Python values *)

Module Py.

(** The values an [info] snapshot holds: integers, floats, strings, and a
    dictionary for the per-database entries. *)
Inductive pyval : Type :=
  | VInt (z : Z)
  | VFloat (f : spec_float)
  | VStr (s : string)
  | VDict (d : list (string * pyval)).

(** The exceptions the check can meet.  [ResponseError] is
    [redis.exceptions.ResponseError]; [LibraryError] stands for every other
    exception the redis client raises (connection failures and the like). *)
Inductive exn : Type :=
  | KeyError (k : string)
  | TypeError
  | ValueError
  | AttributeError
  | ZeroDivisionError
  | OverflowError
  | UnboundLocalError (name : string)
  | ResponseError (msg : string)
  | LibraryError (msg : string).

Inductive outcome (A : Type) : Type :=
  | Ok (a : A)
  | Raise (e : exn).
Arguments Ok {A} a.
Arguments Raise {A} e.

(** *** Floats *)

Definition prec : Z := 53.
Definition emax : Z := 1024.

Definition fmul : spec_float -> spec_float -> spec_float := SFmul prec emax.
Definition fdiv : spec_float -> spec_float -> spec_float := SFdiv prec emax.
Definition fsub : spec_float -> spec_float -> spec_float := SFsub prec emax.

(** The float nearest to an integer (ties to even), as the conversion of a
    Python [int] or [long] computes it. *)
Definition float_of_Z (z : Z) : spec_float := binary_normalize prec emax z 0 false.

(** [x == 0.0] *)
Definition is_zero (x : spec_float) : bool :=
  match x with
  | S754_zero _ => true
  | _ => false
  end.

Definition is_infinite (x : spec_float) : bool :=
  match x with
  | S754_infinity _ => true
  | _ => false
  end.

(** The integer nearest to [a / b], halves away from zero, for [0 <= a] and
    [0 < b]. *)
Definition round_half_away (a b : Z) : Z := (2 * a + b) / (2 * b).

(** [round(x, 2)] of CPython 2.7: the exact binary value of [x] is rounded to
    two decimal places, halves away from zero, and the float nearest to that
    decimal is returned.  A float [m * 2^e] with [-2 <= e] is a multiple of
    1/4, has at most two decimal places and is returned as it is; so are
    zeros, infinities and NaN. *)
Definition round2 (x : spec_float) : spec_float :=
  match x with
  | S754_finite s m e =>
      if -2 <=? e then x
      else
        match round_half_away (Z.pos m * 100) (2 ^ (- e)) with
        | Z.pos n => fdiv (S754_finite s n 0) (S754_finite false 100 0)
        | _ => S754_zero s
        end
  | _ => x
  end.

(** *** Strings *)

(** [s.split(sep)] for a one-character separator: never empty. *)
Fixpoint split (sep : ascii) (s : string) : list string :=
  match s with
  | EmptyString => [EmptyString]
  | String c s' =>
      if Ascii.eqb c sep then EmptyString :: split sep s'
      else
        match split sep s' with
        | hd :: tl => String c hd :: tl
        | [] => [String c EmptyString]
        end
  end.

(** [s.rsplit(sep, 1)]: the two parts around the last [sep], or [None] when
    [s] holds no [sep] and the result is the one-element list [[s]]. *)
Fixpoint rsplit1 (sep : ascii) (s : string) : option (string * string) :=
  match s with
  | EmptyString => None
  | String c s' =>
      match rsplit1 sep s' with
      | Some (k, v) => Some (String c k, v)
      | None => if Ascii.eqb c sep then Some (EmptyString, s') else None
      end
  end.

(** [c in s] for a character [c] *)
Fixpoint contains (c : ascii) (s : string) : bool :=
  match s with
  | EmptyString => false
  | String c' s' => Ascii.eqb c' c || contains c s'
  end.

Definition is_space (c : ascii) : bool :=
  let n := N_of_ascii c in
  ((9 <=? n) && (n <=? 13) || (n =? 32))%N.

Definition is_digit (c : ascii) : bool :=
  let n := N_of_ascii c in
  ((48 <=? n) && (n <=? 57))%N.

Fixpoint lstrip (s : string) : string :=
  match s with
  | String c s' => if is_space c then lstrip s' else s
  | EmptyString => s
  end.

(** The digits of a string that holds only digits and then white space. *)
Fixpoint digits_then_space (acc : Z) (s : string) : option Z :=
  match s with
  | EmptyString => Some acc
  | String c s' =>
      if is_digit c then digits_then_space (10 * acc + (Z.of_N (N_of_ascii c) - 48)) s'
      else if is_space c then
        match lstrip s' with
        | EmptyString => Some acc
        | _ => None
        end
      else None
  end.

Definition unsigned_literal (s : string) : option Z :=
  match s with
  | String c _ => if is_digit c then digits_then_space 0 s else None
  | EmptyString => None
  end.

(** [int(s)] for a string, in base ten: white space, an optional sign, one or
    more digits, white space; [None] is [ValueError]. *)
Definition int_of_str (s : string) : option Z :=
  match lstrip s with
  | String "-" s' => option_map Z.opp (unsigned_literal s')
  | String "+" s' => unsigned_literal s'
  | s' => unsigned_literal s'
  end.

(** [str(z)] and ["%s" % z] for an integer. *)
Definition str_of_Z (z : Z) : string := NilZero.string_of_int (Z.to_int z).

(** String order is the order of the bytes. *)
Fixpoint insert_sorted (x : string) (l : list string) : list string :=
  match l with
  | [] => [x]
  | y :: l' =>
      if String.eqb x y then l
      else if String.ltb x y then x :: l
      else y :: insert_sorted x l'
  end.

(** [sorted(set(l))]: the distinct strings of [l] in increasing order. *)
Definition sorted_set (l : list string) : list string :=
  fold_right insert_sorted [] l.

(** *** Operators and built-in functions *)

(** [float(v)].  The conversion of a string is left to the interpreter: it is
    the parameter [float_of_str], [None] being [ValueError]. *)
Definition py_float (float_of_str : string -> option spec_float) (v : pyval)
  : outcome spec_float :=
  match v with
  | VInt z =>
      let f := float_of_Z z in
      if is_infinite f then Raise OverflowError else Ok f
  | VFloat f => Ok f
  | VStr s =>
      match float_of_str s with
      | Some f => Ok f
      | None => Raise ValueError
      end
  | VDict _ => Raise TypeError
  end.

(** [x / y] on floats. *)
Definition py_fdiv (x y : spec_float) : outcome spec_float :=
  if is_zero y then Raise ZeroDivisionError else Ok (fdiv x y).

(** [0 == v]: an integer or a float can be equal to [0], a string or a
    dictionary cannot. *)
Definition eq_zero (v : pyval) : bool :=
  match v with
  | VInt z => z =? 0
  | VFloat f => is_zero f
  | _ => false
  end.

(** Integers and floats are the numbers. *)
Definition is_number (v : pyval) : bool :=
  match v with
  | VInt _ | VFloat _ => true
  | _ => false
  end.

(** [a - b] *)
Definition py_sub (a b : pyval) : outcome pyval :=
  match a, b with
  | VInt x, VInt y => Ok (VInt (x - y))
  | VInt x, VFloat g =>
      let f := float_of_Z x in
      if is_infinite f then Raise OverflowError else Ok (VFloat (fsub f g))
  | VFloat f, VInt y =>
      let g := float_of_Z y in
      if is_infinite g then Raise OverflowError else Ok (VFloat (fsub f g))
  | VFloat f, VFloat g => Ok (VFloat (fsub f g))
  | _, _ => Raise TypeError
  end.

(** [int(f)] for a float: the integer part, towards zero. *)
Definition int_of_float (f : spec_float) : outcome Z :=
  match f with
  | S754_zero _ => Ok 0
  | S754_finite s m e =>
      let a := if 0 <=? e then Z.pos m * 2 ^ e else Z.pos m / 2 ^ (- e) in
      Ok (if s then - a else a)
  | S754_infinity _ => Raise OverflowError
  | S754_nan => Raise ValueError
  end.

(** [int(v)] *)
Definition py_int (v : pyval) : outcome Z :=
  match v with
  | VInt z => Ok z
  | VFloat f => int_of_float f
  | VStr s =>
      match int_of_str s with
      | Some z => Ok z
      | None => Raise ValueError
      end
  | VDict _ => Raise TypeError
  end.

(** [sep.join(l)] *)
Fixpoint join (sep : string) (l : list string) : string :=
  match l with
  | [] => EmptyString
  | [x] => x
  | x :: l' => x +:+ sep +:+ join sep l'
  end.

(** [d[k]] on a dictionary held as an association list. *)
Fixpoint assoc {A : Type} (k : string) (d : list (string * A)) : option A :=
  match d with
  | [] => None
  | (k', v) :: d' => if String.eqb k k' then Some v else assoc k d'
  end.

(** [k in d] *)
Definition has_key {A : Type} (k : string) (d : list (string * A)) : bool :=
  match assoc k d with
  | Some _ => true
  | None => false
  end.

(** [v[k]] for a string [k]: a dictionary is indexed, a string takes integer
    indices only, a number has no [__getitem__]. *)
Definition py_getitem (v : pyval) (k : string) : outcome pyval :=
  match v with
  | VDict d =>
      match assoc k d with
      | Some x => Ok x
      | None => Raise (KeyError k)
      end
  | _ => Raise TypeError
  end.

(** [v.get(k, default)]: only a dictionary has the attribute [get]. *)
Definition py_get (v : pyval) (k : string) (default : pyval) : outcome pyval :=
  match v with
  | VDict d =>
      match assoc k d with
      | Some x => Ok x
      | None => Ok default
      end
  | _ => Raise AttributeError
  end.

End Py.

(** ** The check *)

Module Redis.
Import Py.

(** *** The world around the check *)

(** A connection handle of the redis client. *)
Definition conn : Type := nat.

(** What one invocation obtains from outside the check: the interpreter's
    conversion of a string to a float, the redis client
    ([redis.Redis(host, port, password, db)], with [None] for a call without
    the [password] argument; [conn.info()]; [conn.llen(name)]) and the two
    readings of [time.time()] around the info query. *)
Record world : Type := World {
  float_of_str : string -> option spec_float;
  redis_Redis : string -> Z -> option string -> Z -> outcome conn;
  conn_info : conn -> outcome (list (string * pyval));
  conn_llen : conn -> string -> outcome pyval;
  time_start : spec_float;
  time_end : spec_float
}.

(** *** The sink and the log *)

Inductive metric_kind : Type := Gauge | Rate.

(** A sample handed to [AgentCheck.gauge] or [AgentCheck.rate]. *)
Record metric : Type := Metric {
  m_kind : metric_kind;
  m_name : string;
  m_value : pyval;
  m_tags : list string
}.

Inductive log_level : Type := LogError | LogException.

Inductive log_arg : Type :=
  | ArgVal (v : pyval)
  | ArgExn (e : exn).

(** A message handed to [self.log]: the format string and the arguments of
    its [%] operator. *)
Record log_entry : Type := Log {
  l_level : log_level;
  l_format : string;
  l_args : list log_arg
}.

(** *** The state of a [Redis] object

    [previous_total_commands] and [connections] are the two dictionaries of
    [__init__]; [metrics] and [logged] are what the object has submitted to
    the sink and to the log so far, oldest first; [constructed] lists the
    calls of the client's constructor. *)
Record state : Type := State {
  previous_total_commands : gmap (list string) pyval;
  connections : gmap (string * Z * Z) conn;
  metrics : list metric;
  logged : list log_entry;
  constructed : list (string * Z * option string * Z)
}.

(** [Redis.__init__] *)
Definition init : state :=
  {| previous_total_commands := ∅; connections := ∅;
     metrics := []; logged := []; constructed := [] |}.

(** *** Statements: state and exceptions *)

Definition M (A : Type) : Type := state -> outcome A * state.

Definition ret {A : Type} (a : A) : M A := fun s => (Ok a, s).

Definition raise {A : Type} (e : exn) : M A := fun s => (Raise e, s).

Definition bind {A B : Type} (m : M A) (f : A -> M B) : M B :=
  fun s =>
    match m s with
    | (Ok a, s') => f a s'
    | (Raise e, s') => (Raise e, s')
    end.

Notation "x <- m ;; k" := (bind m (fun x => k))
  (at level 100, m at next level, right associativity).
Notation "m ;; k" := (bind m (fun _ => k))
  (at level 100, right associativity).

Definition lift {A : Type} (o : outcome A) : M A := fun s => (o, s).

(** [try: body except ...: handler]: [handler e] is [None] when no clause
    catches [e]. *)
Definition try_except {A : Type} (body : M A) (handler : exn -> option (M A)) : M A :=
  fun s =>
    match body s with
    | (Ok a, s') => (Ok a, s')
    | (Raise e, s') =>
        match handler e with
        | Some h => h s'
        | None => (Raise e, s')
        end
    end.

Fixpoint for_each {A : Type} (l : list A) (body : A -> M unit) : M unit :=
  match l with
  | [] => ret tt
  | x :: l' => body x ;; for_each l' body
  end.

(** The state after the samples [new] went to the sink. *)
Definition emit (new : list metric) (s : state) : state :=
  {| previous_total_commands := previous_total_commands s;
     connections := connections s;
     metrics := (metrics s ++ new)%list;
     logged := logged s;
     constructed := constructed s |}.

(** The state after the messages [new] went to the log. *)
Definition write_log (new : list log_entry) (s : state) : state :=
  {| previous_total_commands := previous_total_commands s;
     connections := connections s;
     metrics := metrics s;
     logged := (logged s ++ new)%list;
     constructed := constructed s |}.

Definition submit (k : metric_kind) (name : string) (v : pyval) (tags : list string) : M unit :=
  fun s => (Ok tt, emit [Metric k name v tags] s).

(** [self.gauge(name, v, tags=tags)] *)
Definition gauge : string -> pyval -> list string -> M unit := submit Gauge.

(** [self.rate(name, v, tags=tags)] *)
Definition rate : string -> pyval -> list string -> M unit := submit Rate.

Definition log (lv : log_level) (fmt : string) (args : list log_arg) : M unit :=
  fun s => (Ok tt, write_log [Log lv fmt args] s).

(** [d[k]] on the snapshot *)
Definition index (d : list (string * pyval)) (k : string) : M pyval :=
  match assoc k d with
  | Some v => ret v
  | None => raise (KeyError k)
  end.

(** *** Class attributes *)

(** [db_key_pattern = re.compile(r'^db\d+')], used with [match]: the key
    starts with [db] and a digit. *)
Definition db_key_pattern_match (key : string) : bool :=
  match key with
  | String "d" (String "b" (String c _)) => is_digit c
  | _ => false
  end.

Definition subkeys : list string := ["keys"; "expires"].

Definition GAUGE_KEYS : list (string * string) :=
  [ ("aof_last_rewrite_time_sec", "redis.aof.last_rewrite_time");
    ("aof_rewrite_in_progress", "redis.aof.rewrite");
    ("aof_current_size", "redis.aof.size");
    ("aof_buffer_length", "redis.aof.buffer_length");
    ("connected_clients", "redis.net.clients");
    ("connected_slaves", "redis.net.slaves");
    ("rejected_connections", "redis.net.rejected");
    ("blocked_clients", "redis.clients.blocked");
    ("client_biggest_input_buf", "redis.clients.biggest_input_buf");
    ("client_longest_output_list", "redis.clients.longest_output_list");
    ("evicted_keys", "redis.keys.evicted");
    ("expired_keys", "redis.keys.expired");
    ("keyspace_hits", "redis.stats.keyspace_hits");
    ("keyspace_misses", "redis.stats.keyspace_misses");
    ("latest_fork_usec", "redis.perf.latest_fork_usec");
    ("pubsub_channels", "redis.pubsub.channels");
    ("pubsub_patterns", "redis.pubsub.patterns");
    ("rdb_bgsave_in_progress", "redis.rdb.bgsave");
    ("rdb_changes_since_last_save", "redis.rdb.changes_since_last");
    ("rdb_last_bgsave_time_sec", "redis.rdb.last_bgsave_time");
    ("mem_fragmentation_ratio", "redis.mem.fragmentation_ratio");
    ("used_memory", "redis.mem.used");
    ("used_memory_lua", "redis.mem.lua");
    ("used_memory_peak", "redis.mem.peak");
    ("used_memory_rss", "redis.mem.rss");
    ("master_last_io_seconds_ago", "redis.replication.last_io_seconds_ago");
    ("master_sync_in_progress", "redis.replication.sync");
    ("master_sync_left_bytes", "redis.replication.sync_left_bytes") ].

Definition RATE_KEYS : list (string * string) :=
  [ ("used_cpu_sys", "redis.cpu.sys");
    ("used_cpu_sys_children", "redis.cpu.sys_children");
    ("used_cpu_user", "redis.cpu.user");
    ("used_cpu_user_children", "redis.cpu.user_children") ].

Definition RATIO_KEYS : list (string * (string * string)) :=
  [ ("hit_ratio", ("keyspace_hits", "keyspace_misses")) ].

(** *** [_parse_dict_string] *)

(** The loop over [string.split(',')]: [k, v = item.rsplit('=', 1)] raises
    [ValueError] on an item without [=]. *)
Fixpoint parse_items (items : list string) (key : string) (default : pyval) : outcome pyval :=
  match items with
  | [] => Ok default
  | item :: rest =>
      match rsplit1 "=" item with
      | None => Raise ValueError
      | Some (k, v) =>
          if String.eqb k key then
            match int_of_str v with
            | Some z => Ok (VInt z)
            | None => Ok (VStr v)
            end
          else parse_items rest key default
      end
  end.

Definition _parse_dict_string (string : pyval) (key : String.string) (default : pyval) : M pyval :=
  try_except
    (match string with
     | VStr s => lift (parse_items (split "," s) key default)
     | _ => raise AttributeError
     end)
    (fun _ =>
       Some (log LogException "Cannot parse dictionary string: %s" [ArgVal string] ;;
             ret default)).

(** *** [_get_conn] *)

Definition construct (w : world) (host : string) (port : Z) (password : option string) (db : Z)
  : M conn :=
  fun s =>
    (redis_Redis w host port password db,
     {| previous_total_commands := previous_total_commands s;
        connections := connections s;
        metrics := metrics s;
        logged := logged s;
        constructed := (constructed s ++ [(host, port, password, db)])%list |}).

Definition set_connection (key : string * Z * Z) (c : conn) : M unit :=
  fun s =>
    (Ok tt,
     {| previous_total_commands := previous_total_commands s;
        connections := <[key := c]> (connections s);
        metrics := metrics s;
        logged := logged s;
        constructed := constructed s |}).

Definition get_connection (key : string * Z * Z) : M conn :=
  fun s =>
    match connections s !! key with
    | Some c => (Ok c, s)
    | None => (Raise (KeyError "connections"), s)
    end.

Definition cached (key : string * Z * Z) : M bool :=
  fun s =>
    match connections s !! key with
    | Some _ => (Ok true, s)
    | None => (Ok false, s)
    end.

Definition nonempty (password : option string) : bool :=
  match password with
  | Some p => (0 <? String.length p)%nat
  | None => false
  end.

Definition _get_conn (w : world) (host : string) (port : Z) (password : option string) (db : Z)
  : M conn :=
  let key := (host, port, db) in
  (hit <- cached key ;;
   if hit then ret tt
   else if nonempty password then
     try_except
       (c <- construct w host port password db ;; set_connection key c)
       (fun e =>
          match e with
          | TypeError =>
              Some (log LogException
                      "You need a redis library that supports authenticated connections. Try easy_install redis."
                      [] ;;
                    raise TypeError)
          | _ => None
          end)
   else
     c <- construct w host port None db ;; set_connection key c) ;;
  get_connection key.

(** *** [_check_db] *)

(** [sorted(set(custom_tags or []).union(["redis_host:%s" % host,
    "redis_port:%s" % port]))] *)
Definition make_tags (host : string) (port : Z) (custom_tags : option (list string)) : list string :=
  sorted_set
    (match custom_tags with
     | Some l => l
     | None => []
     end ++ ["redis_host:" +:+ host; "redis_port:" +:+ str_of_Z port])%list.

(** [round(100 * (x / y), 2)] on floats *)
Definition percentage (x y : spec_float) : outcome spec_float :=
  match py_fdiv x y with
  | Raise e => Raise e
  | Ok q => Ok (round2 (fmul (float_of_Z 100) q))
  end.

(** The body of [for subkey in self.subkeys]. *)
Definition save_subkey (info : list (string * pyval)) (db_tags : list string)
    (key subkey : string) : M unit :=
  val <- try_except
           (d <- index info key ;; lift (py_get d subkey (VInt (-1))))
           (fun e =>
              match e with
              | AttributeError =>
                  Some (d <- index info key ;; _parse_dict_string d subkey (VInt (-1)))
              | _ => None
              end) ;;
  gauge ("redis." +:+ subkey) val db_tags.

(** The ratio of expiring keys, in its [try] with [except AttributeError: pass]. *)
Definition save_expires_ratio (w : world) (info : list (string * pyval))
    (db_tags : list string) (key : string) : M unit :=
  try_except
    (d <- index info key ;;
     expires <- lift (py_getitem d "expires") ;;
     fe <- lift (py_float (float_of_str w) expires) ;;
     d' <- index info key ;;
     keys <- lift (py_getitem d' "keys") ;;
     fk <- lift (py_float (float_of_str w) keys) ;;
     r <- lift (percentage fe fk) ;;
     gauge "redis.expires_ratio" (VFloat r) db_tags)
    (fun e =>
       match e with
       | AttributeError => Some (ret tt)
       | _ => None
       end).

(** The body of [for key in info.keys()]. *)
Definition save_db (w : world) (info : list (string * pyval)) (tags : list string) (key : string)
  : M unit :=
  if db_key_pattern_match key then
    let db_tags := (tags ++ ["redis_db:" +:+ key])%list in
    for_each subkeys (save_subkey info db_tags key) ;;
    save_expires_ratio w info db_tags key
  else ret tt.

(** The binding of the loop variable [key] once [for key in info.keys()] is
    over: the last key, or none when [info] is empty. *)
Definition last_key (info : list (string * pyval)) : option string :=
  last (map fst info).

Definition save_gauges (info : list (string * pyval)) (tags : list string) : M unit :=
  for_each GAUGE_KEYS (fun kn =>
    if has_key (fst kn) info then v <- index info (fst kn) ;; gauge (snd kn) v tags
    else ret tt).

Definition save_rates (info : list (string * pyval)) (tags : list string) : M unit :=
  for_each RATE_KEYS (fun kn =>
    if has_key (fst kn) info then v <- index info (fst kn) ;; rate (snd kn) v tags
    else ret tt).

Definition save_ratios (w : world) (info : list (string * pyval)) (tags : list string) : M unit :=
  for_each RATIO_KEYS (fun nv =>
    let name := fst nv in
    let values := snd nv in
    val1 <- index info (fst values) ;;
    val2 <- index info (snd values) ;;
    if negb (eq_zero val1 || eq_zero val2) then
      f1 <- lift (py_float (float_of_str w) val1) ;;
      f2 <- lift (py_float (float_of_str w) val2) ;;
      r <- lift (percentage f1 f2) ;;
      gauge ("redis." +:+ name) (VFloat r) tags
    else ret tt).

Definition save_list_lengths (w : world) (c : conn) (key : option string)
    (list_lengths : list string) (tags : list string) : M unit :=
  for_each list_lengths (fun _list =>
    try_except
      (n <- lift (conn_llen w c _list) ;;
       gauge ("redis.llen." +:+ _list) n tags)
      (fun e =>
         match e with
         | ResponseError _ =>
             Some (match key with
                   | Some k =>
                       log LogError "Could not get length of %s: %s " [ArgVal (VStr k); ArgExn e]
                   | None => raise (UnboundLocalError "key")
                   end)
         | _ => None
         end)).

Definition store_total_commands (tuple_tags : list string) (total_commands : pyval) : M unit :=
  fun s =>
    (Ok tt,
     {| previous_total_commands := <[tuple_tags := total_commands]> (previous_total_commands s);
        connections := connections s;
        metrics := metrics s;
        logged := logged s;
        constructed := constructed s |}).

Definition previous_of (tuple_tags : list string) : M (option pyval) :=
  fun s => (Ok (previous_total_commands s !! tuple_tags), s).

Definition save_commands (info : list (string * pyval)) (tags : list string) : M unit :=
  v <- index info "total_commands_processed" ;;
  total_commands <- lift (py_sub v (VInt 1)) ;;
  let tuple_tags := tags in
  previous <- previous_of tuple_tags ;;
  match previous with
  | Some p =>
      count <- lift (py_sub total_commands p) ;;
      gauge "redis.net.commands" count tags
  | None => ret tt
  end ;;
  store_total_commands tuple_tags total_commands.

(** [for key in info.keys(): ...] *)
Definition save_dbs (w : world) (info : list (string * pyval)) (tags : list string) : M unit :=
  for_each (map fst info) (save_db w info tags).

(** Lines 125 to 176: what [_check_db] does with the snapshot. *)
Definition extract (w : world) (c : conn) (info : list (string * pyval))
    (list_lengths : list string) (tags : list string) : M unit :=
  save_dbs w info tags ;;
  save_gauges info tags ;;
  save_rates info tags ;;
  save_ratios w info tags ;;
  save_list_lengths w c (last_key info) list_lengths tags ;;
  save_commands info tags.

Definition _check_db (w : world) (host : string) (port : Z) (password : option string) (db : Z)
    (list_lengths : list string) (custom_tags : option (list string)) : M unit :=
  c <- _get_conn w host port password db ;;
  let tags := make_tags host port custom_tags in
  let start := time_start w in
  info <- lift (conn_info w c) ;;
  let latency_ms := round2 (fmul (fsub (time_end w) start) (float_of_Z 1000)) in
  gauge "redis.info.latency_ms" (VFloat latency_ms) tags ;;
  extract w c info list_lengths tags.


(** *** [check] *)

(** The options of an instance of the configuration: [None] for an option
    that the instance does not hold. *)
Record instance : Type := Instance {
  i_host : option string;
  i_port : option pyval;
  i_db : option pyval;
  i_password : option string;
  i_tags : option (list string);
  i_list_lengths : option (list string)
}.

(** [instance.get(k, d)] *)
Definition get_default {A : Type} (o : option A) (d : A) : A :=
  match o with
  | Some x => x
  | None => d
  end.

Definition check (w : world) (inst : instance) : M unit :=
  let host := get_default (i_host inst) "localhost" in
  let port := get_default (i_port inst) (VInt 6379) in
  let db := get_default (i_db inst) (VInt 0) in
  let password := i_password inst in
  let custom_tags := get_default (i_tags inst) [] in
  let list_lengths := get_default (i_list_lengths inst) [] in
  port' <- lift (py_int port) ;;
  db' <- lift (py_int db) ;;
  _check_db w host port' password db' list_lengths (Some custom_tags).

(** ** The vocabulary of the properties *)

(** [grow new msgs s] is [s] after the samples [new] and the log messages
    [msgs]; the dictionaries and the constructor calls are those of [s]. *)
Definition grow (new : list metric) (msgs : list log_entry) (s : state) : state :=
  write_log msgs (emit new s).

(** [frame P m]: whatever its outcome, [m] only submits samples, all of
    them satisfying [P], and writes to the log. *)
Definition frame {A : Type} (P : metric -> Prop) (m : M A) : Prop :=
  forall s, exists new msgs, snd (m s) = grow new msgs s /\ Forall P new.

(** The samples submitted between the states [s] and [s']. *)
Definition emitted (s s' : state) : list metric :=
  drop (length (metrics s)) (metrics s').

(** [emits P m]: the sink only grows under [m], by samples that satisfy [P]. *)
Definition emits {A : Type} (P : metric -> Prop) (m : M A) : Prop :=
  forall s, exists new, metrics (snd (m s)) = (metrics s ++ new)%list /\ Forall P new.

(** The samples of a table of fields ([GAUGE_KEYS], [RATE_KEYS]): one for
    each field of the table that the snapshot holds. *)
Definition mapped (k : metric_kind) (table : list (string * string))
    (info : list (string * pyval)) (tags : list string) : list metric :=
  flat_map (fun kn =>
              match assoc (fst kn) info with
              | Some v => [Metric k (snd kn) v tags]
              | None => []
              end) table.

(** The samples of the per-database entry [key]. *)
Definition db_metric (tags : list string) (key : string) (m : metric) : Prop :=
  m_tags m = (tags ++ ["redis_db:" +:+ key])%list
  /\ In (m_name m) ["redis.keys"; "redis.expires"; "redis.expires_ratio"].

(** The two subkey samples of the per-database entry [key]. *)
Definition subkey_metric (tags : list string) (key : string) (m : metric) : Prop :=
  m_tags m = (tags ++ ["redis_db:" +:+ key])%list
  /\ In (m_name m) ["redis.keys"; "redis.expires"].

(** The samples of [extract] other than the ratios and the command delta:
    those of the per-database entries, of the two tables and of the lists. *)
Definition static_metric (tags list_lengths : list string) (m : metric) : Prop :=
  (exists key, db_metric tags key m)
  \/ (In (m_name m) (map snd GAUGE_KEYS) /\ m_tags m = tags)
  \/ (In (m_name m) (map snd RATE_KEYS) /\ m_tags m = tags)
  \/ ((exists l, In l list_lengths /\ m_name m = "redis.llen." +:+ l) /\ m_tags m = tags).

(** [extract] up to the command delta. *)
Definition before_commands (w : world) (c : conn) (info : list (string * pyval))
    (list_lengths tags : list string) : M unit :=
  save_dbs w info tags ;;
  save_gauges info tags ;;
  save_rates info tags ;;
  save_ratios w info tags ;;
  save_list_lengths w c (last_key info) list_lengths tags.

(** [extract] up to the ratios. *)
Definition before_lists (w : world) (info : list (string * pyval)) (tags : list string) : M unit :=
  save_dbs w info tags ;;
  save_gauges info tags ;;
  save_rates info tags ;;
  save_ratios w info tags.

(** The list-length query answers or raises a response-level error. *)
Definition llen_answers (w : world) (c : conn) (l : string) : Prop :=
  match conn_llen w c l with
  | Ok _ | Raise (ResponseError _) => True
  | Raise _ => False
  end.

(** The gauges of the lists whose length query answers. *)
Definition llen_metrics (w : world) (c : conn) (list_lengths tags : list string) : list metric :=
  flat_map (fun l =>
              match conn_llen w c l with
              | Ok n => [Metric Gauge ("redis.llen." +:+ l) n tags]
              | Raise _ => []
              end) list_lengths.

(** The messages for the lists whose length query raises a response-level
    error, [k] being the value of the variable [key] at that point. *)
Definition llen_errors (w : world) (c : conn) (k : string) (list_lengths : list string)
  : list log_entry :=
  flat_map (fun l =>
              match conn_llen w c l with
              | Raise (ResponseError msg) =>
                  [Log LogError "Could not get length of %s: %s "
                     [ArgVal (VStr k); ArgExn (ResponseError msg)]]
              | _ => []
              end) list_lengths.

(** The snapshot that the info query returns, whatever the connection. *)
Definition serves (w : world) (info : list (string * pyval)) : Prop :=
  forall c, conn_info w c = Ok info.

(** The samples of a list that have the name [n]. *)
Definition named (n : string) (l : list metric) : list metric :=
  List.filter (fun m => String.eqb (m_name m) n) l.

(** The latency gauge: [round((time.time() - start) * 1000, 2)]. *)
Definition latency_metric (w : world) (tags : list string) : metric :=
  Metric Gauge "redis.info.latency_ms"
    (VFloat (round2 (fmul (fsub (time_end w) (time_start w)) (float_of_Z 1000)))) tags.

(** The snapshot of the scenario. *)
Definition scenario : list (string * pyval) :=
  [ ("used_memory", VInt 1048576);
    ("keyspace_hits", VInt 80);
    ("keyspace_misses", VInt 20);
    ("total_commands_processed", VInt 101);
    ("db0", VDict [("keys", VInt 10); ("expires", VInt 2)]) ].

(** The string that an old client returns for a per-database entry with the
    integer fields [kvs]: [k1=v1,k2=v2,...]. *)
Definition render_dict (kvs : list (string * Z)) : string :=
  join "," (map (fun kv => fst kv +:+ "=" +:+ str_of_Z (snd kv)) kvs).

(** A sample that [_check_db] may submit under the tags [tags]: a rate of the
    rate table, or a gauge, tagged [tags] or, for a per-database entry,
    [tags] and the entry's name. *)
Definition sample_ok (tags : list string) (m : metric) : Prop :=
  (m_kind m = Rate /\ In (m_name m) (map snd RATE_KEYS) /\ m_tags m = tags)
  \/ (m_kind m = Gauge
      /\ (m_tags m = tags
          \/ exists key, db_key_pattern_match key = true
                         /\ m_tags m = (tags ++ ["redis_db:" +:+ key])%list)).

(** The value that the parser of legacy strings gives for [subkey], the
    default -1 for what it cannot parse or find. *)
Definition legacy_value (str subkey : string) : pyval :=
  match parse_items (split "," str) subkey (VInt (-1)) with
  | Ok v => v
  | Raise _ => VInt (-1)
  end.

(** The sample [m] has a name of one of the two tables of fields. *)
Definition of_tables (m : metric) : bool :=
  existsb (String.eqb (m_name m)) (map snd (GAUGE_KEYS ++ RATE_KEYS)).

(** *** Examples *)

(** A world for the examples.  The client returns the handle 0 and answers
    every info query with [info]; it holds one list, [queue], of length 3,
    and answers the length query of any other name with a response-level
    error; the info query takes a second; the conversion of strings to floats
    knows the integer literals. *)
Definition example_world (info : list (string * pyval)) : world :=
  {| float_of_str := fun s => option_map float_of_Z (int_of_str s);
     redis_Redis := fun _ _ _ _ => Ok 0%nat;
     conn_info := fun _ => Ok info;
     conn_llen := fun _ name =>
       if String.eqb name "queue" then Ok (VInt 3)
       else Raise (ResponseError "Operation against a key holding the wrong kind of value");
     time_start := float_of_Z 10;
     time_end := float_of_Z 11 |}.

(** A snapshot without per-database entries. *)
Definition plain_snapshot : list (string * pyval) :=
  [ ("keyspace_hits", VInt 80);
    ("keyspace_misses", VInt 20);
    ("total_commands_processed", VInt 101) ].

(** The same with 50 more commands. *)
Definition later_snapshot : list (string * pyval) :=
  [ ("keyspace_hits", VInt 80);
    ("keyspace_misses", VInt 20);
    ("total_commands_processed", VInt 151) ].

(** A snapshot without hits. *)
Definition no_hit_snapshot : list (string * pyval) :=
  [ ("keyspace_hits", VInt 0);
    ("keyspace_misses", VInt 20);
    ("total_commands_processed", VInt 101) ].

(** A snapshot that lacks [keyspace_hits]. *)
Definition old_server_snapshot : list (string * pyval) :=
  [ ("keyspace_misses", VInt 20);
    ("total_commands_processed", VInt 101) ].

(** A snapshot with a database that holds no key. *)
Definition empty_db_snapshot : list (string * pyval) :=
  [ ("keyspace_hits", VInt 80);
    ("keyspace_misses", VInt 20);
    ("total_commands_processed", VInt 101);
    ("db0", VDict [("keys", VInt 0); ("expires", VInt 0)]) ].

(** A snapshot of an old client, with the per-database entry as a string. *)
Definition legacy_snapshot : list (string * pyval) :=
  [ ("keyspace_hits", VInt 80);
    ("keyspace_misses", VInt 20);
    ("total_commands_processed", VInt 101);
    ("db0", VStr "keys=abc,expires=0") ].

(** The tags of the examples. *)
Definition example_tags : list string := make_tags "localhost" 6379 None.

(** The state after a first invocation on [plain_snapshot]. *)
Definition after_first_run : state :=
  snd (_check_db (example_world plain_snapshot) "localhost" 6379 None 0 [] None init).

(** ** Properties of the statements *)

Lemma bind_Ok {A B : Type} (m : M A) (f : A -> M B) (s s1 : state) (a : A) :
  m s = (Ok a, s1) -> bind m f s = f a s1.
Proof. intros H. unfold bind. now rewrite H. Qed.

Lemma bind_Raise {A B : Type} (m : M A) (f : A -> M B) (s s1 : state) (e : exn) :
  m s = (Raise e, s1) -> bind m f s = (Raise e, s1).
Proof. intros H. unfold bind. now rewrite H. Qed.

Lemma bind_inv_Ok {A B : Type} (m : M A) (f : A -> M B) (s s2 : state) (b : B) :
  bind m f s = (Ok b, s2) ->
  exists a s1, m s = (Ok a, s1) /\ f a s1 = (Ok b, s2).
Proof.
  unfold bind. destruct (m s) as [[a|e] s1]; intros H.
  - now exists a, s1.
  - discriminate.
Qed.

Lemma try_except_Ok {A : Type} (body : M A) (handler : exn -> option (M A))
    (s s1 : state) (a : A) :
  body s = (Ok a, s1) -> try_except body handler s = (Ok a, s1).
Proof. intros H. unfold try_except. now rewrite H. Qed.

Lemma try_except_caught {A : Type} (body : M A) (handler : exn -> option (M A))
    (s s1 : state) (e : exn) (h : M A) :
  body s = (Raise e, s1) -> handler e = Some h -> try_except body handler s = h s1.
Proof. intros H He. unfold try_except. now rewrite H, He. Qed.

Lemma try_except_uncaught {A : Type} (body : M A) (handler : exn -> option (M A))
    (s s1 : state) (e : exn) :
  body s = (Raise e, s1) -> handler e = None -> try_except body handler s = (Raise e, s1).
Proof. intros H He. unfold try_except. now rewrite H, He. Qed.

Lemma index_Some (d : list (string * pyval)) (k : string) (v : pyval) (s : state) :
  assoc k d = Some v -> index d k s = (Ok v, s).
Proof. intros H. unfold index. now rewrite H. Qed.

Lemma index_None (d : list (string * pyval)) (k : string) (s : state) :
  assoc k d = None -> index d k s = (Raise (KeyError k), s).
Proof. intros H. unfold index. now rewrite H. Qed.

(** A statement that fails whatever the state makes a loop over it fail. *)
Lemma for_each_raises {A : Type} (l : list A) (body : A -> M unit) (x : A) :
  In x l ->
  (forall s, exists e, fst (body x s) = Raise e) ->
  forall s, exists e, fst (for_each l body s) = Raise e.
Proof.
  intros Hin Hx. induction l as [|y l IH]; [destruct Hin|].
  intros s. cbn [for_each]. unfold bind.
  destruct (body y s) as [[[]|e] s1] eqn:Hy.
  - destruct Hin as [->|Hin].
    + destruct (Hx s) as [e He]. rewrite Hy in He. discriminate.
    + apply (IH Hin).
  - now exists e.
Qed.

Lemma for_each_ext {A : Type} (l : list A) (body body' : A -> M unit) :
  (forall x, In x l -> body x = body' x) -> for_each l body = for_each l body'.
Proof.
  induction l as [|y l IH]; intros H; [reflexivity|].
  cbn [for_each]. rewrite (H y) by now left.
  rewrite IH; [reflexivity|]. intros x Hx. apply H. now right.
Qed.

(** *** What a statement leaves of the state *)

Lemma grow_nil (s : state) : grow [] [] s = s.
Proof. destruct s. unfold grow, write_log, emit. cbn. now rewrite !app_nil_r. Qed.

Lemma grow_grow (n1 n2 : list metric) (l1 l2 : list log_entry) (s : state) :
  grow n2 l2 (grow n1 l1 s) = grow (n1 ++ n2) (l1 ++ l2) s.
Proof. unfold grow, write_log, emit. cbn. now rewrite !app_assoc. Qed.

Lemma emit_grow (new : list metric) (s : state) : emit new s = grow new [] s.
Proof. destruct s. unfold grow, write_log, emit. cbn. now rewrite app_nil_r. Qed.

Lemma write_log_grow (msgs : list log_entry) (s : state) : write_log msgs s = grow [] msgs s.
Proof. destruct s. unfold grow, write_log, emit. cbn. now rewrite app_nil_r. Qed.

Lemma frame_weaken {A : Type} (P Q : metric -> Prop) (m : M A) :
  (forall x, P x -> Q x) -> frame P m -> frame Q m.
Proof.
  intros HPQ Hm s. destruct (Hm s) as (new & msgs & Hs & Hnew).
  exists new, msgs. split; [assumption|]. eapply Forall_impl; eassumption.
Qed.

Lemma frame_lift {A : Type} (P : metric -> Prop) (o : outcome A) : frame P (lift o).
Proof. intros s. exists [], []. cbn. now rewrite grow_nil. Qed.

Lemma frame_ret {A : Type} (P : metric -> Prop) (a : A) : frame P (ret a).
Proof. apply (frame_lift P (Ok a)). Qed.

Lemma frame_raise {A : Type} (P : metric -> Prop) (e : exn) : frame P (@raise A e).
Proof. apply (frame_lift P (Raise e)). Qed.

Lemma frame_bind {A B : Type} (P : metric -> Prop) (m : M A) (f : A -> M B) :
  frame P m -> (forall a, frame P (f a)) -> frame P (bind m f).
Proof.
  intros Hm Hf s. destruct (Hm s) as (n1 & l1 & Hs1 & Hn1).
  unfold bind. destruct (m s) as [[a|e] s1]; cbn in Hs1; subst s1.
  - destruct (Hf a (grow n1 l1 s)) as (n2 & l2 & Hs2 & Hn2).
    exists (n1 ++ n2)%list, (l1 ++ l2)%list. rewrite Hs2, grow_grow.
    split; [reflexivity|]. now apply Forall_app.
  - now exists n1, l1.
Qed.

Lemma frame_try_except {A : Type} (P : metric -> Prop) (body : M A)
    (handler : exn -> option (M A)) :
  frame P body -> (forall e h, handler e = Some h -> frame P h) ->
  frame P (try_except body handler).
Proof.
  intros Hm Hh s. destruct (Hm s) as (n1 & l1 & Hs1 & Hn1).
  unfold try_except. destruct (body s) as [[a|e] s1]; cbn in Hs1; subst s1.
  - now exists n1, l1.
  - destruct (handler e) as [h|] eqn:He.
    + destruct (Hh e h He (grow n1 l1 s)) as (n2 & l2 & Hs2 & Hn2).
      exists (n1 ++ n2)%list, (l1 ++ l2)%list. rewrite Hs2, grow_grow.
      split; [reflexivity|]. now apply Forall_app.
    + now exists n1, l1.
Qed.

Lemma frame_for_each {A : Type} (P : metric -> Prop) (l : list A) (body : A -> M unit) :
  (forall x, In x l -> frame P (body x)) -> frame P (for_each l body).
Proof.
  induction l as [|y l IH]; intros H; cbn [for_each].
  - apply frame_ret.
  - apply frame_bind; [apply H; now left|].
    intros _. apply IH. intros x Hx. apply H. now right.
Qed.

Lemma frame_submit (P : metric -> Prop) (k : metric_kind) (name : string) (v : pyval)
    (tags : list string) :
  P (Metric k name v tags) -> frame P (submit k name v tags).
Proof.
  intros HP s. exists [Metric k name v tags], []. cbn. rewrite emit_grow.
  split; [reflexivity|]. now constructor.
Qed.

Lemma frame_log (P : metric -> Prop) (lv : log_level) (fmt : string) (args : list log_arg) :
  frame P (log lv fmt args).
Proof.
  intros s. exists [], [Log lv fmt args]. cbn. rewrite write_log_grow. now split.
Qed.

Lemma frame_index (P : metric -> Prop) (d : list (string * pyval)) (k : string) :
  frame P (index d k).
Proof. unfold index. destruct (assoc k d); [apply frame_ret | apply frame_raise]. Qed.

Create HintDb frame.
#[local] Hint Resolve frame_lift frame_ret frame_raise frame_log frame_index : frame.

(** ** The legacy string parser *)

Lemma rsplit1_None (sep : ascii) (s : string) :
  contains sep s = false -> rsplit1 sep s = None.
Proof.
  induction s as [|c s IH]; cbn; [reflexivity|].
  intros H. apply orb_false_iff in H as [Hc Hs].
  rewrite (IH Hs). now rewrite Hc.
Qed.

Lemma split_cons (sep : ascii) (s : string) :
  exists item rest, split sep s = item :: rest.
Proof.
  destruct s as [|c s]; cbn; [now eexists _, _|].
  destruct (Ascii.eqb c sep); [now eexists _, _|].
  destruct (split sep s); now eexists _, _.
Qed.

Lemma split_contains (sep c : ascii) (s : string) :
  contains c s = false -> Forall (fun item => contains c item = false) (split sep s).
Proof.
  induction s as [|a s IH]; cbn; intros H.
  - now repeat constructor.
  - apply orb_false_iff in H as [Ha Hs]. specialize (IH Hs).
    destruct (Ascii.eqb a sep).
    + now constructor.
    + destruct (split sep s) as [|hd tl]; cbn.
      * repeat constructor. cbn. now rewrite Ha.
      * inversion IH as [|? ? Hhd Htl]; subst. constructor; [|assumption].
        cbn. now rewrite Ha, Hhd.
Qed.

Lemma parse_items_no_equals (s key : string) (default : pyval) :
  contains "=" s = false -> parse_items (split "," s) key default = Raise ValueError.
Proof.
  intros H. pose proof (split_contains "," "=" s H) as Hall.
  destruct (split_cons "," s) as (item & rest & Hsplit). rewrite Hsplit in *.
  inversion Hall as [|? ? Hitem _]; subst. cbn.
  now rewrite (rsplit1_None _ _ Hitem).
Qed.

Lemma parse_items_skip (pre rest : list string) (key : string) (default : pyval) :
  Forall (fun it => exists k v, rsplit1 "=" it = Some (k, v) /\ k <> key) pre ->
  parse_items (pre ++ rest) key default = parse_items rest key default.
Proof.
  induction 1 as [|it pre (k & v & Hit & Hk) _ IH]; [reflexivity|].
  cbn. rewrite Hit. apply String.eqb_neq in Hk. now rewrite Hk.
Qed.

(** The parser never raises, and what it returns and logs does not depend on
    the state. *)
Lemma parse_dict_string_total (string : pyval) (key : String.string) (default : pyval) :
  exists val msgs, forall st,
    _parse_dict_string string key default st = (Ok val, write_log msgs st)
    /\ grow [] msgs st = write_log msgs st.
Proof.
  unfold _parse_dict_string, try_except.
  destruct string as [z|f|s|d];
    try (eexists default, [_]; intros st; split; [reflexivity | now rewrite write_log_grow]).
  cbn. destruct (parse_items (split "," s) key default) as [val|e].
  - exists val, []. intros st. rewrite write_log_grow, grow_nil. now split.
  - eexists default, [_]. intros st. split; [reflexivity | now rewrite write_log_grow].
Qed.

Lemma metrics_grow (new : list metric) (msgs : list log_entry) (s : state) :
  metrics (grow new msgs s) = (metrics s ++ new)%list.
Proof. reflexivity. Qed.

Lemma frame_In {A : Type} (P : metric -> Prop) (m : M A) (s : state) (x : metric) :
  frame P m -> In x (metrics s) -> In x (metrics (snd (m s))).
Proof.
  intros Hm Hx. destruct (Hm s) as (new & msgs & Hs & _).
  rewrite Hs, metrics_grow. apply in_or_app. now left.
Qed.

(** A subkey gauge of a per-database entry held as a legacy string. *)
Lemma save_subkey_legacy (info : list (string * pyval)) (db_tags : list string)
    (key subkey s : string) (val : pyval) (msgs : list log_entry) (st : state) :
  assoc key info = Some (VStr s) ->
  _parse_dict_string (VStr s) subkey (VInt (-1)) st = (Ok val, write_log msgs st) ->
  save_subkey info db_tags key subkey st
  = (Ok tt, grow [Metric Gauge ("redis." +:+ subkey) val db_tags] msgs st).
Proof.
  intros Hkey Hparse. unfold save_subkey.
  rewrite (bind_Ok _ _ st (write_log msgs st) val); [reflexivity|].
  rewrite (try_except_caught _ _ st st AttributeError
             (d <- index info key ;; _parse_dict_string d subkey (VInt (-1)))).
  - rewrite (bind_Ok _ _ st st (VStr s)) by (apply index_Some, Hkey). exact Hparse.
  - rewrite (bind_Ok _ _ st st (VStr s)) by (apply index_Some, Hkey). reflexivity.
  - reflexivity.
Qed.

Lemma parse_dict_string_items (s key : string) (default val : pyval) (st : state) :
  parse_items (split "," s) key default = Ok val ->
  _parse_dict_string (VStr s) key default st = (Ok val, st).
Proof.
  intros H. unfold _parse_dict_string. apply try_except_Ok. cbn. now rewrite H.
Qed.

(** C6, as amended.  The legacy string [keys=3,expires=0] parses to 3 for
    [keys] and to 0 for [expires]; a string without [=] yields the default
    (the check passes -1) and one logged parse failure; a string whose items
    all hold [=] and none of whose keys is the requested one yields the
    default and logs nothing. *)
Theorem parse_dict_string_legacy :
  (forall st, _parse_dict_string (VStr "keys=3,expires=0") "keys" (VInt (-1)) st
              = (Ok (VInt 3), st)) /\
  (forall st, _parse_dict_string (VStr "keys=3,expires=0") "expires" (VInt (-1)) st
              = (Ok (VInt 0), st)) /\
  (forall s key default st,
      contains "=" s = false ->
      _parse_dict_string (VStr s) key default st
      = (Ok default,
         write_log [Log LogException "Cannot parse dictionary string: %s" [ArgVal (VStr s)]] st)) /\
  (forall s key default st,
      Forall (fun item => exists k v, rsplit1 "=" item = Some (k, v) /\ k <> key)
             (split "," s) ->
      _parse_dict_string (VStr s) key default st = (Ok default, st)).
Proof.
  split; [|split; [|split]].
  - intros st. now apply parse_dict_string_items.
  - intros st. now apply parse_dict_string_items.
  - intros s key default st H. unfold _parse_dict_string.
    rewrite (try_except_caught _ _ st st ValueError
               (log LogException "Cannot parse dictionary string: %s" [ArgVal (VStr s)] ;;
                ret default)); [reflexivity| |reflexivity].
    cbn. now rewrite parse_items_no_equals.
  - intros s key default st H. apply parse_dict_string_items.
    rewrite <- (app_nil_r (split "," s)). now rewrite parse_items_skip.
Qed.

Lemma parse_dict_string_legacy_witness :
  _parse_dict_string (VStr "keys") "keys" (VInt (-1)) init
  = (Ok (VInt (-1)),
     write_log [Log LogException "Cannot parse dictionary string: %s" [ArgVal (VStr "keys")]] init)
  /\ _parse_dict_string (VStr "keys=3,expires=0") "used" (VInt (-1)) init
     = (Ok (VInt (-1)), init).
Proof.
  destruct parse_dict_string_legacy as (_ & _ & Hbad & Habsent). split.
  - apply Hbad. reflexivity.
  - apply Habsent. repeat constructor.
    + exists "keys", "3". split; [reflexivity | discriminate].
    + exists "expires", "0". split; [reflexivity | discriminate].
Defined.

(** C6 as stated fails: for the well-formed string [keys=3,expires=0] and the
    absent key [used] the parser returns -1 and logs nothing. *)
Lemma parse_dict_string_absent_key_silent :
  fst (_parse_dict_string (VStr "keys=3,expires=0") "used" (VInt (-1)) init) = Ok (VInt (-1))
  /\ ~ (exists entry,
          In entry (logged (snd (_parse_dict_string (VStr "keys=3,expires=0") "used"
                                   (VInt (-1)) init)))).
Proof.
  split; [reflexivity|]. intros [entry H]. exact H.
Qed.

(** C9.  When the item of the requested subkey is reached (the items before
    it all hold [=] and have other keys) and its value is no integer literal,
    the parser returns that value as a string, and the loop body of
    [_check_db] submits it as the gauge [redis.<subkey>] of that database. *)
Theorem parse_dict_string_raw_value
    (w : world) (info : list (string * pyval)) (tags : list string)
    (dbkey s subkey : string) (pre post : list string) (item v : string) (st : state) :
  assoc dbkey info = Some (VStr s) ->
  db_key_pattern_match dbkey = true ->
  In subkey subkeys ->
  split "," s = (pre ++ item :: post)%list ->
  Forall (fun it => exists k' v', rsplit1 "=" it = Some (k', v') /\ k' <> subkey) pre ->
  rsplit1 "=" item = Some (subkey, v) ->
  int_of_str v = None ->
  _parse_dict_string (VStr s) subkey (VInt (-1)) st = (Ok (VStr v), st)
  /\ In (Metric Gauge ("redis." +:+ subkey) (VStr v) (tags ++ ["redis_db:" +:+ dbkey])%list)
        (metrics (snd (save_db w info tags dbkey st))).
Proof.
  intros Hdb Hmatch Hsub Hsplit Hpre Hitem Hint.
  assert (Hparse : forall st', _parse_dict_string (VStr s) subkey (VInt (-1)) st'
                               = (Ok (VStr v), st')).
  { intros st'. apply parse_dict_string_items.
    rewrite Hsplit, parse_items_skip by assumption.
    cbn. now rewrite Hitem, String.eqb_refl, Hint. }
  split; [apply Hparse|].
  unfold save_db. rewrite Hmatch. cbv zeta.
  set (db_tags := (tags ++ ["redis_db:" +:+ dbkey])%list).
  assert (Hloop : In (Metric Gauge ("redis." +:+ subkey) (VStr v) db_tags)
                     (metrics (snd (for_each subkeys (save_subkey info db_tags dbkey) st)))).
  { destruct (parse_dict_string_total (VStr s) "keys" (VInt (-1))) as (v1 & m1 & H1).
    destruct (parse_dict_string_total (VStr s) "expires" (VInt (-1))) as (v2 & m2 & H2).
    cbn [for_each subkeys].
    rewrite (bind_Ok _ _ st _ tt (save_subkey_legacy _ _ _ _ _ _ _ _ Hdb (proj1 (H1 st)))).
    rewrite (bind_Ok _ _ _ _ tt (save_subkey_legacy _ _ _ _ _ _ _ _ Hdb (proj1 (H2 _)))).
    cbn [ret snd]. rewrite !metrics_grow.
    destruct Hsub as [<-|[<-|[]]].
    - pose proof (proj1 (H1 st)) as E. rewrite Hparse in E. injection E as <- _.
      apply in_or_app. left. apply in_or_app. right. now left.
    - pose proof (proj1 (H2 st)) as E. rewrite Hparse in E. injection E as <- _.
      apply in_or_app. right. now left. }
  unfold bind.
  destruct (for_each subkeys (save_subkey info db_tags dbkey) st) as [[[]|e] s1];
    cbn [snd] in *; [|assumption].
  apply (frame_In (fun _ => True)); [|assumption].
  unfold save_expires_ratio. apply frame_try_except.
  - repeat (apply frame_bind; [auto with frame|intros ?]). now apply frame_submit.
  - intros e h. destruct e; try discriminate. intros [= <-]. apply frame_ret.
Qed.

Lemma parse_dict_string_raw_value_witness :
  _parse_dict_string (VStr "keys=abc") "keys" (VInt (-1)) init = (Ok (VStr "abc"), init)
  /\ In (Metric Gauge "redis.keys" (VStr "abc") ["redis_host:localhost"; "redis_db:db0"])
        (metrics (snd (save_db (World (fun _ => None) (fun _ _ _ _ => Ok 0%nat)
                                      (fun _ => Raise (LibraryError "unused"))
                                      (fun _ _ => Raise (LibraryError "unused"))
                                      (float_of_Z 0) (float_of_Z 0))
                               [("db0", VStr "keys=abc")] ["redis_host:localhost"] "db0" init))).
Proof.
  apply (parse_dict_string_raw_value _ [("db0", VStr "keys=abc")] ["redis_host:localhost"]
           "db0" "keys=abc" "keys" [] [] "keys=abc" "abc" init).
  - reflexivity.
  - reflexivity.
  - now left.
  - reflexivity.
  - constructor.
  - reflexivity.
  - reflexivity.
Defined.

(** ** The connection cache *)

Lemma get_conn_hit (w : world) (host : string) (port : Z) (password : option string)
    (db : Z) (s : state) (c : conn) :
  connections s !! (host, port, db) = Some c ->
  _get_conn w host port password db s = (Ok c, s).
Proof.
  intros Hc. unfold _get_conn, bind, cached, get_connection. rewrite Hc. cbn.
  now rewrite Hc.
Qed.

Lemma get_conn_miss (w : world) (host : string) (port : Z) (password : option string)
    (db : Z) (s : state) (c : conn) :
  connections s !! (host, port, db) = None ->
  redis_Redis w host port (if nonempty password then password else None) db = Ok c ->
  _get_conn w host port password db s
  = (Ok c,
     {| previous_total_commands := previous_total_commands s;
        connections := <[(host, port, db) := c]> (connections s);
        metrics := metrics s;
        logged := logged s;
        constructed :=
          (constructed s ++ [(host, port, if nonempty password then password else None, db)])%list
     |}).
Proof.
  intros Hc Hnew. unfold _get_conn, bind at 1, bind at 1, cached. rewrite Hc.
  destruct (nonempty password); unfold try_except, bind, construct, set_connection,
    get_connection; rewrite Hnew; cbn; now rewrite lookup_insert_eq.
Qed.

Lemma get_conn_type_error (w : world) (host : string) (port : Z) (password : option string)
    (db : Z) (s : state) :
  connections s !! (host, port, db) = None ->
  nonempty password = true ->
  redis_Redis w host port password db = Raise TypeError ->
  _get_conn w host port password db s
  = (Raise TypeError,
     {| previous_total_commands := previous_total_commands s;
        connections := connections s;
        metrics := metrics s;
        logged :=
          (logged s ++
           [Log LogException
              "You need a redis library that supports authenticated connections. Try easy_install redis."
              []])%list;
        constructed := (constructed s ++ [(host, port, password, db)])%list |}).
Proof.
  intros Hc Hpw Hnew. unfold _get_conn, bind at 1, bind at 1, cached. rewrite Hc, Hpw.
  unfold try_except, bind, construct. now rewrite Hnew.
Qed.

(** C8.  A cached handle is returned with the state as it was, so that no
    connection is constructed.  On a miss the constructor is called, with the
    password exactly when one is given and not empty, and its handle is
    returned and cached under [(host, port, db)].  When the constructor of an
    authenticated connection raises [TypeError] (a client without support for
    passwords: the "configuration error" of the specification), the call
    raises it again after logging, and the cache is the one before the call,
    with no entry for the key. *)
Theorem get_conn_cache
    (w : world) (host : string) (port : Z) (password : option string) (db : Z) (s : state) :
  let key := (host, port, db) in
  let arg := if nonempty password then password else None in
  let r := _get_conn w host port password db s in
  (forall c, connections s !! key = Some c -> r = (Ok c, s)) /\
  (forall c, connections s !! key = None ->
             redis_Redis w host port arg db = Ok c ->
             fst r = Ok c
             /\ connections (snd r) = <[key := c]> (connections s)
             /\ constructed (snd r) = (constructed s ++ [(host, port, arg, db)])%list) /\
  (connections s !! key = None ->
   nonempty password = true ->
   redis_Redis w host port password db = Raise TypeError ->
   fst r = Raise TypeError
   /\ connections (snd r) = connections s
   /\ connections (snd r) !! key = None
   /\ logged (snd r)
      = (logged s ++
         [Log LogException
            "You need a redis library that supports authenticated connections. Try easy_install redis."
            []])%list).
Proof.
  cbv zeta. split; [|split].
  - intros c Hc. now apply get_conn_hit.
  - intros c Hc Hnew. now rewrite (get_conn_miss _ _ _ _ _ _ c Hc Hnew).
  - intros Hc Hpw Hnew. now rewrite (get_conn_type_error _ _ _ _ _ _ Hc Hpw Hnew).
Qed.

Lemma get_conn_cache_witness :
  let w := World (fun _ => None)
                 (fun _ _ password _ =>
                    match password with
                    | Some _ => Raise TypeError
                    | None => Ok 1%nat
                    end)
                 (fun _ => Raise (LibraryError "unused"))
                 (fun _ _ => Raise (LibraryError "unused"))
                 (float_of_Z 0) (float_of_Z 0) in
  let s := State ∅ {[ ("localhost", 6379, 0) := 5%nat ]} [] [] [] in
  _get_conn w "localhost" 6379 None 0 s = (Ok 5%nat, s)
  /\ fst (_get_conn w "localhost" 6379 (Some EmptyString) 0 init) = Ok 1%nat
  /\ fst (_get_conn w "localhost" 6379 (Some "secret") 0 init) = Raise TypeError
  /\ connections (snd (_get_conn w "localhost" 6379 (Some "secret") 0 init)) = ∅.
Proof.
  intros w s. split; [|split; [|split]].
  - apply (get_conn_cache w "localhost" 6379 None 0 s). reflexivity.
  - apply (get_conn_cache w "localhost" 6379 (Some EmptyString) 0 init); reflexivity.
  - apply (get_conn_cache w "localhost" 6379 (Some "secret") 0 init); reflexivity.
  - apply (get_conn_cache w "localhost" 6379 (Some "secret") 0 init); reflexivity.
Defined.

(** ** The conversion of integers to floats

    No integer but 0 is converted to a zero: rounding keeps the leading bit of
    the mantissa. *)

Lemma digits2_pos_log2 (p : positive) : Z.pos (digits2_pos p) = Z.log2 (Z.pos p) + 1.
Proof.
  assert (H : forall q, digits2_pos q = Pos.size q).
  { induction q; cbn; congruence. }
  rewrite H. destruct p; cbn; lia.
Qed.

Lemma shr_1_div2 (mrs : shr_record) :
  0 <= shr_m mrs -> shr_m (shr_1 mrs) = Z.shiftr (shr_m mrs) 1.
Proof.
  destruct mrs as [m r s]. cbn [shr_m]. intros Hm.
  destruct m as [|[p|p|]|p]; try reflexivity. lia.
Qed.

Lemma iter_shr_1 (p : positive) (mrs : shr_record) :
  0 <= shr_m mrs -> shr_m (SpecFloat.iter_pos shr_1 p mrs) = Z.shiftr (shr_m mrs) (Z.pos p).
Proof.
  revert mrs. induction p as [p IH|p IH|]; intros mrs Hm; cbn [SpecFloat.iter_pos].
  - assert (H1 : 0 <= shr_m (shr_1 mrs)).
    { rewrite shr_1_div2 by assumption. now apply Z.shiftr_nonneg. }
    assert (H2 : 0 <= shr_m (SpecFloat.iter_pos shr_1 p (shr_1 mrs))).
    { rewrite IH by assumption. now apply Z.shiftr_nonneg. }
    rewrite IH, IH, shr_1_div2 by assumption.
    rewrite !Z.shiftr_shiftr by lia. f_equal. lia.
  - assert (H2 : 0 <= shr_m (SpecFloat.iter_pos shr_1 p mrs)).
    { rewrite IH by assumption. now apply Z.shiftr_nonneg. }
    rewrite IH, IH by assumption.
    rewrite !Z.shiftr_shiftr by lia. f_equal. lia.
  - now apply shr_1_div2.
Qed.

Lemma shr_fexp_positive (m e : Z) (l : location) :
  0 < m -> -1074 <= e ->
  0 < shr_m (fst (shr_fexp prec emax m e l)) /\ -1074 <= snd (shr_fexp prec emax m e l).
Proof.
  intros Hm He. unfold shr_fexp, shr.
  assert (Hrec : shr_m (shr_record_of_loc m l) = m).
  { now destruct l as [|[]]. }
  destruct (fexp prec emax (Zdigits2 m + e) - e) as [|n|n] eqn:Hn; cbn [fst snd];
    try (rewrite Hrec; lia).
  rewrite iter_shr_1 by lia. rewrite Hrec. split; [|lia].
  assert (Hlog : Z.pos n <= Z.log2 m).
  { destruct m as [|p|p]; try lia. cbn [Zdigits2] in Hn.
    rewrite digits2_pos_log2 in Hn. unfold fexp, emin, prec, emax in Hn. lia. }
  assert (Hnz : Z.shiftr m (Z.pos n) <> 0).
  { rewrite Z.shiftr_eq_0_iff. lia. }
  pose proof (Z.shiftr_nonneg m (Z.pos n)). lia.
Qed.

Lemma binary_round_aux_nonzero (sx : bool) (mx ex : Z) (lx : location) :
  0 < mx -> -1074 <= ex -> is_zero (binary_round_aux prec emax sx mx ex lx) = false.
Proof.
  intros Hm He. unfold binary_round_aux.
  pose proof (shr_fexp_positive mx ex lx Hm He) as [H1 H2].
  destruct (shr_fexp prec emax mx ex lx) as [mrs' e']. cbn [fst snd] in *.
  assert (Hr : 0 < round_nearest_even (shr_m mrs') (loc_of_shr_record mrs')).
  { unfold round_nearest_even. destruct (loc_of_shr_record mrs') as [|[]];
      try destruct (Z.even _); lia. }
  pose proof (shr_fexp_positive _ e' loc_Exact Hr H2) as [H3 _].
  destruct (shr_fexp prec emax _ e' loc_Exact) as [mrs'' e'']. cbn [fst] in H3.
  destruct (shr_m mrs''); try lia. now destruct (e'' <=? emax - prec).
Qed.

Lemma binary_round_nonzero (sx : bool) (m : positive) :
  is_zero (binary_round prec emax sx m 0) = false.
Proof.
  unfold binary_round, shl_align.
  assert (H : -1074 <= fexp prec emax (Z.pos (digits2_pos m) + 0)).
  { unfold fexp, emin, prec, emax. lia. }
  destruct (fexp prec emax (Z.pos (digits2_pos m) + 0) - 0) eqn:E;
    apply binary_round_aux_nonzero; lia.
Qed.

Lemma float_of_Z_is_zero (z : Z) : is_zero (float_of_Z z) = (z =? 0).
Proof.
  destruct z; [reflexivity| |]; apply binary_round_nonzero.
Qed.

(** An integer below [2^1023] in absolute value is converted to a finite
    float: [float] raises no [OverflowError] on it. *)

Lemma Zdigits2_log2 (m : Z) : 0 < m -> Zdigits2 m = Z.log2 m + 1.
Proof. destruct m; try lia. intros _. apply digits2_pos_log2. Qed.

Lemma shr_fexp_bounds (m e : Z) (l : location) (B : Z) :
  0 < m -> -1074 <= e -> Zdigits2 m + e <= B -> e <= B - 53 ->
  0 < shr_m (fst (shr_fexp prec emax m e l))
  /\ -1074 <= snd (shr_fexp prec emax m e l)
  /\ Zdigits2 (shr_m (fst (shr_fexp prec emax m e l))) + snd (shr_fexp prec emax m e l) <= B
  /\ snd (shr_fexp prec emax m e l) <= B - 53.
Proof.
  intros Hm He HB HeB.
  pose proof (shr_fexp_positive m e l Hm He) as [Hpos Hlow].
  split; [assumption|]. split; [assumption|].
  rewrite (Zdigits2_log2 _ Hpos). rewrite (Zdigits2_log2 _ Hm) in HB.
  revert Hpos Hlow. unfold shr_fexp, shr.
  assert (Hrec : shr_m (shr_record_of_loc m l) = m).
  { now destruct l as [|[]]. }
  rewrite (Zdigits2_log2 _ Hm).
  destruct (fexp prec emax (Z.log2 m + 1 + e) - e) as [|n|n] eqn:Hn; cbn [fst snd];
    try (rewrite Hrec; lia).
  rewrite iter_shr_1 by lia. rewrite Hrec. intros Hpos Hlow.
  rewrite Z.log2_shiftr by lia.
  unfold fexp, emin, prec, emax in Hn. lia.
Qed.

Lemma binary_round_aux_finite (sx : bool) (mx ex : Z) (lx : location) :
  0 < mx -> -1074 <= ex -> Zdigits2 mx + ex <= 1023 -> ex <= 970 ->
  is_infinite (binary_round_aux prec emax sx mx ex lx) = false.
Proof.
  intros Hm He HB HeB. unfold binary_round_aux.
  pose proof (shr_fexp_bounds mx ex lx 1023 Hm He HB ltac:(lia)) as H.
  destruct (shr_fexp prec emax mx ex lx) as [mrs' e']. cbn [fst snd] in H.
  destruct H as (H1 & H2 & H3 & H5).
  set (m1 := round_nearest_even (shr_m mrs') (loc_of_shr_record mrs')).
  assert (Hr : 0 < m1 /\ Zdigits2 m1 <= Zdigits2 (shr_m mrs') + 1).
  { unfold m1, round_nearest_even.
    assert (Hs : Zdigits2 (shr_m mrs' + 1) <= Zdigits2 (shr_m mrs') + 1).
    { rewrite !Zdigits2_log2 by lia. pose proof (Z.log2_succ_le (shr_m mrs')).
      unfold Z.succ in *. lia. }
    destruct (loc_of_shr_record mrs') as [|[]]; try destruct (Z.even _); lia. }
  destruct Hr as [Hr1 Hr2].
  pose proof (shr_fexp_bounds m1 e' loc_Exact 1024 Hr1 H2 ltac:(lia) ltac:(lia)) as H.
  destruct (shr_fexp prec emax m1 e' loc_Exact) as [mrs'' e'']. cbn [fst snd] in H.
  destruct H as (H6 & H7 & H8 & H10).
  destruct (shr_m mrs''); try reflexivity.
  unfold emax, prec. destruct (Z.leb_spec e'' (1024 - 53)); [reflexivity|lia].
Qed.

Lemma float_of_Z_finite (z : Z) : Z.abs z < 2 ^ 1023 -> is_infinite (float_of_Z z) = false.
Proof.
  intros Hz.
  assert (Hround : forall sx p, Z.pos p < 2 ^ 1023 ->
                     is_infinite (binary_round prec emax sx p 0) = false).
  { intros sx p Hp. unfold binary_round, shl_align.
    assert (Hlog : Z.log2 (Z.pos p) < 1023) by (apply Z.log2_lt_pow2; lia).
    pose proof (Z.log2_nonneg (Z.pos p)) as Hnn.
    pose proof (digits2_pos_log2 p) as Hd.
    assert (H : fexp prec emax (Z.pos (digits2_pos p) + 0) = Z.log2 (Z.pos p) + 1 - 53).
    { unfold fexp, emin, prec, emax. lia. }
    rewrite H.
    destruct (Z.log2 (Z.pos p) + 1 - 53 - 0) as [|n|n] eqn:E.
    - apply binary_round_aux_finite; cbn [Zdigits2]; lia.
    - apply binary_round_aux_finite; cbn [Zdigits2]; lia.
    - apply binary_round_aux_finite; try lia.
      cbn [Zdigits2]. rewrite digits2_pos_log2.
      change (Pos.iter xO p n) with (shift_pos n p).
      rewrite shift_pos_correct, Z.pow_pos_fold, Z.mul_comm, Z.log2_mul_pow2 by lia. lia. }
  destruct z as [|p|p]; [reflexivity| |]; apply Hround; lia.
Qed.

Lemma py_float_int (fos : string -> option spec_float) (z : Z) :
  Z.abs z < 2 ^ 1023 -> py_float fos (VInt z) = Ok (float_of_Z z).
Proof. intros Hz. cbn. now rewrite float_of_Z_finite. Qed.

(** [float(v) == 0.0] exactly when [v == 0], for a number [v]. *)
Lemma py_float_is_zero (fos : string -> option spec_float) (v : pyval) (f : spec_float) :
  is_number v = true -> py_float fos v = Ok f -> is_zero f = eq_zero v.
Proof.
  destruct v as [z|g|s|d]; try discriminate; intros _; cbn.
  - destruct (is_infinite (float_of_Z z)); [discriminate|].
    intros [= <-]. apply float_of_Z_is_zero.
  - now intros [= <-].
Qed.

(** ** What [extract] submits *)

Lemma emitted_app (s s' : state) (new : list metric) :
  metrics s' = (metrics s ++ new)%list -> emitted s s' = new.
Proof. intros H. unfold emitted. rewrite H. apply drop_app_length. Qed.

Lemma frame_emits {A : Type} (P : metric -> Prop) (m : M A) : frame P m -> emits P m.
Proof.
  intros Hm s. destruct (Hm s) as (new & msgs & Hs & Hnew).
  exists new. now rewrite Hs.
Qed.

Lemma emits_weaken {A : Type} (P Q : metric -> Prop) (m : M A) :
  (forall x, P x -> Q x) -> emits P m -> emits Q m.
Proof.
  intros HPQ Hm s. destruct (Hm s) as (new & Hs & Hnew).
  exists new. split; [assumption|]. eapply Forall_impl; eassumption.
Qed.

Lemma emits_bind {A B : Type} (P : metric -> Prop) (m : M A) (f : A -> M B) :
  emits P m -> (forall a, emits P (f a)) -> emits P (bind m f).
Proof.
  intros Hm Hf s. destruct (Hm s) as (n1 & Hs1 & Hn1).
  unfold bind. destruct (m s) as [[a|e] s1]; cbn [snd] in *.
  - destruct (Hf a s1) as (n2 & Hs2 & Hn2).
    exists (n1 ++ n2)%list. rewrite Hs2, Hs1, app_assoc.
    split; [reflexivity|]. now apply Forall_app.
  - now exists n1.
Qed.

Lemma emits_emitted {A : Type} (P : metric -> Prop) (m : M A) (s : state) :
  emits P m -> Forall P (emitted s (snd (m s))).
Proof.
  intros Hm. destruct (Hm s) as (new & Hs & Hnew). now rewrite (emitted_app _ _ _ Hs).
Qed.

Lemma emits_In {A : Type} (P : metric -> Prop) (m : M A) (s0 s : state) (x : metric)
    (l : list metric) :
  emits P m -> metrics s = (metrics s0 ++ l)%list -> In x l ->
  In x (emitted s0 (snd (m s))).
Proof.
  intros Hm Hs Hx. destruct (Hm s) as (new & Hs' & _).
  rewrite (emitted_app s0 _ (l ++ new)).
  - apply in_or_app. now left.
  - now rewrite Hs', Hs, app_assoc.
Qed.

Lemma for_each_mapped (k : metric_kind) (table : list (string * string))
    (info : list (string * pyval)) (tags : list string) (s : state) :
  for_each table (fun kn =>
    if has_key (fst kn) info then v <- index info (fst kn) ;; submit k (snd kn) v tags
    else ret tt) s
  = (Ok tt, emit (mapped k table info tags) s).
Proof.
  revert s. induction table as [|[f n] table IH]; intros s; cbn [for_each mapped flat_map].
  - unfold ret. now rewrite emit_grow, grow_nil.
  - unfold bind at 1, has_key, index. cbn [fst snd].
    destruct (assoc f info) as [v|]; cbn.
    + rewrite IH. unfold emit. cbn. now rewrite <- app_assoc.
    + apply IH.
Qed.

Lemma save_gauges_eq (info : list (string * pyval)) (tags : list string) (s : state) :
  save_gauges info tags s = (Ok tt, emit (mapped Gauge GAUGE_KEYS info tags) s).
Proof. apply for_each_mapped. Qed.

Lemma save_rates_eq (info : list (string * pyval)) (tags : list string) (s : state) :
  save_rates info tags s = (Ok tt, emit (mapped Rate RATE_KEYS info tags) s).
Proof. apply for_each_mapped. Qed.

Lemma mapped_names (k : metric_kind) (table : list (string * string))
    (info : list (string * pyval)) (tags : list string) :
  Forall (fun m => In (m_name m) (map snd table) /\ m_tags m = tags) (mapped k table info tags).
Proof.
  induction table as [|[f n] table IH]; cbn; [constructor|].
  destruct (assoc f info); cbn.
  - constructor; [cbn; auto|]. eapply Forall_impl; [exact IH|]. cbn. tauto.
  - eapply Forall_impl; [exact IH|]. cbn. tauto.
Qed.

Lemma frame_parse_dict_string (P : metric -> Prop) (string : pyval) (key : String.string)
    (default : pyval) :
  frame P (_parse_dict_string string key default).
Proof.
  destruct (parse_dict_string_total string key default) as (val & msgs & H).
  intros s. exists [], msgs. destruct (H s) as [-> ->]. now split.
Qed.

Lemma subkey_db_metric (tags : list string) (key : string) (m : metric) :
  subkey_metric tags key m -> db_metric tags key m.
Proof. intros [Ht Hn]. split; [assumption|]. cbn in *. tauto. Qed.

Lemma frame_save_subkey (info : list (string * pyval)) (tags : list string)
    (key subkey : string) :
  In subkey subkeys ->
  frame (subkey_metric tags key) (save_subkey info (tags ++ ["redis_db:" +:+ key]) key subkey).
Proof.
  intros Hsub. unfold save_subkey. apply frame_bind.
  - apply frame_try_except.
    + apply frame_bind; [apply frame_index|]. intros d. apply frame_lift.
    + intros e h. destruct e; try discriminate. intros [= <-].
      apply frame_bind; [apply frame_index|]. intros d. apply frame_parse_dict_string.
  - intros val. apply frame_submit. split; [reflexivity|]. cbn [m_name].
    destruct Hsub as [<-|[<-|[]]]; cbn; auto.
Qed.

Lemma frame_save_expires_ratio (w : world) (info : list (string * pyval))
    (tags : list string) (key : string) :
  frame (db_metric tags key) (save_expires_ratio w info (tags ++ ["redis_db:" +:+ key]) key).
Proof.
  unfold save_expires_ratio. apply frame_try_except.
  - repeat (apply frame_bind; [auto with frame|intros ?]).
    apply frame_submit. split; [reflexivity|]. cbn. auto.
  - intros e h. destruct e; try discriminate. intros [= <-]. apply frame_ret.
Qed.

Lemma frame_save_db (w : world) (info : list (string * pyval)) (tags : list string)
    (key : string) :
  frame (db_metric tags key) (save_db w info tags key).
Proof.
  unfold save_db. destruct (db_key_pattern_match key); [|apply frame_ret].
  cbv zeta. apply frame_bind.
  - apply frame_for_each. intros subkey Hsub.
    eapply frame_weaken; [apply subkey_db_metric | now apply frame_save_subkey].
  - intros _. apply frame_save_expires_ratio.
Qed.

Lemma frame_save_dbs (w : world) (info : list (string * pyval)) (tags : list string) :
  frame (fun m => exists key, db_metric tags key m) (save_dbs w info tags).
Proof.
  apply frame_for_each. intros key _.
  eapply frame_weaken; [|apply frame_save_db]. intros m Hm. now exists key.
Qed.

Lemma frame_save_gauges (info : list (string * pyval)) (tags : list string) :
  frame (fun m => In (m_name m) (map snd GAUGE_KEYS) /\ m_tags m = tags)
        (save_gauges info tags).
Proof.
  intros s. exists (mapped Gauge GAUGE_KEYS info tags), [].
  rewrite save_gauges_eq, emit_grow. split; [reflexivity | apply mapped_names].
Qed.

Lemma frame_save_rates (info : list (string * pyval)) (tags : list string) :
  frame (fun m => In (m_name m) (map snd RATE_KEYS) /\ m_tags m = tags)
        (save_rates info tags).
Proof.
  intros s. exists (mapped Rate RATE_KEYS info tags), [].
  rewrite save_rates_eq, emit_grow. split; [reflexivity | apply mapped_names].
Qed.

Lemma frame_save_ratios (w : world) (info : list (string * pyval)) (tags : list string) :
  frame (fun m => m_name m = "redis.hit_ratio" /\ m_tags m = tags) (save_ratios w info tags).
Proof.
  unfold save_ratios. apply frame_for_each. intros [name [num den]] Hin.
  destruct Hin as [[= <- <- <-]|[]]. cbn [fst snd].
  apply frame_bind; [apply frame_index|]. intros val1.
  apply frame_bind; [apply frame_index|]. intros val2.
  destruct (negb _); [|apply frame_ret].
  repeat (apply frame_bind; [apply frame_lift|intros ?]). now apply frame_submit.
Qed.

Lemma frame_save_list_lengths (w : world) (c : conn) (key : option string)
    (list_lengths tags : list string) :
  frame (fun m => (exists l, In l list_lengths /\ m_name m = "redis.llen." +:+ l)
                  /\ m_tags m = tags)
        (save_list_lengths w c key list_lengths tags).
Proof.
  unfold save_list_lengths. apply frame_for_each. intros l Hl.
  apply frame_try_except.
  - apply frame_bind; [apply frame_lift|]. intros n.
    apply frame_submit. split; [|reflexivity]. now exists l.
  - intros e h. destruct e; try discriminate. intros [= <-].
    destruct key; [apply frame_log | apply frame_raise].
Qed.

Lemma emits_save_commands (info : list (string * pyval)) (tags : list string) :
  emits (fun m => m_name m = "redis.net.commands" /\ m_tags m = tags)
        (save_commands info tags).
Proof.
  unfold save_commands.
  apply emits_bind; [apply frame_emits, frame_index|]. intros v.
  apply emits_bind; [apply frame_emits, frame_lift|]. intros total.
  apply emits_bind; [intros s; exists []; cbn; now rewrite app_nil_r|]. intros previous.
  apply emits_bind.
  - destruct previous as [p|]; [|apply frame_emits, frame_ret].
    apply emits_bind; [apply frame_emits, frame_lift|]. intros count.
    now apply frame_emits, frame_submit.
  - intros _ s. exists []. cbn. now rewrite app_nil_r.
Qed.

Lemma extract_split (w : world) (c : conn) (info : list (string * pyval))
    (list_lengths tags : list string) (s : state) :
  extract w c info list_lengths tags s
  = (before_commands w c info list_lengths tags ;; save_commands info tags) s.
Proof.
  unfold extract, before_commands, bind.
  destruct (save_dbs w info tags s) as [[[]|e] s1]; [|reflexivity].
  destruct (save_gauges info tags s1) as [[[]|e] s2]; [|reflexivity].
  destruct (save_rates info tags s2) as [[[]|e] s3]; [|reflexivity].
  destruct (save_ratios w info tags s3) as [[[]|e] s4]; [|reflexivity].
  reflexivity.
Qed.

Lemma frame_before_commands (R : metric -> Prop) (w : world) (c : conn)
    (info : list (string * pyval)) (list_lengths tags : list string) :
  frame R (save_ratios w info tags) ->
  frame (fun m => static_metric tags list_lengths m \/ R m)
        (before_commands w c info list_lengths tags).
Proof.
  intros HR. unfold before_commands, static_metric.
  apply frame_bind; [eapply frame_weaken; [|apply frame_save_dbs]; cbn; tauto|]. intros _.
  apply frame_bind; [eapply frame_weaken; [|apply frame_save_gauges]; cbn; tauto|]. intros _.
  apply frame_bind; [eapply frame_weaken; [|apply frame_save_rates]; cbn; tauto|]. intros _.
  apply frame_bind; [eapply frame_weaken; [|apply HR]; cbn; tauto|]. intros _.
  eapply frame_weaken; [|apply frame_save_list_lengths]. cbn. tauto.
Qed.

Lemma static_metric_name (tags list_lengths : list string) (m : metric) :
  static_metric tags list_lengths m ->
  m_name m <> "redis.hit_ratio" /\ m_name m <> "redis.net.commands".
Proof.
  intros [[key [_ H]]|[[H _]|[[H _]|[(l & _ & H) _]]]].
  - cbn in H. split; intros E; rewrite E in H;
      repeat (destruct H as [H|H]; [discriminate H|]); exact H.
  - cbn in H. split; intros E; rewrite E in H;
      repeat (destruct H as [H|H]; [discriminate H|]); exact H.
  - cbn in H. split; intros E; rewrite E in H;
      repeat (destruct H as [H|H]; [discriminate H|]); exact H.
  - rewrite H. split; discriminate.
Qed.

(** ** The hit ratio *)

Lemma percentage_numbers (f1 f2 : spec_float) :
  is_zero f2 = false ->
  percentage f1 f2 = Ok (round2 (fmul (float_of_Z 100) (fdiv f1 f2))).
Proof.
  intros Hz. unfold percentage, py_fdiv. now rewrite Hz.
Qed.

Lemma save_ratios_hit (w : world) (info : list (string * pyval)) (tags : list string)
    (v1 v2 : pyval) (f1 f2 : spec_float) (s : state) :
  assoc "keyspace_hits" info = Some v1 ->
  assoc "keyspace_misses" info = Some v2 ->
  is_number v1 = true -> is_number v2 = true ->
  eq_zero v1 = false -> eq_zero v2 = false ->
  py_float (float_of_str w) v1 = Ok f1 ->
  py_float (float_of_str w) v2 = Ok f2 ->
  save_ratios w info tags s
  = (Ok tt,
     emit [Metric Gauge "redis.hit_ratio"
             (VFloat (round2 (fmul (float_of_Z 100) (fdiv f1 f2)))) tags] s).
Proof.
  intros Hh Hm Hn1 Hn2 Hz1 Hz2 Hf1 Hf2.
  unfold save_ratios. cbn [for_each RATIO_KEYS fst snd].
  unfold bind, index. rewrite Hh, Hm. cbn [ret]. rewrite Hz1, Hz2. cbn [orb negb lift].
  rewrite Hf1, Hf2, (percentage_numbers f1 f2).
  - reflexivity.
  - now rewrite (py_float_is_zero _ _ _ Hn2 Hf2).
Qed.

Lemma save_ratios_zero (w : world) (info : list (string * pyval)) (tags : list string)
    (v1 v2 : pyval) (s : state) :
  assoc "keyspace_hits" info = Some v1 ->
  assoc "keyspace_misses" info = Some v2 ->
  eq_zero v1 = true \/ eq_zero v2 = true ->
  save_ratios w info tags s = (Ok tt, s).
Proof.
  intros Hh Hm Hz. unfold save_ratios. cbn [for_each RATIO_KEYS fst snd].
  unfold bind, index. rewrite Hh, Hm. cbn [ret].
  now destruct Hz as [-> | ->]; rewrite ?orb_true_r.
Qed.

(** C4.  With [keyspace_hits] and [keyspace_misses] in the snapshot: when both
    are numbers other than 0 that convert to floats, the ratio step submits
    the gauge [redis.hit_ratio] with the value
    [round(100 * (float(hits) / float(misses)), 2)], and the sample is among
    those of [extract] when the per-database entries raised nothing before;
    so it is for integers other than 0, below [2^1023] in absolute value;
    when either value is 0, [extract] submits no sample named
    [redis.hit_ratio].  When the loop over the per-database entries raises,
    as it does for an entry whose [keys] is 0, [extract] raises the same
    exception before the ratio step and submits no sample named
    [redis.hit_ratio], whatever the two values: there the gauge that C4
    promises for two values other than 0 is missing. *)
Theorem hit_ratio
    (w : world) (c : conn) (info : list (string * pyval)) (list_lengths tags : list string)
    (v1 v2 : pyval) (s : state) :
  assoc "keyspace_hits" info = Some v1 ->
  assoc "keyspace_misses" info = Some v2 ->
  (forall f1 f2,
      is_number v1 = true -> is_number v2 = true ->
      eq_zero v1 = false -> eq_zero v2 = false ->
      py_float (float_of_str w) v1 = Ok f1 ->
      py_float (float_of_str w) v2 = Ok f2 ->
      save_ratios w info tags s
      = (Ok tt,
         emit [Metric Gauge "redis.hit_ratio"
                 (VFloat (round2 (fmul (float_of_Z 100) (fdiv f1 f2)))) tags] s)
      /\ (fst (save_dbs w info tags s) = Ok tt ->
          In (Metric Gauge "redis.hit_ratio"
                (VFloat (round2 (fmul (float_of_Z 100) (fdiv f1 f2)))) tags)
             (emitted s (snd (extract w c info list_lengths tags s)))))
  /\ (forall hits misses,
         v1 = VInt hits -> v2 = VInt misses ->
         hits <> 0 -> misses <> 0 ->
         Z.abs hits < 2 ^ 1023 -> Z.abs misses < 2 ^ 1023 ->
         fst (save_dbs w info tags s) = Ok tt ->
         In (Metric Gauge "redis.hit_ratio"
               (VFloat (round2 (fmul (float_of_Z 100)
                                  (fdiv (float_of_Z hits) (float_of_Z misses))))) tags)
            (emitted s (snd (extract w c info list_lengths tags s))))
  /\ (eq_zero v1 = true \/ eq_zero v2 = true ->
      Forall (fun m => m_name m <> "redis.hit_ratio")
             (emitted s (snd (extract w c info list_lengths tags s))))
  /\ (forall e,
         fst (save_dbs w info tags s) = Raise e ->
         fst (extract w c info list_lengths tags s) = Raise e
         /\ Forall (fun m => m_name m <> "redis.hit_ratio")
                   (emitted s (snd (extract w c info list_lengths tags s)))).
Proof.
  intros Hh Hm.
  assert (Hin : forall f1 f2,
             is_number v1 = true -> is_number v2 = true ->
             eq_zero v1 = false -> eq_zero v2 = false ->
             py_float (float_of_str w) v1 = Ok f1 ->
             py_float (float_of_str w) v2 = Ok f2 ->
             fst (save_dbs w info tags s) = Ok tt ->
             In (Metric Gauge "redis.hit_ratio"
                   (VFloat (round2 (fmul (float_of_Z 100) (fdiv f1 f2)))) tags)
                (emitted s (snd (extract w c info list_lengths tags s)))).
  { intros f1 f2 Hn1 Hn2 Hz1 Hz2 Hf1 Hf2 Hdbs.
    destruct (frame_save_dbs w info tags s) as (new & msgs & Hs1 & _).
    destruct (save_dbs w info tags s) as [r s1] eqn:Edbs. cbn [fst snd] in *. subst r s1.
    unfold extract. rewrite (bind_Ok _ _ _ _ _ Edbs).
    rewrite (bind_Ok _ _ _ _ _ (save_gauges_eq _ _ _)).
    rewrite (bind_Ok _ _ _ _ _ (save_rates_eq _ _ _)).
    rewrite (bind_Ok _ _ _ _ _ (save_ratios_hit w info tags v1 v2 f1 f2 _
                                  Hh Hm Hn1 Hn2 Hz1 Hz2 Hf1 Hf2)).
    eapply (emits_In (fun _ => True)).
    + apply emits_bind.
      * eapply emits_weaken; [|apply frame_emits, frame_save_list_lengths]. auto.
      * intros _. eapply emits_weaken; [|apply emits_save_commands]. auto.
    + cbn [emit metrics grow write_log]. rewrite <- !app_assoc. reflexivity.
    + apply in_or_app. right. apply in_or_app. right. apply in_or_app. right. now left. }
  split; [|split; [|split]].
  - intros f1 f2 Hn1 Hn2 Hz1 Hz2 Hf1 Hf2. split.
    + now apply (save_ratios_hit w info tags v1 v2).
    + now apply Hin.
  - intros hits misses -> -> Hhits Hmisses Hbh Hbm Hdbs.
    apply Hin; try reflexivity; try assumption.
    + now apply Z.eqb_neq.
    + now apply Z.eqb_neq.
    + now apply py_float_int.
    + now apply py_float_int.
  - intros Hz. rewrite extract_split. apply emits_emitted. apply emits_bind.
    + apply frame_emits.
      eapply frame_weaken; [|apply (frame_before_commands (fun _ => False))].
      * intros m [Hm'|[]]. now apply static_metric_name in Hm'.
      * intros s0. exists [], []. rewrite (save_ratios_zero w info tags v1 v2 s0 Hh Hm Hz).
        cbn. now rewrite grow_nil.
    + intros _. eapply emits_weaken; [|apply emits_save_commands].
      intros m [-> _]. discriminate.
  - intros e Hraise.
    destruct (frame_save_dbs w info tags s) as (new & msgs & Hs1 & Hnew).
    destruct (save_dbs w info tags s) as [r s1] eqn:Edbs. cbn [fst snd] in *. subst r s1.
    unfold extract. rewrite (bind_Raise _ _ _ _ _ Edbs). cbn [fst snd].
    split; [reflexivity|].
    rewrite (emitted_app s _ new) by apply metrics_grow.
    eapply Forall_impl; [exact Hnew|].
    intros m [key [_ Hname]] Heq. rewrite Heq in Hname. cbn in Hname.
    repeat (destruct Hname as [Hname|Hname]; [discriminate Hname|]). exact Hname.
Qed.

(** ** The ratio of expiring keys when [keys] is 0 *)

Lemma assoc_In {A : Type} (k : string) (d : list (string * A)) (v : A) :
  assoc k d = Some v -> In k (map fst d).
Proof.
  induction d as [|[k' v'] d IH]; cbn; [discriminate|].
  destruct (String.eqb_spec k k') as [->|Hne]; [now left|]. intros H. right. now apply IH.
Qed.

(** [float(v)] raises no [AttributeError]. *)
Lemma py_float_not_AttributeError (fos : string -> option spec_float) (v : pyval) (e : exn) :
  py_float fos v = Raise e -> e <> AttributeError.
Proof.
  destruct v as [z|f|s|d]; cbn.
  - destruct (is_infinite _); [|discriminate]. now intros [= <-].
  - discriminate.
  - destruct (fos s); [discriminate|]. now intros [= <-].
  - now intros [= <-].
Qed.

(** The float of a value equal to 0 is a zero. *)
Lemma py_float_zero (fos : string -> option spec_float) (v : pyval) :
  eq_zero v = true -> exists f0, py_float fos v = Ok f0 /\ is_zero f0 = true.
Proof.
  intros Hz. destruct v as [z|f|s|d]; try discriminate; cbn in *.
  - apply Z.eqb_eq in Hz as ->. now exists (S754_zero false).
  - now exists f.
Qed.

Lemma save_expires_ratio_zero (w : world) (info : list (string * pyval))
    (db_tags : list string) (key : string) (d : list (string * pyval)) (v : pyval) (s : state) :
  assoc key info = Some (VDict d) ->
  assoc "keys" d = Some v ->
  eq_zero v = true ->
  exists e, save_expires_ratio w info db_tags key s = (Raise e, s).
Proof.
  intros Hkey Hkeys Hz. unfold save_expires_ratio.
  assert (Hbody : exists e,
            (d0 <- index info key ;;
             expires <- lift (py_getitem d0 "expires") ;;
             fe <- lift (py_float (float_of_str w) expires) ;;
             d' <- index info key ;;
             keys <- lift (py_getitem d' "keys") ;;
             fk <- lift (py_float (float_of_str w) keys) ;;
             r <- lift (percentage fe fk) ;;
             gauge "redis.expires_ratio" (VFloat r) db_tags) s = (Raise e, s)
            /\ e <> AttributeError).
  { rewrite (bind_Ok _ _ s s (VDict d)) by (apply index_Some, Hkey).
    unfold lift at 1, bind at 1. cbn [py_getitem].
    destruct (assoc "expires" d) as [x|]; [|now exists (KeyError "expires")].
    unfold lift at 1, bind at 1.
    destruct (py_float (float_of_str w) x) as [fx|e] eqn:Hx.
    - rewrite (bind_Ok _ _ s s (VDict d)) by (apply index_Some, Hkey).
      unfold lift at 1, bind at 1. cbn [py_getitem]. rewrite Hkeys.
      destruct (py_float_zero (float_of_str w) v Hz) as (f0 & Hf0 & Hzero).
      unfold bind, lift, percentage, py_fdiv. rewrite Hf0, Hzero.
      now exists ZeroDivisionError.
    - exists e. split; [reflexivity|]. now apply (py_float_not_AttributeError _ _ _ Hx). }
  destruct Hbody as (e & He & Hne). exists e.
  apply try_except_uncaught; [assumption|]. now destruct e.
Qed.

Lemma frame_save_expires_ratio_zero (w : world) (info : list (string * pyval))
    (db_tags : list string) (key : string) (d : list (string * pyval)) (v : pyval) :
  assoc key info = Some (VDict d) ->
  assoc "keys" d = Some v ->
  eq_zero v = true ->
  frame (fun _ => False) (save_expires_ratio w info db_tags key).
Proof.
  intros Hkey Hkeys Hz s.
  destruct (save_expires_ratio_zero w info db_tags key d v s Hkey Hkeys Hz) as [e ->].
  exists [], []. cbn. now rewrite grow_nil.
Qed.

Lemma save_db_zero_keys_raises (w : world) (info : list (string * pyval))
    (tags : list string) (key : string) (d : list (string * pyval)) (v : pyval) (s : state) :
  db_key_pattern_match key = true ->
  assoc key info = Some (VDict d) ->
  assoc "keys" d = Some v ->
  eq_zero v = true ->
  exists e, fst (save_db w info tags key s) = Raise e.
Proof.
  intros Hmatch Hkey Hkeys Hz. unfold save_db. rewrite Hmatch. cbv zeta. unfold bind.
  destruct (for_each subkeys _ s) as [[[]|e] s1]; [|now exists e].
  destruct (save_expires_ratio_zero w info (tags ++ ["redis_db:" +:+ key]) key d v s1
              Hkey Hkeys Hz) as [e ->].
  now exists e.
Qed.

(** A subkey gauge of a per-database entry held as a dictionary. *)
Lemma save_subkey_dict (info : list (string * pyval)) (db_tags : list string)
    (key subkey : string) (d : list (string * pyval)) (st : state) :
  assoc key info = Some (VDict d) ->
  save_subkey info db_tags key subkey st
  = (Ok tt,
     emit [Metric Gauge ("redis." +:+ subkey)
             (match assoc subkey d with
              | Some x => x
              | None => VInt (-1)
              end) db_tags] st).
Proof.
  intros Hkey. unfold save_subkey.
  rewrite (bind_Ok _ _ st st (match assoc subkey d with Some x => x | None => VInt (-1) end));
    [reflexivity|].
  apply try_except_Ok.
  rewrite (bind_Ok _ _ st st (VDict d)) by (apply index_Some, Hkey).
  unfold lift. cbn. now destruct (assoc subkey d).
Qed.

Lemma save_subkeys_dict (info : list (string * pyval)) (db_tags : list string)
    (key : string) (d : list (string * pyval)) (st : state) :
  assoc key info = Some (VDict d) ->
  for_each subkeys (save_subkey info db_tags key) st
  = (Ok tt,
     emit [Metric Gauge "redis.keys"
             (match assoc "keys" d with
              | Some x => x
              | None => VInt (-1)
              end) db_tags;
           Metric Gauge "redis.expires"
             (match assoc "expires" d with
              | Some x => x
              | None => VInt (-1)
              end) db_tags] st).
Proof.
  intros Hkey. cbn [for_each subkeys].
  rewrite (bind_Ok _ _ _ _ tt (save_subkey_dict _ _ _ _ _ _ Hkey)).
  rewrite (bind_Ok _ _ _ _ tt (save_subkey_dict _ _ _ _ _ _ Hkey)).
  unfold ret, emit. cbn. now rewrite <- app_assoc.
Qed.

(** C1: what the code does for a per-database dictionary whose [keys] is 0.
    No [redis.expires_ratio] is submitted for that database, but the division
    raises ([ZeroDivisionError] when [expires] converts to a float) and
    [except AttributeError] does not catch it: [extract] fails, the later
    steps do not run, no [redis.net.commands] is submitted and the previous
    command count is not updated. *)
Theorem expires_ratio_zero_keys
    (w : world) (c : conn) (info : list (string * pyval)) (list_lengths tags : list string)
    (key : string) (d : list (string * pyval)) (v : pyval) (s : state) :
  db_key_pattern_match key = true ->
  assoc key info = Some (VDict d) ->
  assoc "keys" d = Some v ->
  eq_zero v = true ->
  (exists e, fst (extract w c info list_lengths tags s) = Raise e)
  /\ previous_total_commands (snd (extract w c info list_lengths tags s))
     = previous_total_commands s
  /\ Forall (fun m => m_name m <> "redis.net.commands"
                      /\ ~ (m_name m = "redis.expires_ratio"
                            /\ m_tags m = (tags ++ ["redis_db:" +:+ key])%list))
            (emitted s (snd (extract w c info list_lengths tags s)))
  /\ (forall x fx,
         assoc "expires" d = Some x ->
         py_float (float_of_str w) x = Ok fx ->
         save_db w info tags key s
         = (Raise ZeroDivisionError,
            emit [Metric Gauge "redis.keys" v (tags ++ ["redis_db:" +:+ key])%list;
                  Metric Gauge "redis.expires" x (tags ++ ["redis_db:" +:+ key])%list] s)).
Proof.
  intros Hmatch Hkey Hkeys Hz.
  assert (Hraise : exists e, fst (save_dbs w info tags s) = Raise e).
  { apply (for_each_raises _ _ key); [now apply (assoc_In _ _ _ Hkey)|].
    intros s0. now apply (save_db_zero_keys_raises w info tags key d v). }
  assert (Hframe : frame (fun m => (exists k, db_metric tags k m)
                                   /\ ~ (m_name m = "redis.expires_ratio"
                                         /\ m_tags m = (tags ++ ["redis_db:" +:+ key])%list))
                         (save_dbs w info tags)).
  { apply frame_for_each. intros key' _.
    destruct (String.eqb_spec key' key) as [->|Hne].
    - unfold save_db. rewrite Hmatch. cbv zeta. apply frame_bind.
      + apply frame_for_each. intros subkey Hsub.
        eapply frame_weaken; [|now apply frame_save_subkey].
        intros m Hm. split; [exists key; now apply subkey_db_metric|].
        intros [E _]. destruct Hm as [_ Hm]. rewrite E in Hm. cbn in Hm.
        now destruct Hm as [?|[?|[]]].
      + intros _. eapply frame_weaken;
          [|now apply (frame_save_expires_ratio_zero w info _ key d v)].
        intros m [].
    - eapply frame_weaken; [|apply frame_save_db].
      intros m Hm. split; [now exists key'|].
      intros [_ E]. destruct Hm as [Hm _]. rewrite Hm in E.
      apply app_inv_head in E. injection E as E. now apply Hne. }
  destruct Hraise as [e He]. destruct (Hframe s) as (new & msgs & Hs & Hnew).
  assert (Hext : extract w c info list_lengths tags s = (Raise e, grow new msgs s)).
  { unfold extract. apply bind_Raise. rewrite <- Hs, <- He. now destruct (save_dbs _ _ _ _). }
  rewrite Hext. cbn [fst snd]. split; [now exists e|]. split; [reflexivity|]. split.
  - rewrite (emitted_app s _ new) by reflexivity.
    eapply Forall_impl; [exact Hnew|]. intros m [[k [_ Hk]] Hx]. split; [|assumption].
    intros E. rewrite E in Hk. cbn in Hk. now destruct Hk as [?|[?|[?|[]]]].
  - intros x fx Hexp Hfx. unfold save_db. rewrite Hmatch. cbv zeta.
    rewrite (bind_Ok _ _ _ _ tt (save_subkeys_dict _ _ _ _ s Hkey)).
    rewrite Hkeys, Hexp.
    unfold save_expires_ratio. apply try_except_uncaught; [|reflexivity].
    rewrite (bind_Ok _ _ _ _ (VDict d)) by (apply index_Some, Hkey).
    unfold lift at 1, bind at 1. cbn [py_getitem]. rewrite Hexp.
    unfold lift at 1, bind at 1. rewrite Hfx.
    rewrite (bind_Ok _ _ _ _ (VDict d)) by (apply index_Some, Hkey).
    unfold lift at 1, bind at 1. cbn [py_getitem]. rewrite Hkeys.
    destruct (py_float_zero (float_of_str w) v Hz) as (f0 & Hf0 & Hzero).
    unfold bind, lift, percentage, py_fdiv. now rewrite Hf0, Hzero.
Qed.

(** ** A ratio field that the snapshot does not hold *)

Lemma extract_split_lists (w : world) (c : conn) (info : list (string * pyval))
    (list_lengths tags : list string) (s : state) :
  extract w c info list_lengths tags s
  = (before_lists w info tags ;;
     save_list_lengths w c (last_key info) list_lengths tags ;;
     save_commands info tags) s.
Proof.
  unfold extract, before_lists, bind.
  destruct (save_dbs w info tags s) as [[[]|e] s1]; [|reflexivity].
  destruct (save_gauges info tags s1) as [[[]|e] s2]; [|reflexivity].
  destruct (save_rates info tags s2) as [[[]|e] s3]; [|reflexivity].
  reflexivity.
Qed.

Lemma frame_before_lists (w : world) (info : list (string * pyval)) (tags : list string) :
  frame (fun m => In (m_name m)
                     (["redis.keys"; "redis.expires"; "redis.expires_ratio"; "redis.hit_ratio"]
                      ++ map snd GAUGE_KEYS ++ map snd RATE_KEYS))
        (before_lists w info tags).
Proof.
  unfold before_lists.
  apply frame_bind.
  { eapply frame_weaken; [|apply frame_save_dbs]. intros m [key [_ H]].
    apply in_or_app. left. cbn in *. tauto. }
  intros _. apply frame_bind.
  { eapply frame_weaken; [|apply frame_save_gauges]. intros m [H _].
    apply in_or_app. right. apply in_or_app. now left. }
  intros _. apply frame_bind.
  { eapply frame_weaken; [|apply frame_save_rates]. intros m [H _].
    apply in_or_app. right. apply in_or_app. now right. }
  intros _. eapply frame_weaken; [|apply frame_save_ratios]. intros m [H _].
  apply in_or_app. left. rewrite H. cbn. tauto.
Qed.

Lemma save_ratios_missing (w : world) (info : list (string * pyval)) (tags : list string)
    (s : state) :
  assoc "keyspace_hits" info = None \/ assoc "keyspace_misses" info = None ->
  save_ratios w info tags s
  = (Raise (KeyError (if has_key "keyspace_hits" info then "keyspace_misses"
                      else "keyspace_hits")), s).
Proof.
  intros H. unfold save_ratios. cbn [for_each RATIO_KEYS fst snd].
  unfold bind, index, has_key.
  destruct (assoc "keyspace_hits" info) as [v1|]; cbn [ret raise]; [|reflexivity].
  destruct H as [H|H]; [discriminate|]. now rewrite H.
Qed.

(** C5: what the code does when the snapshot lacks [keyspace_hits] or
    [keyspace_misses].  The ratio step indexes the snapshot without the
    membership test of the gauge and rate tables, so [extract] fails, with
    [KeyError] on the missing field unless a per-database entry failed
    before; the list lengths are not queried, no [redis.llen.<name>] and no
    [redis.net.commands] is submitted and the previous command count is not
    updated. *)
Theorem ratio_missing_field
    (w : world) (c : conn) (info : list (string * pyval)) (list_lengths tags : list string)
    (s : state) :
  assoc "keyspace_hits" info = None \/ assoc "keyspace_misses" info = None ->
  (exists e, fst (extract w c info list_lengths tags s) = Raise e)
  /\ (fst (save_dbs w info tags s) = Ok tt ->
      fst (extract w c info list_lengths tags s)
      = Raise (KeyError (if has_key "keyspace_hits" info then "keyspace_misses"
                         else "keyspace_hits")))
  /\ previous_total_commands (snd (extract w c info list_lengths tags s))
     = previous_total_commands s
  /\ Forall (fun m => m_name m <> "redis.net.commands"
                      /\ forall l, m_name m <> "redis.llen." +:+ l)
            (emitted s (snd (extract w c info list_lengths tags s))).
Proof.
  intros Hmiss.
  destruct (frame_before_lists w info tags s) as (new & msgs & Hs & Hnew).
  assert (Hraise : exists e, fst (before_lists w info tags s) = Raise e
                             /\ (fst (save_dbs w info tags s) = Ok tt ->
                                 e = KeyError (if has_key "keyspace_hits" info
                                               then "keyspace_misses" else "keyspace_hits"))).
  { unfold before_lists, bind.
    destruct (save_dbs w info tags s) as [[[]|e] s1]; [|exists e; split; [reflexivity|discriminate]].
    rewrite save_gauges_eq, save_rates_eq.
    rewrite (save_ratios_missing w info tags _ Hmiss).
    eexists. split; [reflexivity|]. reflexivity. }
  destruct Hraise as (e & He & Hk).
  assert (Hext : extract w c info list_lengths tags s = (Raise e, grow new msgs s)).
  { rewrite extract_split_lists. apply bind_Raise. rewrite <- Hs, <- He.
    now destruct (before_lists _ _ _ _). }
  rewrite Hext. cbn [fst snd]. split; [now exists e|]. split; [|split; [reflexivity|]].
  - intros Hdbs. now rewrite (Hk Hdbs).
  - rewrite (emitted_app s _ new) by reflexivity.
    eapply Forall_impl; [exact Hnew|]. intros m H. cbn in H. split.
    + intros E. rewrite E in H.
      repeat (destruct H as [H|H]; [discriminate H|]). exact H.
    + intros l E. rewrite E in H. cbn in H.
      repeat (destruct H as [H|H]; [discriminate H|]). exact H.
Qed.

(** ** The lengths of lists *)

Lemma save_list_lengths_eq (w : world) (c : conn) (k : string)
    (list_lengths tags : list string) (s : state) :
  Forall (llen_answers w c) list_lengths ->
  save_list_lengths w c (Some k) list_lengths tags s
  = (Ok tt, grow (llen_metrics w c list_lengths tags) (llen_errors w c k list_lengths) s).
Proof.
  intros H. revert s. unfold save_list_lengths.
  induction H as [|l lls Hl _ IH]; intros s; cbn [for_each llen_metrics llen_errors flat_map].
  - unfold ret. now rewrite grow_nil.
  - unfold bind at 1, try_except, bind at 1, lift. unfold llen_answers in Hl.
    destruct (conn_llen w c l) as [n|[]]; try contradiction.
    + cbn [gauge submit]. rewrite IH, emit_grow, grow_grow. reflexivity.
    + cbn [log]. rewrite IH, write_log_grow, grow_grow. reflexivity.
Qed.

(** C7: what the code does when [llen] raises a response-level error.  The
    loop goes on, and no [redis.llen.<name>] is submitted for the failing
    list; but the message that is logged is built from the variable [key],
    left by the loop over the snapshot, and names the last field of the
    snapshot, not the list. *)
Theorem list_length_error_log
    (w : world) (c : conn) (info : list (string * pyval)) (list_lengths tags : list string)
    (k : string) (s : state) :
  last_key info = Some k ->
  Forall (llen_answers w c) list_lengths ->
  save_list_lengths w c (last_key info) list_lengths tags s
  = (Ok tt, grow (llen_metrics w c list_lengths tags) (llen_errors w c k list_lengths) s)
  /\ forall l msg,
       In l list_lengths ->
       conn_llen w c l = Raise (ResponseError msg) ->
       In (Log LogError "Could not get length of %s: %s "
             [ArgVal (VStr k); ArgExn (ResponseError msg)])
          (llen_errors w c k list_lengths)
       /\ Forall (fun m => m_name m <> "redis.llen." +:+ l)
                 (llen_metrics w c list_lengths tags).
Proof.
  intros Hk Hall. split; [rewrite Hk; now apply save_list_lengths_eq|].
  intros l msg Hl Herr. split.
  - unfold llen_errors. apply in_flat_map. exists l. split; [assumption|].
    rewrite Herr. now left.
  - unfold llen_metrics. apply List.Forall_forall. intros m Hm.
    apply in_flat_map in Hm as (l' & _ & Hm).
    destruct (conn_llen w c l') as [n|e] eqn:E; [|destruct Hm].
    destruct Hm as [<-|[]]. cbn. intros Heq. simplify_eq. congruence.
Qed.

(** ** The command delta *)

Lemma named_app (n : string) (l1 l2 : list metric) :
  named n (l1 ++ l2) = (named n l1 ++ named n l2)%list.
Proof. apply List.filter_app. Qed.

Lemma named_none (n : string) (l : list metric) :
  Forall (fun m => m_name m <> n) l -> named n l = [].
Proof.
  induction 1 as [|m l Hm _ IH]; [reflexivity|].
  cbn. apply String.eqb_neq in Hm. now rewrite Hm.
Qed.

Lemma get_conn_keeps (w : world) (host : string) (port : Z) (password : option string)
    (db : Z) (s : state) :
  previous_total_commands (snd (_get_conn w host port password db s))
  = previous_total_commands s
  /\ metrics (snd (_get_conn w host port password db s)) = metrics s.
Proof.
  unfold _get_conn, bind, cached, try_except, construct, set_connection, get_connection,
    log, raise, ret.
  destruct (connections s !! (host, port, db)) eqn:Hc; cbn.
  - now rewrite Hc.
  - destruct (nonempty password); cbn.
    + destruct (redis_Redis w host port password db) as [c|e]; cbn.
      * now rewrite lookup_insert_eq.
      * now destruct e.
    + destruct (redis_Redis w host port None db) as [c|e]; cbn.
      * now rewrite lookup_insert_eq.
      * easy.
Qed.

Lemma check_db_Ok_inv (w : world) (host : string) (port : Z) (password : option string)
    (db : Z) (list_lengths : list string) (custom_tags : option (list string))
    (s s' : state) :
  _check_db w host port password db list_lengths custom_tags s = (Ok tt, s') ->
  exists c info s0,
    _get_conn w host port password db s = (Ok c, s0)
    /\ conn_info w c = Ok info
    /\ extract w c info list_lengths (make_tags host port custom_tags)
         (emit [latency_metric w (make_tags host port custom_tags)] s0) = (Ok tt, s').
Proof.
  unfold _check_db. intros H.
  apply bind_inv_Ok in H as (c & s0 & Hconn & H). cbv zeta in H.
  apply bind_inv_Ok in H as (info & s0' & Hinfo & H).
  unfold lift in Hinfo. injection Hinfo as Hinfo <-.
  apply bind_inv_Ok in H as ([] & s0'' & Hg & H).
  unfold gauge, submit in Hg. injection Hg as <-.
  now exists c, info, s0.
Qed.

Lemma save_commands_Ok (info : list (string * pyval)) (tags : list string) (t : Z)
    (s s' : state) :
  assoc "total_commands_processed" info = Some (VInt t) ->
  save_commands info tags s = (Ok tt, s') ->
  previous_total_commands s' = <[tags := VInt (t - 1)]> (previous_total_commands s)
  /\ match previous_total_commands s !! tags with
     | None => metrics s' = metrics s
     | Some p =>
         exists count, py_sub (VInt (t - 1)) p = Ok count
                       /\ metrics s' = (metrics s
                                        ++ [Metric Gauge "redis.net.commands" count tags])%list
     end.
Proof.
  intros Ht H. unfold save_commands in H.
  rewrite (bind_Ok _ _ s s (VInt t)) in H by (apply index_Some, Ht).
  rewrite (bind_Ok _ _ s s (VInt (t - 1))) in H by reflexivity.
  rewrite (bind_Ok _ _ s s (previous_total_commands s !! tags)) in H by reflexivity.
  apply bind_inv_Ok in H as ([] & s1 & H1 & H2).
  unfold store_total_commands in H2. injection H2 as <-. cbn [previous_total_commands metrics].
  destruct (previous_total_commands s !! tags) as [p|].
  - apply bind_inv_Ok in H1 as (count & s1' & Hc & Hg).
    unfold lift in Hc. injection Hc as Hc <-.
    unfold gauge, submit in Hg. injection Hg as <-.
    split; [reflexivity|]. now exists count.
  - unfold ret in H1. injection H1 as <-. now split.
Qed.

(** A successful invocation, seen from the command delta: the new previous
    count, and the samples named [redis.net.commands] among those submitted. *)
Lemma check_db_commands (w : world) (host : string) (port : Z) (password : option string)
    (db : Z) (list_lengths : list string) (custom_tags : option (list string))
    (info : list (string * pyval)) (t : Z) (s s' : state) :
  serves w info ->
  assoc "total_commands_processed" info = Some (VInt t) ->
  _check_db w host port password db list_lengths custom_tags s = (Ok tt, s') ->
  previous_total_commands s'
  = <[make_tags host port custom_tags := VInt (t - 1)]> (previous_total_commands s)
  /\ match previous_total_commands s !! make_tags host port custom_tags with
     | None => named "redis.net.commands" (emitted s s') = []
     | Some p =>
         exists count, py_sub (VInt (t - 1)) p = Ok count
                       /\ named "redis.net.commands" (emitted s s')
                          = [Metric Gauge "redis.net.commands" count
                               (make_tags host port custom_tags)]
     end.
Proof.
  intros Hserves Ht Hrun. set (tags := make_tags host port custom_tags) in *.
  apply check_db_Ok_inv in Hrun as (c & info' & s0 & Hconn & Hinfo & Hext).
  fold tags in Hext. rewrite Hserves in Hinfo. injection Hinfo as <-.
  destruct (get_conn_keeps w host port password db s) as [Hprev Hmet].
  rewrite Hconn in Hprev, Hmet. cbn [snd] in Hprev, Hmet.
  rewrite extract_split in Hext.
  apply bind_inv_Ok in Hext as ([] & s1 & Hbefore & Hcmd).
  destruct (frame_before_commands _ w c info list_lengths tags (frame_save_ratios w info tags)
              (emit [latency_metric w tags] s0)) as (new & msgs & Hs1 & Hnew).
  rewrite Hbefore in Hs1. cbn [snd] in Hs1. subst s1.
  destruct (save_commands_Ok info tags t _ s' Ht Hcmd) as [Hstore Hemit].
  cbn [grow write_log emit previous_total_commands metrics] in Hstore, Hemit.
  rewrite Hprev in Hstore, Hemit. rewrite Hmet in Hemit.
  split; [assumption|].
  assert (Hpre : named "redis.net.commands" ([latency_metric w tags] ++ new) = []).
  { apply named_none. apply Forall_app. split; [repeat constructor; discriminate|].
    eapply Forall_impl; [exact Hnew|]. intros m [Hm|[Hm _]].
    - now apply static_metric_name in Hm.
    - rewrite Hm. discriminate. }
  destruct (previous_total_commands s !! tags) as [p|].
  - destruct Hemit as (count & Hcount & Hemit). exists count. split; [assumption|].
    rewrite (emitted_app s s' (([latency_metric w tags] ++ new)
                               ++ [Metric Gauge "redis.net.commands" count tags])).
    + now rewrite named_app, Hpre.
    + rewrite Hemit. now rewrite <- !app_assoc.
  - rewrite (emitted_app s s' ([latency_metric w tags] ++ new)); [assumption|].
    rewrite Hemit. now rewrite <- !app_assoc.
Qed.

(** C2.  For a successful invocation whose snapshot holds the integer [t] as
    [total_commands_processed]: [t - 1] is stored as the previous value of the
    sorted tag tuple, whether or not one was stored; no [redis.net.commands]
    is submitted when none was stored; when [p] was stored, exactly one gauge
    [redis.net.commands] is submitted, with the value [(t - 1) - p]; and with
    [t = b + 50 + 1] for a stored baseline [b] that value is 50. *)
Theorem commands_delta
    (w : world) (host : string) (port : Z) (password : option string) (db : Z)
    (list_lengths : list string) (custom_tags : option (list string))
    (info : list (string * pyval)) (t : Z) (s s' : state) :
  serves w info ->
  assoc "total_commands_processed" info = Some (VInt t) ->
  _check_db w host port password db list_lengths custom_tags s = (Ok tt, s') ->
  previous_total_commands s'
  = <[make_tags host port custom_tags := VInt (t - 1)]> (previous_total_commands s)
  /\ (previous_total_commands s !! make_tags host port custom_tags = None ->
      named "redis.net.commands" (emitted s s') = [])
  /\ (forall p,
         previous_total_commands s !! make_tags host port custom_tags = Some p ->
         exists count, py_sub (VInt (t - 1)) p = Ok count
                       /\ named "redis.net.commands" (emitted s s')
                          = [Metric Gauge "redis.net.commands" count
                               (make_tags host port custom_tags)])
  /\ (forall b,
         previous_total_commands s !! make_tags host port custom_tags = Some (VInt b) ->
         t = b + 50 + 1 ->
         named "redis.net.commands" (emitted s s')
         = [Metric Gauge "redis.net.commands" (VInt 50) (make_tags host port custom_tags)]).
Proof.
  intros Hserves Ht Hrun.
  destruct (check_db_commands w host port password db list_lengths custom_tags info t s s'
              Hserves Ht Hrun) as [Hstore Hemit].
  split; [assumption|]. split; [|split].
  - intros Hnone. now rewrite Hnone in Hemit.
  - intros p Hp. now rewrite Hp in Hemit.
  - intros b Hb ->. rewrite Hb in Hemit. destruct Hemit as (count & Hcount & ->).
    cbn in Hcount. injection Hcount as <-. do 3 f_equal. lia.
Qed.

(** C10.  For two successful invocations in a row with the same sorted tag
    tuple, the second submits exactly one gauge [redis.net.commands], and its
    value is the difference of the two [total_commands_processed]: the two
    subtractions of 1 cancel. *)
Theorem consecutive_commands_delta
    (w1 w2 : world) (host1 host2 : string) (port1 port2 : Z)
    (password1 password2 : option string) (db1 db2 : Z)
    (list_lengths1 list_lengths2 : list string) (custom_tags1 custom_tags2 : option (list string))
    (info1 info2 : list (string * pyval)) (t1 t2 : Z) (s0 s1 s2 : state) :
  serves w1 info1 ->
  serves w2 info2 ->
  assoc "total_commands_processed" info1 = Some (VInt t1) ->
  assoc "total_commands_processed" info2 = Some (VInt t2) ->
  make_tags host1 port1 custom_tags1 = make_tags host2 port2 custom_tags2 ->
  _check_db w1 host1 port1 password1 db1 list_lengths1 custom_tags1 s0 = (Ok tt, s1) ->
  _check_db w2 host2 port2 password2 db2 list_lengths2 custom_tags2 s1 = (Ok tt, s2) ->
  named "redis.net.commands" (emitted s1 s2)
  = [Metric Gauge "redis.net.commands" (VInt (t2 - t1)) (make_tags host2 port2 custom_tags2)].
Proof.
  intros Hw1 Hw2 Ht1 Ht2 Htags Hrun1 Hrun2.
  destruct (check_db_commands _ _ _ _ _ _ _ _ _ _ _ Hw1 Ht1 Hrun1) as [Hstore1 _].
  destruct (check_db_commands _ _ _ _ _ _ _ _ _ _ _ Hw2 Ht2 Hrun2) as [_ Hemit].
  rewrite Hstore1, Htags, lookup_insert_eq in Hemit.
  destruct Hemit as (count & Hcount & ->). cbn in Hcount. injection Hcount as <-.
  do 3 f_equal. lia.
Qed.

(** ** The order of the snapshot *)

Lemma for_each_skip {A : Type} (l : list A) (body : A -> M unit) :
  (forall y, In y l -> forall s, body y s = (Ok tt, s)) ->
  forall s, for_each l body s = (Ok tt, s).
Proof.
  induction l as [|y l IH]; intros H s; [reflexivity|].
  cbn [for_each]. rewrite (bind_Ok _ _ s s tt) by (apply H; now left).
  apply IH. intros z Hz. apply H. now right.
Qed.

(** A loop in which one element only does something is that element's body. *)
Lemma for_each_single {A : Type} (l : list A) (body : A -> M unit) (x : A) :
  List.NoDup l -> In x l ->
  (forall y, In y l -> y <> x -> forall s, body y s = (Ok tt, s)) ->
  forall s, for_each l body s = body x s.
Proof.
  induction l as [|y l IH]; intros Hnd Hin Hskip s; [destruct Hin|].
  inversion Hnd as [|? ? Hy Hnd']; subst. cbn [for_each]. destruct Hin as [->|Hin].
  - unfold bind. destruct (body x s) as [[[]|e] s1]; [|reflexivity].
    apply for_each_skip. intros z Hz. apply Hskip; [now right|]. now intros ->.
  - rewrite (bind_Ok _ _ s s tt).
    + apply IH; [assumption..|]. intros z Hz. apply Hskip. now right.
    + apply Hskip; [now left|]. now intros ->.
Qed.

Lemma assoc_not_In {A : Type} (k : string) (d : list (string * A)) :
  ~ In k (map fst d) -> assoc k d = None.
Proof.
  induction d as [|[k' v'] d IH]; cbn; [reflexivity|]. intros H.
  destruct (String.eqb_spec k k') as [->|Hne]; [exfalso; apply H; now left|].
  apply IH. intros Hin. apply H. now right.
Qed.

(** Indexing a dictionary does not depend on the order of its items. *)
Lemma assoc_Permutation {A : Type} (d d' : list (string * A)) (k : string) :
  List.NoDup (map fst d) -> Permutation d d' -> assoc k d = assoc k d'.
Proof.
  intros Hnd Hperm. induction Hperm as [|[k1 v1] d d' Hperm IH
                                        |[k1 v1] [k2 v2] d|d d' d'' H1 IH1 H2 IH2].
  - reflexivity.
  - cbn in *. inversion Hnd; subst. destruct (String.eqb k k1); [reflexivity|]. now apply IH.
  - cbn in *. inversion Hnd as [|? ? Hnot _]; subst.
    destruct (String.eqb_spec k k1) as [->|]; [|reflexivity].
    destruct (String.eqb_spec k1 k2) as [->|]; [|reflexivity].
    exfalso. apply Hnot. now left.
  - rewrite IH1 by assumption. apply IH2.
    eapply Permutation_NoDup; [|exact Hnd]. now apply Permutation_map.
Qed.

Lemma mapped_ext (k : metric_kind) (table : list (string * string))
    (info info' : list (string * pyval)) (tags : list string) :
  (forall f, assoc f info = assoc f info') ->
  mapped k table info tags = mapped k table info' tags.
Proof.
  intros H. unfold mapped. induction table as [|[f n] table IH]; [reflexivity|].
  cbn. now rewrite H, IH.
Qed.

(** The three samples of a per-database dictionary whose ratio is defined. *)
Lemma save_db_dict (w : world) (info : list (string * pyval)) (tags : list string)
    (key : string) (d : list (string * pyval)) (keys expires : pyval) (fk fe r : spec_float)
    (s : state) :
  db_key_pattern_match key = true ->
  assoc key info = Some (VDict d) ->
  assoc "keys" d = Some keys ->
  assoc "expires" d = Some expires ->
  py_float (float_of_str w) expires = Ok fe ->
  py_float (float_of_str w) keys = Ok fk ->
  percentage fe fk = Ok r ->
  save_db w info tags key s
  = (Ok tt,
     emit [Metric Gauge "redis.keys" keys (tags ++ ["redis_db:" +:+ key])%list;
           Metric Gauge "redis.expires" expires (tags ++ ["redis_db:" +:+ key])%list;
           Metric Gauge "redis.expires_ratio" (VFloat r) (tags ++ ["redis_db:" +:+ key])%list]
       s).
Proof.
  intros Hmatch Hkey Hkeys Hexp Hfe Hfk Hr. unfold save_db. rewrite Hmatch. cbv zeta.
  rewrite (bind_Ok _ _ _ _ tt (save_subkeys_dict _ _ _ _ s Hkey)).
  rewrite Hkeys, Hexp. unfold save_expires_ratio.
  set (db_tags := (tags ++ ["redis_db:" +:+ key])%list).
  set (s0 := emit [Metric Gauge "redis.keys" keys db_tags;
                   Metric Gauge "redis.expires" expires db_tags] s).
  rewrite (try_except_Ok _ _ s0
             (emit [Metric Gauge "redis.expires_ratio" (VFloat r) db_tags] s0) tt).
  - unfold s0, emit. cbn. now rewrite <- app_assoc.
  - rewrite (bind_Ok _ _ _ _ (VDict d)) by (apply index_Some, Hkey).
    unfold lift at 1, bind at 1. cbn [py_getitem]. rewrite Hexp.
    unfold lift at 1, bind at 1. rewrite Hfe.
    rewrite (bind_Ok _ _ _ _ (VDict d)) by (apply index_Some, Hkey).
    unfold lift at 1, bind at 1. cbn [py_getitem]. rewrite Hkeys.
    unfold bind, lift. rewrite Hfk, Hr. reflexivity.
Qed.

Lemma save_commands_first (info : list (string * pyval)) (tags : list string) (t : Z)
    (s : state) :
  assoc "total_commands_processed" info = Some (VInt t) ->
  previous_total_commands s !! tags = None ->
  save_commands info tags s
  = (Ok tt,
     {| previous_total_commands := <[tags := VInt (t - 1)]> (previous_total_commands s);
        connections := connections s;
        metrics := metrics s;
        logged := logged s;
        constructed := constructed s |}).
Proof.
  intros Ht Hnone. unfold save_commands.
  rewrite (bind_Ok _ _ s s (VInt t)) by (apply index_Some, Ht).
  rewrite (bind_Ok _ _ s s (VInt (t - 1))) by reflexivity.
  rewrite (bind_Ok _ _ s s None) by (unfold previous_of; now rewrite Hnone).
  reflexivity.
Qed.

(** ** The end-to-end scenario *)

Lemma scenario_NoDup : List.NoDup (map fst scenario).
Proof.
  cbn. repeat (constructor; [cbn; intros H;
    repeat (destruct H as [H|H]; [discriminate H|]); exact H|]). constructor.
Qed.

Lemma scenario_save_dbs (w : world) (info : list (string * pyval)) (tags : list string)
    (s : state) :
  Permutation scenario info ->
  save_dbs w info tags s
  = (Ok tt,
     emit [Metric Gauge "redis.keys" (VInt 10) (tags ++ ["redis_db:db0"])%list;
           Metric Gauge "redis.expires" (VInt 2) (tags ++ ["redis_db:db0"])%list;
           Metric Gauge "redis.expires_ratio" (VFloat (float_of_Z 20))
             (tags ++ ["redis_db:db0"])%list] s).
Proof.
  intros Hperm. unfold save_dbs.
  rewrite (for_each_single _ _ "db0").
  - apply (save_db_dict w info tags "db0" [("keys", VInt 10); ("expires", VInt 2)]
             (VInt 10) (VInt 2) (float_of_Z 10) (float_of_Z 2));
      try reflexivity.
    now rewrite <- (assoc_Permutation scenario info "db0" scenario_NoDup Hperm).
  - eapply Permutation_NoDup; [|exact scenario_NoDup]. now apply Permutation_map.
  - eapply Permutation_in; [apply Permutation_map, Hperm|]. cbn. tauto.
  - intros y Hy Hne s0.
    apply (Permutation_in _ (Permutation_sym (Permutation_map fst Hperm))) in Hy.
    cbn in Hy. destruct Hy as [<-|[<-|[<-|[<-|[<-|[]]]]]]; try reflexivity.
    now contradiction Hne.
Qed.

(** C3.  A first invocation (fresh state, no list lengths) whose info query
    returns the snapshot of the scenario, in any order of its fields,
    succeeds.  Besides the latency it submits [redis.mem.used] = 1048576, the
    two keyspace gauges, [redis.hit_ratio] = 400.0, and for [db0]
    [redis.keys] = 10, [redis.expires] = 2 and [redis.expires_ratio] = 20.0;
    it stores 100 as the previous command count of the tag tuple and submits
    no [redis.net.commands]. *)
Theorem first_invocation_scenario
    (w : world) (host : string) (port : Z) (password : option string) (db : Z)
    (custom_tags : option (list string)) (c : conn) (info : list (string * pyval)) :
  Permutation scenario info ->
  redis_Redis w host port (if nonempty password then password else None) db = Ok c ->
  conn_info w c = Ok info ->
  fst (_check_db w host port password db [] custom_tags init) = Ok tt
  /\ Permutation
       (metrics (snd (_check_db w host port password db [] custom_tags init)))
       [ latency_metric w (make_tags host port custom_tags);
         Metric Gauge "redis.mem.used" (VInt 1048576) (make_tags host port custom_tags);
         Metric Gauge "redis.stats.keyspace_hits" (VInt 80) (make_tags host port custom_tags);
         Metric Gauge "redis.stats.keyspace_misses" (VInt 20) (make_tags host port custom_tags);
         Metric Gauge "redis.hit_ratio" (VFloat (float_of_Z 400))
           (make_tags host port custom_tags);
         Metric Gauge "redis.keys" (VInt 10)
           (make_tags host port custom_tags ++ ["redis_db:db0"])%list;
         Metric Gauge "redis.expires" (VInt 2)
           (make_tags host port custom_tags ++ ["redis_db:db0"])%list;
         Metric Gauge "redis.expires_ratio" (VFloat (float_of_Z 20))
           (make_tags host port custom_tags ++ ["redis_db:db0"])%list ]
  /\ previous_total_commands (snd (_check_db w host port password db [] custom_tags init))
     = {[ make_tags host port custom_tags := VInt 100 ]}
  /\ named "redis.net.commands"
       (metrics (snd (_check_db w host port password db [] custom_tags init))) = [].
Proof.
  intros Hperm Hnew Hinfo. set (tags := make_tags host port custom_tags).
  assert (Hassoc : forall k, assoc k info = assoc k scenario).
  { intros k. symmetry. apply assoc_Permutation; [apply scenario_NoDup | assumption]. }
  assert (Hrun : exists s', _check_db w host port password db [] custom_tags init = (Ok tt, s')
            /\ metrics s'
               = [ latency_metric w tags;
                   Metric Gauge "redis.keys" (VInt 10) (tags ++ ["redis_db:db0"])%list;
                   Metric Gauge "redis.expires" (VInt 2) (tags ++ ["redis_db:db0"])%list;
                   Metric Gauge "redis.expires_ratio" (VFloat (float_of_Z 20))
                     (tags ++ ["redis_db:db0"])%list;
                   Metric Gauge "redis.stats.keyspace_hits" (VInt 80) tags;
                   Metric Gauge "redis.stats.keyspace_misses" (VInt 20) tags;
                   Metric Gauge "redis.mem.used" (VInt 1048576) tags;
                   Metric Gauge "redis.hit_ratio" (VFloat (float_of_Z 400)) tags ]
            /\ previous_total_commands s' = {[ tags := VInt 100 ]}).
  { unfold _check_db.
    rewrite (bind_Ok _ _ _ _ _ (get_conn_miss w host port password db init c
                                  (lookup_empty _) Hnew)).
    cbv zeta. fold tags.
    rewrite (bind_Ok _ _ _ _ info) by (unfold lift; now rewrite Hinfo).
    rewrite (bind_Ok _ _ _ _ tt) by reflexivity.
    unfold extract.
    rewrite (bind_Ok _ _ _ _ tt (scenario_save_dbs w info tags _ Hperm)).
    rewrite (bind_Ok _ _ _ _ tt (save_gauges_eq _ _ _)).
    rewrite (bind_Ok _ _ _ _ tt (save_rates_eq _ _ _)).
    rewrite !(mapped_ext _ _ info scenario tags Hassoc).
    rewrite (bind_Ok _ _ _ _ tt
               (save_ratios_hit w info tags (VInt 80) (VInt 20)
                  (float_of_Z 80) (float_of_Z 20) _
                  (Hassoc _) (Hassoc _) eq_refl eq_refl eq_refl eq_refl eq_refl eq_refl)).
    rewrite (bind_Ok _ _ _ _ tt) by reflexivity.
    rewrite (save_commands_first info tags 101) by (rewrite ?Hassoc; reflexivity).
    eexists. split; [reflexivity|]. split; reflexivity. }
  destruct Hrun as (s' & -> & Hmetrics & Hprev). cbn [fst snd].
  split; [reflexivity|]. rewrite Hmetrics, Hprev. split; [|split; reflexivity].
  apply Permutation_cons; [reflexivity|].
  change (Permutation ([Metric Gauge "redis.keys" (VInt 10) (tags ++ ["redis_db:db0"])%list;
                        Metric Gauge "redis.expires" (VInt 2) (tags ++ ["redis_db:db0"])%list;
                        Metric Gauge "redis.expires_ratio" (VFloat (float_of_Z 20))
                          (tags ++ ["redis_db:db0"])%list]
                       ++ [Metric Gauge "redis.stats.keyspace_hits" (VInt 80) tags;
                           Metric Gauge "redis.stats.keyspace_misses" (VInt 20) tags;
                           Metric Gauge "redis.mem.used" (VInt 1048576) tags;
                           Metric Gauge "redis.hit_ratio" (VFloat (float_of_Z 400)) tags])
                      ([Metric Gauge "redis.mem.used" (VInt 1048576) tags;
                        Metric Gauge "redis.stats.keyspace_hits" (VInt 80) tags;
                        Metric Gauge "redis.stats.keyspace_misses" (VInt 20) tags;
                        Metric Gauge "redis.hit_ratio" (VFloat (float_of_Z 400)) tags]
                       ++ [Metric Gauge "redis.keys" (VInt 10) (tags ++ ["redis_db:db0"])%list;
                           Metric Gauge "redis.expires" (VInt 2) (tags ++ ["redis_db:db0"])%list;
                           Metric Gauge "redis.expires_ratio" (VFloat (float_of_Z 20))
                             (tags ++ ["redis_db:db0"])%list])).
  etransitivity; [apply Permutation_app_comm|]. apply Permutation_app_tail.
  etransitivity; [|apply Permutation_swap]. apply Permutation_cons; [reflexivity|].
  etransitivity; [|apply Permutation_swap]. apply Permutation_cons; [reflexivity|].
  reflexivity.
Qed.

(** ** The properties on the examples *)

Lemma hit_ratio_witness :
  In (Metric Gauge "redis.hit_ratio"
        (VFloat (round2 (fmul (float_of_Z 100) (fdiv (float_of_Z 80) (float_of_Z 20)))))
        example_tags)
     (emitted init (snd (extract (example_world plain_snapshot) 0%nat plain_snapshot []
                           example_tags init)))
  /\ Forall (fun m => m_name m <> "redis.hit_ratio")
            (emitted init (snd (extract (example_world no_hit_snapshot) 0%nat no_hit_snapshot
                                  [] example_tags init)))
  /\ assoc "keyspace_hits" empty_db_snapshot = Some (VInt 80)
  /\ assoc "keyspace_misses" empty_db_snapshot = Some (VInt 20)
  /\ fst (extract (example_world empty_db_snapshot) 0%nat empty_db_snapshot [] example_tags
            init) = Raise ZeroDivisionError
  /\ Forall (fun m => m_name m <> "redis.hit_ratio")
            (emitted init (snd (extract (example_world empty_db_snapshot) 0%nat
                                  empty_db_snapshot [] example_tags init))).
Proof.
  split; [|split; [|split; [reflexivity|split; [reflexivity|]]]].
  - apply (hit_ratio (example_world plain_snapshot) 0%nat plain_snapshot [] example_tags
             (VInt 80) (VInt 20) init eq_refl eq_refl) with (hits := 80) (misses := 20);
      try reflexivity; lia.
  - apply (hit_ratio (example_world no_hit_snapshot) 0%nat no_hit_snapshot [] example_tags
             (VInt 0) (VInt 20) init); [reflexivity | reflexivity | left; reflexivity].
  - destruct (hit_ratio (example_world empty_db_snapshot) 0%nat empty_db_snapshot []
                example_tags (VInt 80) (VInt 20) init eq_refl eq_refl)
      as (_ & _ & _ & Hraise).
    apply (Hraise ZeroDivisionError). vm_compute. reflexivity.
Defined.

Lemma expires_ratio_zero_keys_witness :
  save_db (example_world empty_db_snapshot) empty_db_snapshot example_tags "db0" init
  = (Raise ZeroDivisionError,
     emit [Metric Gauge "redis.keys" (VInt 0) (example_tags ++ ["redis_db:db0"])%list;
           Metric Gauge "redis.expires" (VInt 0) (example_tags ++ ["redis_db:db0"])%list]
       init)
  /\ exists e, fst (extract (example_world empty_db_snapshot) 0%nat empty_db_snapshot []
                      example_tags init) = Raise e.
Proof.
  pose proof (expires_ratio_zero_keys (example_world empty_db_snapshot) 0%nat
                empty_db_snapshot [] example_tags "db0"
                [("keys", VInt 0); ("expires", VInt 0)] (VInt 0) init
                eq_refl eq_refl eq_refl eq_refl) as (Hfail & _ & _ & Hdb).
  split; [|exact Hfail].
  apply (Hdb (VInt 0) (float_of_Z 0)); reflexivity.
Defined.

(** The whole invocation on the snapshot with an empty database: it fails
    after the two subkey gauges of [db0]. *)
Lemma empty_db_invocation :
  fst (_check_db (example_world empty_db_snapshot) "localhost" 6379 None 0 ["queue"] None init)
  = Raise ZeroDivisionError
  /\ map m_name
       (metrics (snd (_check_db (example_world empty_db_snapshot) "localhost" 6379 None 0
                        ["queue"] None init)))
     = ["redis.info.latency_ms"; "redis.keys"; "redis.expires"]
  /\ previous_total_commands
       (snd (_check_db (example_world empty_db_snapshot) "localhost" 6379 None 0
               ["queue"] None init)) !! example_tags = None.
Proof. vm_compute. repeat split. Qed.

Lemma ratio_missing_field_witness :
  fst (extract (example_world old_server_snapshot) 0%nat old_server_snapshot ["queue"]
         example_tags init) = Raise (KeyError "keyspace_hits").
Proof.
  pose proof (ratio_missing_field (example_world old_server_snapshot) 0%nat
                old_server_snapshot ["queue"] example_tags init (or_introl eq_refl))
    as (_ & Hkey & _).
  exact (Hkey eq_refl).
Defined.

(** The whole invocation on the snapshot without [keyspace_hits]: the list
    [queue] exists, but its length is not submitted, and neither is the
    command delta of a second invocation. *)
Lemma old_server_invocation :
  fst (_check_db (example_world old_server_snapshot) "localhost" 6379 None 0 ["queue"] None
         after_first_run)
  = Raise (KeyError "keyspace_hits")
  /\ map m_name
       (emitted after_first_run
          (snd (_check_db (example_world old_server_snapshot) "localhost" 6379 None 0
                  ["queue"] None after_first_run)))
     = ["redis.info.latency_ms"; "redis.stats.keyspace_misses"].
Proof. vm_compute. repeat split. Qed.

Lemma list_length_error_log_witness :
  save_list_lengths (example_world plain_snapshot) 0%nat (last_key plain_snapshot)
    ["nosuchlist"; "queue"] example_tags init
  = (Ok tt,
     grow [Metric Gauge "redis.llen.queue" (VInt 3) example_tags]
          [Log LogError "Could not get length of %s: %s "
             [ArgVal (VStr "total_commands_processed");
              ArgExn (ResponseError "Operation against a key holding the wrong kind of value")]]
          init).
Proof.
  apply (list_length_error_log (example_world plain_snapshot) 0%nat plain_snapshot
           ["nosuchlist"; "queue"] example_tags "total_commands_processed" init).
  - reflexivity.
  - repeat constructor.
Defined.

(** The whole invocation with a list that does not exist: every other sample
    is submitted, and the one message logged names the last field of the
    snapshot. *)
Lemma missing_list_invocation :
  fst (_check_db (example_world plain_snapshot) "localhost" 6379 None 0
         ["nosuchlist"; "queue"] None init) = Ok tt
  /\ map m_name
       (metrics (snd (_check_db (example_world plain_snapshot) "localhost" 6379 None 0
                        ["nosuchlist"; "queue"] None init)))
     = ["redis.info.latency_ms"; "redis.stats.keyspace_hits"; "redis.stats.keyspace_misses";
        "redis.hit_ratio"; "redis.llen.queue"]
  /\ logged (snd (_check_db (example_world plain_snapshot) "localhost" 6379 None 0
                    ["nosuchlist"; "queue"] None init))
     = [Log LogError "Could not get length of %s: %s "
          [ArgVal (VStr "total_commands_processed");
           ArgExn (ResponseError "Operation against a key holding the wrong kind of value")]].
Proof. vm_compute. repeat split. Qed.

Lemma commands_delta_witness :
  previous_total_commands after_first_run !! example_tags = Some (VInt 100)
  /\ named "redis.net.commands" (emitted init after_first_run) = []
  /\ named "redis.net.commands"
       (emitted after_first_run
          (snd (_check_db (example_world later_snapshot) "localhost" 6379 None 0 [] None
                  after_first_run)))
     = [Metric Gauge "redis.net.commands" (VInt 50) (make_tags "localhost" 6379 None)].
Proof.
  split; [vm_compute; reflexivity|]. split.
  - apply (commands_delta (example_world plain_snapshot) "localhost" 6379 None 0 [] None
             plain_snapshot 101 init after_first_run).
    + intros c. reflexivity.
    + reflexivity.
    + vm_compute. reflexivity.
    + vm_compute. reflexivity.
  - apply (commands_delta (example_world later_snapshot) "localhost" 6379 None 0 [] None
             later_snapshot 151 after_first_run _ (fun c => eq_refl) eq_refl) with (b := 100).
    + vm_compute. reflexivity.
    + vm_compute. reflexivity.
    + reflexivity.
Defined.

Lemma consecutive_commands_delta_witness :
  named "redis.net.commands"
    (emitted after_first_run
       (snd (_check_db (example_world later_snapshot) "localhost" 6379 (Some "secret") 0
               ["queue"] None after_first_run)))
  = [Metric Gauge "redis.net.commands" (VInt (151 - 101)) (make_tags "localhost" 6379 None)].
Proof.
  apply (consecutive_commands_delta
           (example_world plain_snapshot) (example_world later_snapshot)
           "localhost" "localhost" 6379 6379 None (Some "secret") 0 0 [] ["queue"] None None
           plain_snapshot later_snapshot 101 151 init after_first_run).
  - intros c. reflexivity.
  - intros c. reflexivity.
  - reflexivity.
  - reflexivity.
  - reflexivity.
  - vm_compute. reflexivity.
  - vm_compute. reflexivity.
Defined.

Lemma first_invocation_scenario_witness :
  fst (_check_db (example_world scenario) "localhost" 6379 None 0 [] None init) = Ok tt
  /\ previous_total_commands
       (snd (_check_db (example_world scenario) "localhost" 6379 None 0 [] None init))
     = {[ make_tags "localhost" 6379 None := VInt 100 ]}.
Proof.
  pose proof (first_invocation_scenario (example_world scenario) "localhost" 6379 None 0 None
                0%nat scenario (Permutation_refl _) eq_refl eq_refl) as (Hok & _ & Hprev & _).
  split; [exact Hok | exact Hprev].
Defined.

(** The whole invocation on the snapshot of an old client: the raw string is
    the value of the gauge [redis.keys]; the ratio of expiring keys then
    indexes the string and raises [TypeError], which ends the invocation. *)
Lemma legacy_invocation :
  fst (_check_db (example_world legacy_snapshot) "localhost" 6379 None 0 [] None init)
  = Raise TypeError
  /\ emitted (emit [latency_metric (example_world legacy_snapshot) example_tags] init)
       (snd (_check_db (example_world legacy_snapshot) "localhost" 6379 None 0 [] None init))
     = [Metric Gauge "redis.keys" (VStr "abc") (example_tags ++ ["redis_db:db0"])%list;
        Metric Gauge "redis.expires" (VInt 0) (example_tags ++ ["redis_db:db0"])%list].
Proof. vm_compute. repeat split. Qed.

(** The floats of the scenario: 400.0 is 7036874417766400 * 2^-44 and 20.0 is
    5629499534213120 * 2^-48. *)
Lemma scenario_floats :
  float_of_Z 400 = S754_finite false 7036874417766400 (-44)
  /\ float_of_Z 20 = S754_finite false 5629499534213120 (-48)
  /\ round2 (fmul (float_of_Z 100) (fdiv (float_of_Z 80) (float_of_Z 20))) = float_of_Z 400
  /\ round2 (fmul (float_of_Z 100) (fdiv (float_of_Z 2) (float_of_Z 10))) = float_of_Z 20.
Proof. repeat split. Qed.

(** ** More on the legacy string parser *)

(** X1.  [_parse_dict_string] raises nothing, whatever it is given: it
    returns a value and leaves the state as it was, or it returns the default
    after one logged parse failure; for a value that is no string it is
    always the latter. *)
Theorem parse_dict_string_never_raises
    (string : pyval) (key : String.string) (default : pyval) (st : state) :
  (exists val,
      _parse_dict_string string key default st = (Ok val, st)
      \/ (val = default
          /\ _parse_dict_string string key default st
             = (Ok default,
                write_log [Log LogException "Cannot parse dictionary string: %s"
                             [ArgVal string]] st)))
  /\ ((forall s, string <> VStr s) ->
      _parse_dict_string string key default st
      = (Ok default,
         write_log [Log LogException "Cannot parse dictionary string: %s" [ArgVal string]] st)).
Proof.
  split.
  - unfold _parse_dict_string, try_except.
    destruct string as [z|f|s|d]; try (exists default; right; now split).
    cbn. destruct (parse_items (split "," s) key default) as [val|e].
    + exists val. now left.
    + exists default. right. now split.
  - intros Hns. destruct string as [z|f|s|d]; try reflexivity. now contradiction (Hns s).
Qed.

Lemma parse_dict_string_never_raises_witness :
  _parse_dict_string (VInt 3) "keys" (VInt (-1)) init
  = (Ok (VInt (-1)),
     write_log [Log LogException "Cannot parse dictionary string: %s" [ArgVal (VInt 3)]] init).
Proof.
  apply (parse_dict_string_never_raises (VInt 3) "keys" (VInt (-1)) init). discriminate.
Defined.

Lemma parse_items_malformed (pre rest : list string) (item key : string) (default : pyval) :
  Forall (fun it => exists k v, rsplit1 "=" it = Some (k, v) /\ k <> key) pre ->
  contains "=" item = false ->
  parse_items (pre ++ item :: rest) key default = Raise ValueError.
Proof.
  intros Hpre Hitem. rewrite parse_items_skip by assumption. cbn.
  now rewrite (rsplit1_None _ _ Hitem).
Qed.

(** X2.  The items are examined in order, up to the first one with the
    requested key or the first one without [=].  An integer value of the
    first item with the key is returned, whatever follows it (malformed items
    or the key again); an item without [=] before any item with the key
    yields the default and a logged failure, even when the key follows. *)
Theorem parse_dict_string_first_item
    (s key : string) (pre post : list string) (item : string) (default : pyval) (st : state) :
  split "," s = (pre ++ item :: post)%list ->
  Forall (fun it => exists k v, rsplit1 "=" it = Some (k, v) /\ k <> key) pre ->
  (forall v z,
      rsplit1 "=" item = Some (key, v) -> int_of_str v = Some z ->
      _parse_dict_string (VStr s) key default st = (Ok (VInt z), st))
  /\ (contains "=" item = false ->
      _parse_dict_string (VStr s) key default st
      = (Ok default,
         write_log [Log LogException "Cannot parse dictionary string: %s" [ArgVal (VStr s)]]
           st)).
Proof.
  intros Hsplit Hpre. split.
  - intros v z Hitem Hint. apply parse_dict_string_items.
    rewrite Hsplit, parse_items_skip by assumption.
    cbn. now rewrite Hitem, String.eqb_refl, Hint.
  - intros Hitem. unfold _parse_dict_string.
    rewrite (try_except_caught _ _ st st ValueError
               (log LogException "Cannot parse dictionary string: %s" [ArgVal (VStr s)] ;;
                ret default)); [reflexivity| |reflexivity].
    cbn. now rewrite Hsplit, parse_items_malformed.
Qed.

Lemma parse_dict_string_first_item_witness :
  _parse_dict_string (VStr "keys=3,junk,keys=7") "keys" (VInt (-1)) init = (Ok (VInt 3), init)
  /\ _parse_dict_string (VStr "keys=3,junk,expires=7") "expires" (VInt (-1)) init
     = (Ok (VInt (-1)),
        write_log [Log LogException "Cannot parse dictionary string: %s"
                     [ArgVal (VStr "keys=3,junk,expires=7")]] init).
Proof.
  split.
  - apply (proj1 (parse_dict_string_first_item "keys=3,junk,keys=7" "keys" []
                    ["junk"; "keys=7"] "keys=3" (VInt (-1)) init eq_refl (List.Forall_nil _))
             "3" 3); reflexivity.
  - apply (parse_dict_string_first_item "keys=3,junk,expires=7" "expires" ["keys=3"]
             ["expires=7"] "junk" (VInt (-1)) init eq_refl).
    + repeat constructor. exists "keys", "3". split; [reflexivity | discriminate].
    + reflexivity.
Defined.

(** *** Integers written and read back *)

Lemma digits_then_space_acc (d : Decimal.uint) (acc : positive) :
  digits_then_space (Z.pos acc) (NilEmpty.string_of_uint d)
  = Some (Z.pos (Pos.of_uint_acc d acc)).
Proof.
  revert acc. induction d; intros acc; cbn [NilEmpty.string_of_uint Pos.of_uint_acc];
    [reflexivity|..]; cbn [digits_then_space];
    (etransitivity; [|apply IHd]); cbn; f_equal; lia.
Qed.

Lemma digits_then_space_uint (d : Decimal.uint) :
  digits_then_space 0 (NilEmpty.string_of_uint d) = Some (Z.of_N (Pos.of_uint d)).
Proof.
  induction d; cbn [NilEmpty.string_of_uint Pos.of_uint]; [reflexivity|exact IHd|..];
    cbn [digits_then_space]; apply digits_then_space_acc.
Qed.

Lemma int_of_str_digit (c : ascii) (rest : string) :
  is_digit c = true -> int_of_str (String c rest) = digits_then_space 0 (String c rest).
Proof.
  destruct c as [[] [] [] [] [] [] [] []]; try discriminate; intros _; reflexivity.
Qed.

Lemma string_of_uint_head (d : Decimal.uint) :
  d <> Decimal.Nil ->
  exists c rest, NilEmpty.string_of_uint d = String c rest /\ is_digit c = true.
Proof. destruct d; [congruence|..]; intros _; cbn; now eexists _, _. Qed.

Lemma int_of_str_pos (p : positive) :
  int_of_str (NilEmpty.string_of_uint (Pos.to_uint p)) = Some (Z.pos p).
Proof.
  destruct (string_of_uint_head _ (Unsigned.to_uint_nonnil p)) as (c & rest & Hs & Hc).
  rewrite Hs, (int_of_str_digit _ _ Hc), <- Hs, digits_then_space_uint.
  now rewrite DecimalPos.Unsigned.of_to.
Qed.

Lemma string_of_uint_nonnil (d : Decimal.uint) :
  d <> Decimal.Nil -> NilZero.string_of_uint d = NilEmpty.string_of_uint d.
Proof. destruct d; [congruence|..]; reflexivity. Qed.

(** [int(str(z))] is [z]. *)
Lemma int_of_str_of_Z (z : Z) : int_of_str (str_of_Z z) = Some z.
Proof.
  destruct z as [|p|p]; [reflexivity| |]; unfold str_of_Z; cbn [Z.to_int NilZero.string_of_int];
    rewrite (string_of_uint_nonnil _ (Unsigned.to_uint_nonnil p)).
  - apply int_of_str_pos.
  - change (option_map Z.opp
              (unsigned_literal (NilEmpty.string_of_uint (Pos.to_uint p))) = Some (Z.neg p)).
    destruct (string_of_uint_head _ (Unsigned.to_uint_nonnil p)) as (c & rest & Hs & Hc).
    rewrite Hs. unfold unsigned_literal. rewrite Hc, <- Hs, digits_then_space_uint.
    now rewrite DecimalPos.Unsigned.of_to.
Qed.

Lemma string_of_uint_contains (c : ascii) (d : Decimal.uint) :
  is_digit c = false -> contains c (NilEmpty.string_of_uint d) = false.
Proof.
  intros Hc. induction d; cbn [NilEmpty.string_of_uint contains]; [reflexivity|..];
    rewrite IHd, orb_false_r; apply Ascii.eqb_neq; intros <-; discriminate.
Qed.

(** The decimal writing of an integer holds digits and a sign only. *)
Lemma str_of_Z_contains (c : ascii) (z : Z) :
  is_digit c = false -> c <> "-"%char -> contains c (str_of_Z z) = false.
Proof.
  intros Hc Hminus.
  assert (Hu : forall d, contains c (NilZero.string_of_uint d) = false).
  { intros d. unfold NilZero.string_of_uint.
    destruct d; try apply (string_of_uint_contains c _ Hc).
    cbn [contains]. rewrite orb_false_r. apply Ascii.eqb_neq. intros <-. discriminate. }
  destruct z; unfold str_of_Z; cbn [Z.to_int NilZero.string_of_int]; try apply Hu.
  cbn [contains]. rewrite Hu, orb_false_r. apply Ascii.eqb_neq. congruence.
Qed.

(** *** Strings split and joined *)

Lemma append_nil (s : string) : EmptyString +:+ s = s.
Proof. reflexivity. Qed.

Lemma append_cons (c : ascii) (s1 s2 : string) : String c s1 +:+ s2 = String c (s1 +:+ s2).
Proof. reflexivity. Qed.

Lemma split_no_sep (sep : ascii) (s : string) :
  contains sep s = false -> split sep s = [s].
Proof.
  induction s as [|c s IH]; [reflexivity|]. cbn [contains split]. intros H.
  apply orb_false_iff in H as [Hc Hs]. now rewrite Hc, (IH Hs).
Qed.

Lemma split_app_sep (sep : ascii) (x rest : string) :
  contains sep x = false -> split sep (x +:+ String sep rest) = x :: split sep rest.
Proof.
  induction x as [|c x IH]; rewrite ?append_nil, ?append_cons; cbn [contains split].
  - intros _. now rewrite Ascii.eqb_refl.
  - intros H. apply orb_false_iff in H as [Hc Hx]. now rewrite Hc, (IH Hx).
Qed.

(** [sep.join(items).split(sep)] gives the items back, when there is one at
    least and none holds the separator. *)
Lemma split_join (sep : ascii) (items : list string) :
  items <> [] ->
  Forall (fun item => contains sep item = false) items ->
  split sep (join (String sep EmptyString) items) = items.
Proof.
  intros Hne Hall. induction Hall as [|x items Hx Hall IH]; [congruence|].
  destruct items as [|y items].
  - cbn [join]. now apply split_no_sep.
  - cbn [join]. rewrite (append_cons sep), append_nil.
    rewrite split_app_sep by assumption. f_equal. now apply IH.
Qed.

Lemma rsplit1_app (sep : ascii) (k v : string) :
  contains sep v = false -> rsplit1 sep (k +:+ String sep v) = Some (k, v).
Proof.
  intros Hv. induction k as [|c k IH]; rewrite ?append_nil, ?append_cons; cbn [rsplit1].
  - now rewrite (rsplit1_None _ _ Hv), Ascii.eqb_refl.
  - now rewrite IH.
Qed.

Lemma contains_app (c : ascii) (s1 s2 : string) :
  contains c (s1 +:+ s2) = contains c s1 || contains c s2.
Proof.
  induction s1 as [|a s1 IH]; rewrite ?append_nil, ?append_cons; cbn [contains orb];
    [reflexivity|].
  now rewrite IH, orb_assoc.
Qed.

Lemma parse_items_rendered (kvs : list (string * Z)) (key : string) (default : pyval) :
  parse_items (map (fun kv => fst kv +:+ "=" +:+ str_of_Z (snd kv)) kvs) key default
  = Ok (match assoc key kvs with
        | Some z => VInt z
        | None => default
        end).
Proof.
  induction kvs as [|[k z] kvs IH]; [reflexivity|]. cbn [map parse_items fst snd assoc].
  rewrite (append_cons "=" EmptyString), append_nil.
  rewrite rsplit1_app by (now apply str_of_Z_contains).
  rewrite (String.eqb_sym key k). destruct (String.eqb k key); [|exact IH].
  now rewrite int_of_str_of_Z.
Qed.

(** X3.  Writing and reading back.  For a per-database entry written as an
    old client returns it, [k1=v1,k2=v2,...] with integer values, at least
    one field and no comma in a field name, [_parse_dict_string] returns the
    integer of the first field with the requested name, and the default when
    there is none; it logs nothing. *)
Theorem parse_dict_string_rendered
    (kvs : list (string * Z)) (key : string) (default : pyval) (st : state) :
  kvs <> [] ->
  Forall (fun kv => contains "," (fst kv) = false) kvs ->
  _parse_dict_string (VStr (render_dict kvs)) key default st
  = (Ok (match assoc key kvs with
         | Some z => VInt z
         | None => default
         end), st).
Proof.
  intros Hne Hkeys. apply parse_dict_string_items. unfold render_dict.
  rewrite split_join.
  - apply parse_items_rendered.
  - destruct kvs; [congruence | discriminate].
  - apply List.Forall_map. eapply Forall_impl; [exact Hkeys|].
    intros [k z] Hk. cbn [fst snd] in *. rewrite contains_app, Hk. cbn [orb].
    rewrite (append_cons "=" EmptyString), append_nil. cbn [contains].
    rewrite str_of_Z_contains by (reflexivity || discriminate). reflexivity.
Qed.

Lemma parse_dict_string_rendered_witness :
  _parse_dict_string (VStr "keys=3,expires=-1,a=b=7") "a=b" (VInt (-1)) init
  = (Ok (VInt 7), init).
Proof.
  apply (parse_dict_string_rendered [("keys", 3); ("expires", -1); ("a=b", 7)] "a=b"
           (VInt (-1)) init).
  - discriminate.
  - repeat constructor.
Defined.

(** ** More on the connection cache *)

Lemma get_conn_raise (w : world) (host : string) (port : Z) (password : option string)
    (db : Z) (s : state) (e : exn) :
  connections s !! (host, port, db) = None ->
  redis_Redis w host port (if nonempty password then password else None) db = Raise e ->
  _get_conn w host port password db s
  = (Raise e,
     {| previous_total_commands := previous_total_commands s;
        connections := connections s;
        metrics := metrics s;
        logged :=
          if nonempty password then
            match e with
            | TypeError =>
                (logged s ++
                 [Log LogException
                    "You need a redis library that supports authenticated connections. Try easy_install redis."
                    []])%list
            | _ => logged s
            end
          else logged s;
        constructed :=
          (constructed s ++ [(host, port, if nonempty password then password else None, db)])%list
     |}).
Proof.
  intros Hc Hnew. unfold _get_conn, bind at 1, bind at 1, cached. rewrite Hc.
  destruct (nonempty password); unfold try_except, bind, construct; rewrite Hnew.
  - now destruct e.
  - reflexivity.
Qed.

Lemma get_conn_Ok_inv (w : world) (host : string) (port : Z) (password : option string)
    (db : Z) (s s0 : state) (c : conn) :
  _get_conn w host port password db s = (Ok c, s0) ->
  (connections s !! (host, port, db) = Some c /\ s0 = s)
  \/ (connections s !! (host, port, db) = None
      /\ redis_Redis w host port (if nonempty password then password else None) db = Ok c
      /\ s0 = {| previous_total_commands := previous_total_commands s;
                 connections := <[(host, port, db) := c]> (connections s);
                 metrics := metrics s;
                 logged := logged s;
                 constructed :=
                   (constructed s
                    ++ [(host, port, if nonempty password then password else None, db)])%list
              |}).
Proof.
  intros H. destruct (connections s !! (host, port, db)) as [c'|] eqn:Hc.
  - rewrite (get_conn_hit _ _ _ _ _ _ _ Hc) in H. injection H as -> ->. now left.
  - destruct (redis_Redis w host port (if nonempty password then password else None) db)
      as [c'|e] eqn:Hnew.
    + rewrite (get_conn_miss _ _ _ _ _ _ _ Hc Hnew) in H. injection H as -> <-. now right.
    + rewrite (get_conn_raise _ _ _ _ _ _ _ Hc Hnew) in H. discriminate.
Qed.

Lemma get_conn_Ok_cached (w : world) (host : string) (port : Z) (password : option string)
    (db : Z) (s s0 : state) (c : conn) :
  _get_conn w host port password db s = (Ok c, s0) ->
  connections s0 !! (host, port, db) = Some c.
Proof.
  intros H. apply get_conn_Ok_inv in H as [[Hc ->]|(_ & _ & ->)]; [assumption|].
  cbn. apply lookup_insert_eq.
Qed.

(** X4.  Once [_get_conn] has returned a handle for [(host, port, db)], every
    later call for that triple returns the same handle and leaves the state
    as it is, whatever the password it is given and whatever the client would
    answer: the password is no part of the cache key, and a cached handle is
    never constructed again. *)
Theorem get_conn_again
    (w w' : world) (host : string) (port : Z) (password password' : option string) (db : Z)
    (s s0 : state) (c : conn) :
  _get_conn w host port password db s = (Ok c, s0) ->
  _get_conn w' host port password' db s0 = (Ok c, s0).
Proof.
  intros H. apply get_conn_hit. exact (get_conn_Ok_cached _ _ _ _ _ _ _ _ H).
Qed.

Lemma get_conn_again_witness :
  _get_conn (example_world []) "localhost" 6379 (Some "other") 0
    (snd (_get_conn (example_world plain_snapshot) "localhost" 6379 None 0 init))
  = (Ok 0%nat, snd (_get_conn (example_world plain_snapshot) "localhost" 6379 None 0 init)).
Proof.
  apply (get_conn_again (example_world plain_snapshot) (example_world []) "localhost" 6379
           None (Some "other") 0 init).
  vm_compute. reflexivity.
Defined.

(** X5.  [_get_conn] keeps what the cache holds: whatever its outcome, the
    entries of the other keys are those before the call and an entry of its
    own key is not replaced; it submits no sample, leaves the previous
    command counts alone and calls the constructor once at most. *)
Theorem get_conn_keeps_cache
    (w : world) (host : string) (port : Z) (password : option string) (db : Z) (s : state) :
  (forall key, key <> (host, port, db) ->
               connections (snd (_get_conn w host port password db s)) !! key
               = connections s !! key)
  /\ (forall c, connections s !! (host, port, db) = Some c ->
                connections (snd (_get_conn w host port password db s)) !! (host, port, db)
                = Some c)
  /\ metrics (snd (_get_conn w host port password db s)) = metrics s
  /\ previous_total_commands (snd (_get_conn w host port password db s))
     = previous_total_commands s
  /\ (length (constructed (snd (_get_conn w host port password db s)))
      <= S (length (constructed s)))%nat.
Proof.
  destruct (connections s !! (host, port, db)) as [c|] eqn:Hc.
  - rewrite (get_conn_hit _ _ _ _ _ _ _ Hc). cbn [snd].
    repeat split; auto; try lia. intros c0 [= <-]. exact Hc.
  - destruct (redis_Redis w host port (if nonempty password then password else None) db)
      as [c|e] eqn:Hnew.
    + rewrite (get_conn_miss _ _ _ _ _ _ _ Hc Hnew). cbn [snd connections metrics
        previous_total_commands constructed]. repeat split.
      * intros key Hkey. now apply lookup_insert_ne.
      * discriminate.
      * rewrite length_app. cbn. lia.
    + rewrite (get_conn_raise _ _ _ _ _ _ _ Hc Hnew). cbn [snd connections metrics
        previous_total_commands constructed]. repeat split.
      * discriminate.
      * rewrite length_app. cbn. lia.
Qed.

(** X6.  When the constructor raises anything but the [TypeError] of an
    authenticated connection, [_get_conn] lets the exception through: nothing
    is logged and nothing is cached, so that the next call for the key calls
    the constructor again. *)
Theorem get_conn_constructor_error
    (w : world) (host : string) (port : Z) (password : option string) (db : Z) (s : state)
    (e : exn) :
  connections s !! (host, port, db) = None ->
  redis_Redis w host port (if nonempty password then password else None) db = Raise e ->
  nonempty password = false \/ e <> TypeError ->
  fst (_get_conn w host port password db s) = Raise e
  /\ logged (snd (_get_conn w host port password db s)) = logged s
  /\ connections (snd (_get_conn w host port password db s)) = connections s
  /\ constructed (snd (_get_conn w host port password db s))
     = (constructed s ++ [(host, port, if nonempty password then password else None, db)])%list.
Proof.
  intros Hc Hnew Hcase. rewrite (get_conn_raise _ _ _ _ _ _ _ Hc Hnew).
  cbn [fst snd logged connections constructed]. repeat split.
  destruct (nonempty password); [|reflexivity].
  destruct Hcase as [|Hne]; [discriminate|]. now destruct e.
Qed.

Lemma get_conn_constructor_error_witness :
  fst (_get_conn (World (fun _ => None)
                        (fun _ _ _ _ => Raise (LibraryError "Connection refused"))
                        (fun _ => Raise (LibraryError "unused"))
                        (fun _ _ => Raise (LibraryError "unused"))
                        (float_of_Z 0) (float_of_Z 0))
                 "localhost" 6379 (Some "secret") 0 init)
  = Raise (LibraryError "Connection refused").
Proof.
  apply (get_conn_constructor_error
           (World (fun _ => None)
                  (fun _ _ _ _ => Raise (LibraryError "Connection refused"))
                  (fun _ => Raise (LibraryError "unused"))
                  (fun _ _ => Raise (LibraryError "unused"))
                  (float_of_Z 0) (float_of_Z 0))
           "localhost" 6379 (Some "secret") 0 init (LibraryError "Connection refused")).
  - reflexivity.
  - reflexivity.
  - right. discriminate.
Defined.

(** ** More on [_check_db] *)

Lemma check_db_cases (w : world) (host : string) (port : Z) (password : option string)
    (db : Z) (list_lengths : list string) (custom_tags : option (list string)) (s : state) :
  _check_db w host port password db list_lengths custom_tags s
  = match _get_conn w host port password db s with
    | (Raise e, s0) => (Raise e, s0)
    | (Ok c, s0) =>
        match conn_info w c with
        | Raise e => (Raise e, s0)
        | Ok info =>
            extract w c info list_lengths (make_tags host port custom_tags)
              (emit [latency_metric w (make_tags host port custom_tags)] s0)
        end
    end.
Proof.
  unfold _check_db, bind, lift.
  destruct (_get_conn w host port password db s) as [[c|e] s0]; [|reflexivity].
  destruct (conn_info w c); reflexivity.
Qed.

(** The samples of [extract]: those before the command delta, and the delta. *)
Lemma emits_extract (w : world) (c : conn) (info : list (string * pyval))
    (list_lengths tags : list string) :
  emits (fun m => static_metric tags list_lengths m
                  \/ (m_name m = "redis.hit_ratio" /\ m_tags m = tags)
                  \/ (m_name m = "redis.net.commands" /\ m_tags m = tags))
        (extract w c info list_lengths tags).
Proof.
  intros s. rewrite extract_split. revert s. apply emits_bind.
  - apply frame_emits. eapply frame_weaken;
      [|apply (frame_before_commands _ w c info list_lengths tags
                 (frame_save_ratios w info tags))].
    cbn. tauto.
  - intros _. eapply emits_weaken; [|apply emits_save_commands]. cbn. tauto.
Qed.

(** X7.  When the info query raises, [_check_db] raises the same exception
    and has submitted nothing: no sample, no log message, no change of the
    previous command counts.  The connection stays in the cache. *)
Theorem check_db_info_error
    (w : world) (host : string) (port : Z) (password : option string) (db : Z)
    (list_lengths : list string) (custom_tags : option (list string))
    (s s0 : state) (c : conn) (e : exn) :
  _get_conn w host port password db s = (Ok c, s0) ->
  conn_info w c = Raise e ->
  _check_db w host port password db list_lengths custom_tags s = (Raise e, s0)
  /\ metrics s0 = metrics s
  /\ logged s0 = logged s
  /\ previous_total_commands s0 = previous_total_commands s
  /\ connections s0 !! (host, port, db) = Some c.
Proof.
  intros Hconn Hinfo. rewrite check_db_cases, Hconn, Hinfo. split; [reflexivity|].
  pose proof (get_conn_Ok_cached _ _ _ _ _ _ _ _ Hconn) as Hcached.
  apply get_conn_Ok_inv in Hconn as [[_ ->]|(_ & _ & ->)]; now repeat split.
Qed.

Lemma check_db_info_error_witness :
  _check_db (World (fun _ => None) (fun _ _ _ _ => Ok 4%nat)
                   (fun _ => Raise (LibraryError "Timeout reading from socket"))
                   (fun _ _ => Raise (LibraryError "unused"))
                   (float_of_Z 0) (float_of_Z 0))
            "localhost" 6379 None 0 ["queue"] None init
  = (Raise (LibraryError "Timeout reading from socket"),
     State ∅ {[ ("localhost", 6379, 0) := 4%nat ]} [] [] [("localhost", 6379, None, 0)]).
Proof.
  apply (check_db_info_error
           (World (fun _ => None) (fun _ _ _ _ => Ok 4%nat)
                  (fun _ => Raise (LibraryError "Timeout reading from socket"))
                  (fun _ _ => Raise (LibraryError "unused"))
                  (float_of_Z 0) (float_of_Z 0))
           "localhost" 6379 None 0 ["queue"] None init _ 4%nat
           (LibraryError "Timeout reading from socket")).
  - vm_compute. reflexivity.
  - reflexivity.
Defined.

Lemma save_commands_previous (info : list (string * pyval)) (tags : list string) (s : state) :
  (forall e, fst (save_commands info tags s) = Raise e ->
             previous_total_commands (snd (save_commands info tags s))
             = previous_total_commands s)
  /\ (forall other, other <> tags ->
                    previous_total_commands (snd (save_commands info tags s)) !! other
                    = previous_total_commands s !! other).
Proof.
  unfold save_commands, bind, index, lift, previous_of, store_total_commands, gauge, submit,
    ret, raise.
  destruct (assoc "total_commands_processed" info) as [v|]; [|now split].
  destruct (py_sub v (VInt 1)) as [total|e1]; [|now split].
  destruct (previous_total_commands s !! tags) as [p|].
  - destruct (py_sub total p) as [count|e2]; [|now split].
    cbn. split; [discriminate|]. intros other Hne. now apply lookup_insert_ne.
  - cbn. split; [discriminate|]. intros other Hne. now apply lookup_insert_ne.
Qed.

Lemma extract_previous (w : world) (c : conn) (info : list (string * pyval))
    (list_lengths tags : list string) (s : state) :
  (forall e, fst (extract w c info list_lengths tags s) = Raise e ->
             previous_total_commands (snd (extract w c info list_lengths tags s))
             = previous_total_commands s)
  /\ (forall other, other <> tags ->
                    previous_total_commands (snd (extract w c info list_lengths tags s)) !! other
                    = previous_total_commands s !! other).
Proof.
  rewrite extract_split. unfold bind.
  destruct (frame_before_commands _ w c info list_lengths tags
              (frame_save_ratios w info tags) s) as (new & msgs & Hs & _).
  destruct (before_commands w c info list_lengths tags s) as [[[]|e] s1]; cbn [snd] in Hs;
    subst s1.
  - destruct (save_commands_previous info tags (grow new msgs s)) as [H1 H2].
    split; [exact H1 | exact H2].
  - now split.
Qed.

(** X8.  An invocation that fails, at whatever step, leaves the previous
    command counts as they were, so that the delta of the next successful
    invocation spans the failed ones; and no invocation, failed or not,
    touches the previous count of another tag tuple. *)
Theorem check_db_previous_counts
    (w : world) (host : string) (port : Z) (password : option string) (db : Z)
    (list_lengths : list string) (custom_tags : option (list string)) (s : state) :
  (forall e,
      fst (_check_db w host port password db list_lengths custom_tags s) = Raise e ->
      previous_total_commands (snd (_check_db w host port password db list_lengths
                                      custom_tags s))
      = previous_total_commands s)
  /\ (forall other,
         other <> make_tags host port custom_tags ->
         previous_total_commands (snd (_check_db w host port password db list_lengths
                                         custom_tags s)) !! other
         = previous_total_commands s !! other).
Proof.
  rewrite check_db_cases.
  destruct (get_conn_keeps w host port password db s) as [Hprev _].
  destruct (_get_conn w host port password db s) as [[c|e] s0]; cbn [snd] in Hprev.
  - destruct (conn_info w c) as [info|e].
    + destruct (extract_previous w c info list_lengths (make_tags host port custom_tags)
                  (emit [latency_metric w (make_tags host port custom_tags)] s0)) as [H1 H2].
      cbn [emit previous_total_commands] in H1, H2. rewrite Hprev in H1, H2. now split.
    + cbn [fst snd]. rewrite Hprev. now split.
  - cbn [fst snd]. rewrite Hprev. now split.
Qed.

Lemma check_db_previous_counts_witness :
  previous_total_commands
    (snd (_check_db (example_world empty_db_snapshot) "localhost" 6379 None 0 [] None
            after_first_run))
  = previous_total_commands after_first_run.
Proof.
  apply (check_db_previous_counts (example_world empty_db_snapshot) "localhost" 6379 None 0
           [] None after_first_run) with (e := ZeroDivisionError).
  vm_compute. reflexivity.
Defined.

(** X9.  Once the info query has answered, the latency gauge is the first
    sample of the invocation, and it stays submitted whatever fails after it:
    a failing invocation is not without effect on the sink. *)
Theorem check_db_latency_first
    (w : world) (host : string) (port : Z) (password : option string) (db : Z)
    (list_lengths : list string) (custom_tags : option (list string))
    (s s0 : state) (c : conn) (info : list (string * pyval)) :
  _get_conn w host port password db s = (Ok c, s0) ->
  conn_info w c = Ok info ->
  exists rest,
    emitted s (snd (_check_db w host port password db list_lengths custom_tags s))
    = latency_metric w (make_tags host port custom_tags) :: rest.
Proof.
  intros Hconn Hinfo. rewrite check_db_cases, Hconn, Hinfo.
  destruct (get_conn_keeps w host port password db s) as [_ Hmet].
  rewrite Hconn in Hmet. cbn [snd] in Hmet.
  destruct (emits_extract w c info list_lengths (make_tags host port custom_tags)
              (emit [latency_metric w (make_tags host port custom_tags)] s0))
    as (new & Hnew & _).
  exists new. apply emitted_app. rewrite Hnew. cbn [emit metrics].
  now rewrite Hmet, <- app_assoc.
Qed.

Lemma check_db_latency_first_witness :
  exists rest,
    emitted init (snd (_check_db (example_world empty_db_snapshot) "localhost" 6379 None 0
                         [] None init))
    = latency_metric (example_world empty_db_snapshot) (make_tags "localhost" 6379 None)
      :: rest.
Proof.
  apply (check_db_latency_first (example_world empty_db_snapshot) "localhost" 6379 None 0
           [] None init
           (snd (_get_conn (example_world empty_db_snapshot) "localhost" 6379 None 0 init))
           0%nat empty_db_snapshot).
  - vm_compute. reflexivity.
  - reflexivity.
Defined.

(** ** More on the per-database entries *)

(** X10.  For a per-database dictionary whose [keys] and [expires] are
    numbers, [keys] other than 0, the body of the loop submits the gauges
    [redis.keys], [redis.expires] and
    [redis.expires_ratio = round(100 * (float(expires) / float(keys)), 2)],
    in this order, tagged with the tags and [redis_db:<key>].  The ratio is
    submitted also when [expires] is 0: unlike the hit ratio, it is not
    skipped for a numerator equal to 0. *)
Theorem expires_ratio_value
    (w : world) (info : list (string * pyval)) (tags : list string) (key : string)
    (d : list (string * pyval)) (keys expires : pyval) (fk fe : spec_float) (s : state) :
  db_key_pattern_match key = true ->
  assoc key info = Some (VDict d) ->
  assoc "keys" d = Some keys ->
  assoc "expires" d = Some expires ->
  is_number keys = true ->
  eq_zero keys = false ->
  py_float (float_of_str w) keys = Ok fk ->
  py_float (float_of_str w) expires = Ok fe ->
  save_db w info tags key s
  = (Ok tt,
     emit [Metric Gauge "redis.keys" keys (tags ++ ["redis_db:" +:+ key])%list;
           Metric Gauge "redis.expires" expires (tags ++ ["redis_db:" +:+ key])%list;
           Metric Gauge "redis.expires_ratio"
             (VFloat (round2 (fmul (float_of_Z 100) (fdiv fe fk))))
             (tags ++ ["redis_db:" +:+ key])%list] s).
Proof.
  intros Hmatch Hkey Hkeys Hexp Hnum Hnz Hfk Hfe.
  apply (save_db_dict w info tags key d keys expires fk fe); try assumption.
  apply percentage_numbers. now rewrite (py_float_is_zero _ _ _ Hnum Hfk).
Qed.

Lemma expires_ratio_value_witness :
  save_db (example_world scenario) [("db3", VDict [("keys", VInt 8); ("expires", VInt 0)])]
    example_tags "db3" init
  = (Ok tt,
     emit [Metric Gauge "redis.keys" (VInt 8) (example_tags ++ ["redis_db:db3"])%list;
           Metric Gauge "redis.expires" (VInt 0) (example_tags ++ ["redis_db:db3"])%list;
           Metric Gauge "redis.expires_ratio"
             (VFloat (round2 (fmul (float_of_Z 100) (fdiv (float_of_Z 0) (float_of_Z 8)))))
             (example_tags ++ ["redis_db:db3"])%list] init).
Proof.
  apply (expires_ratio_value (example_world scenario)
           [("db3", VDict [("keys", VInt 8); ("expires", VInt 0)])] example_tags "db3"
           [("keys", VInt 8); ("expires", VInt 0)] (VInt 8) (VInt 0)
           (float_of_Z 8) (float_of_Z 0) init); reflexivity.
Defined.

(** X11.  For a per-database dictionary that lacks [expires], or lacks [keys]
    while [expires] converts to a float, the gauge of the missing subkey is
    submitted with the value -1, and the ratio then raises [KeyError] on the
    missing subkey, which [except AttributeError] lets through. *)
Theorem save_db_missing_subkey
    (w : world) (info : list (string * pyval)) (tags : list string) (key : string)
    (d : list (string * pyval)) (s : state) :
  db_key_pattern_match key = true ->
  assoc key info = Some (VDict d) ->
  (assoc "expires" d = None ->
   save_db w info tags key s
   = (Raise (KeyError "expires"),
      emit [Metric Gauge "redis.keys"
              (match assoc "keys" d with
               | Some x => x
               | None => VInt (-1)
               end) (tags ++ ["redis_db:" +:+ key])%list;
            Metric Gauge "redis.expires" (VInt (-1)) (tags ++ ["redis_db:" +:+ key])%list] s))
  /\ (forall expires fe,
         assoc "expires" d = Some expires ->
         py_float (float_of_str w) expires = Ok fe ->
         assoc "keys" d = None ->
         save_db w info tags key s
         = (Raise (KeyError "keys"),
            emit [Metric Gauge "redis.keys" (VInt (-1)) (tags ++ ["redis_db:" +:+ key])%list;
                  Metric Gauge "redis.expires" expires (tags ++ ["redis_db:" +:+ key])%list]
              s)).
Proof.
  intros Hmatch Hkey. split.
  - intros Hexp. unfold save_db. rewrite Hmatch. cbv zeta.
    rewrite (bind_Ok _ _ _ _ tt (save_subkeys_dict _ _ _ _ s Hkey)). rewrite Hexp.
    unfold save_expires_ratio. apply try_except_uncaught; [|reflexivity].
    rewrite (bind_Ok _ _ _ _ (VDict d)) by (apply index_Some, Hkey).
    unfold lift at 1, bind at 1. cbn [py_getitem]. now rewrite Hexp.
  - intros expires fe Hexp Hfe Hkeys. unfold save_db. rewrite Hmatch. cbv zeta.
    rewrite (bind_Ok _ _ _ _ tt (save_subkeys_dict _ _ _ _ s Hkey)). rewrite Hexp, Hkeys.
    unfold save_expires_ratio. apply try_except_uncaught; [|reflexivity].
    rewrite (bind_Ok _ _ _ _ (VDict d)) by (apply index_Some, Hkey).
    unfold lift at 1, bind at 1. cbn [py_getitem]. rewrite Hexp.
    unfold lift at 1, bind at 1. rewrite Hfe.
    rewrite (bind_Ok _ _ _ _ (VDict d)) by (apply index_Some, Hkey).
    unfold lift at 1, bind at 1. cbn [py_getitem]. now rewrite Hkeys.
Qed.

Lemma save_db_missing_subkey_witness :
  save_db (example_world scenario) [("db1", VDict [("keys", VInt 4)])] example_tags "db1" init
  = (Raise (KeyError "expires"),
     emit [Metric Gauge "redis.keys" (VInt 4) (example_tags ++ ["redis_db:db1"])%list;
           Metric Gauge "redis.expires" (VInt (-1)) (example_tags ++ ["redis_db:db1"])%list]
       init).
Proof.
  apply (save_db_missing_subkey (example_world scenario) [("db1", VDict [("keys", VInt 4)])]
           example_tags "db1" [("keys", VInt 4)] init); reflexivity.
Defined.

(** ** More on the lengths of lists *)

(** X12.  An exception of [llen] that is no response-level error is not
    caught: the loop ends with it, the lists after the failing one are not
    queried, and nothing is logged for it.  The gauges of the lists before it
    have been submitted. *)
Theorem list_length_other_error
    (w : world) (c : conn) (k : string) (before after tags : list string) (l : string)
    (e : exn) (s : state) :
  Forall (llen_answers w c) before ->
  conn_llen w c l = Raise e ->
  (forall msg, e <> ResponseError msg) ->
  save_list_lengths w c (Some k) (before ++ l :: after) tags s
  = (Raise e, grow (llen_metrics w c before tags) (llen_errors w c k before) s).
Proof.
  intros Hbefore Hl He. revert s. unfold save_list_lengths.
  induction Hbefore as [|x before Hx _ IH]; intros s;
    cbn [for_each app llen_metrics llen_errors flat_map].
  - rewrite grow_nil. apply bind_Raise. apply try_except_uncaught.
    + unfold bind, lift. now rewrite Hl.
    + destruct e; try reflexivity. now contradiction (He msg).
  - unfold bind at 1, try_except, bind at 1, lift. unfold llen_answers in Hx.
    destruct (conn_llen w c x) as [n|[]]; try contradiction.
    + cbn [gauge submit]. rewrite IH, emit_grow, grow_grow. reflexivity.
    + cbn [log]. rewrite IH, write_log_grow, grow_grow. reflexivity.
Qed.

Lemma list_length_other_error_witness :
  save_list_lengths
    (World (fun _ => None) (fun _ _ _ _ => Ok 0%nat) (fun _ => Ok plain_snapshot)
           (fun _ name => if String.eqb name "queue" then Ok (VInt 3)
                          else Raise (LibraryError "Connection reset by peer"))
           (float_of_Z 0) (float_of_Z 0))
    0%nat (Some "total_commands_processed") ["queue"; "jobs"; "queue"] example_tags init
  = (Raise (LibraryError "Connection reset by peer"),
     grow [Metric Gauge "redis.llen.queue" (VInt 3) example_tags] [] init).
Proof.
  apply (list_length_other_error
           (World (fun _ => None) (fun _ _ _ _ => Ok 0%nat) (fun _ => Ok plain_snapshot)
                  (fun _ name => if String.eqb name "queue" then Ok (VInt 3)
                                 else Raise (LibraryError "Connection reset by peer"))
                  (float_of_Z 0) (float_of_Z 0))
           0%nat "total_commands_processed" ["queue"] ["queue"] example_tags "jobs"
           (LibraryError "Connection reset by peer") init).
  - repeat constructor.
  - reflexivity.
  - discriminate.
Defined.

(** ** The samples of an invocation *)

Lemma mapped_kind (k : metric_kind) (table : list (string * string))
    (info : list (string * pyval)) (tags : list string) :
  Forall (fun m => m_kind m = k /\ In (m_name m) (map snd table) /\ m_tags m = tags)
         (mapped k table info tags).
Proof.
  induction table as [|[f n] table IH]; cbn; [constructor|].
  destruct (assoc f info); cbn.
  - constructor; [cbn; auto|]. eapply Forall_impl; [exact IH|]. cbn. tauto.
  - eapply Forall_impl; [exact IH|]. cbn. tauto.
Qed.

Lemma sample_ok_gauge (tags : list string) (name : string) (v : pyval) :
  sample_ok tags (Metric Gauge name v tags).
Proof. right. split; [reflexivity|]. now left. Qed.

Lemma frame_sample_save_db (w : world) (info : list (string * pyval)) (tags : list string)
    (key : string) :
  frame (sample_ok tags) (save_db w info tags key).
Proof.
  unfold save_db. destruct (db_key_pattern_match key) eqn:Hmatch; [|apply frame_ret].
  cbv zeta.
  assert (Hdb : forall name v,
             sample_ok tags (Metric Gauge name v (tags ++ ["redis_db:" +:+ key])%list)).
  { intros name v. right. split; [reflexivity|]. right. now exists key. }
  apply frame_bind.
  - apply frame_for_each. intros subkey _. unfold save_subkey. apply frame_bind.
    + apply frame_try_except.
      * apply frame_bind; [apply frame_index|]. intros d. apply frame_lift.
      * intros e h. destruct e; try discriminate. intros [= <-].
        apply frame_bind; [apply frame_index|]. intros d. apply frame_parse_dict_string.
    + intros val. apply frame_submit, Hdb.
  - intros _. unfold save_expires_ratio. apply frame_try_except.
    + repeat (apply frame_bind; [auto with frame|intros ?]). apply frame_submit, Hdb.
    + intros e h. destruct e; try discriminate. intros [= <-]. apply frame_ret.
Qed.

Lemma frame_sample_before_commands (w : world) (c : conn) (info : list (string * pyval))
    (list_lengths tags : list string) :
  frame (sample_ok tags) (before_commands w c info list_lengths tags).
Proof.
  unfold before_commands.
  apply frame_bind; [apply frame_for_each; intros key _; apply frame_sample_save_db|].
  intros _. apply frame_bind.
  { intros s. exists (mapped Gauge GAUGE_KEYS info tags), [].
    rewrite save_gauges_eq, emit_grow. split; [reflexivity|].
    eapply Forall_impl; [apply mapped_kind|]. intros m (Hk & _ & Ht). right. now split; [|left]. }
  intros _. apply frame_bind.
  { intros s. exists (mapped Rate RATE_KEYS info tags), [].
    rewrite save_rates_eq, emit_grow. split; [reflexivity|].
    eapply Forall_impl; [apply mapped_kind|]. intros m (Hk & Hn & Ht). now left. }
  intros _. apply frame_bind.
  { unfold save_ratios. apply frame_for_each. intros [name [num den]] _. cbn [fst snd].
    apply frame_bind; [apply frame_index|]. intros val1.
    apply frame_bind; [apply frame_index|]. intros val2.
    destruct (negb _); [|apply frame_ret].
    repeat (apply frame_bind; [apply frame_lift|intros ?]).
    apply frame_submit, sample_ok_gauge. }
  intros _. unfold save_list_lengths. apply frame_for_each. intros l _.
  apply frame_try_except.
  - apply frame_bind; [apply frame_lift|]. intros n. apply frame_submit, sample_ok_gauge.
  - intros e h. destruct e; try discriminate. intros [= <-].
    destruct (last_key info); [apply frame_log | apply frame_raise].
Qed.

Lemma emits_sample_save_commands (info : list (string * pyval)) (tags : list string) :
  emits (sample_ok tags) (save_commands info tags).
Proof.
  unfold save_commands.
  apply emits_bind; [apply frame_emits, frame_index|]. intros v.
  apply emits_bind; [apply frame_emits, frame_lift|]. intros total.
  apply emits_bind; [intros s; exists []; cbn; now rewrite app_nil_r|]. intros previous.
  apply emits_bind.
  - destruct previous as [p|]; [|apply frame_emits, frame_ret].
    apply emits_bind; [apply frame_emits, frame_lift|]. intros count.
    apply frame_emits, frame_submit, sample_ok_gauge.
  - intros _ s. exists []. cbn. now rewrite app_nil_r.
Qed.

Lemma emits_sample_extract (w : world) (c : conn) (info : list (string * pyval))
    (list_lengths tags : list string) :
  emits (sample_ok tags) (extract w c info list_lengths tags).
Proof.
  intros s. rewrite extract_split. revert s. apply emits_bind.
  - apply frame_emits, frame_sample_before_commands.
  - intros _. apply emits_sample_save_commands.
Qed.

(** X13.  Every sample of an invocation, whatever its outcome, is a gauge or
    a rate; a rate is one of the four of [RATE_KEYS] and carries the tags of
    the instance; a gauge carries the tags of the instance, or these tags
    followed by one tag [redis_db:<key>] for a key that matches
    [db_key_pattern].  No sample has other tags. *)
Theorem check_db_samples
    (w : world) (host : string) (port : Z) (password : option string) (db : Z)
    (list_lengths : list string) (custom_tags : option (list string)) (s : state) :
  Forall (sample_ok (make_tags host port custom_tags))
         (emitted s (snd (_check_db w host port password db list_lengths custom_tags s))).
Proof.
  rewrite check_db_cases.
  destruct (get_conn_keeps w host port password db s) as [_ Hmet].
  destruct (_get_conn w host port password db s) as [[c|e] s0]; cbn [snd] in Hmet.
  - destruct (conn_info w c) as [info|e]; cbn [snd].
    + destruct (emits_sample_extract w c info list_lengths (make_tags host port custom_tags)
                  (emit [latency_metric w (make_tags host port custom_tags)] s0))
        as (new & Hnew & Hall).
      rewrite (emitted_app s _ (latency_metric w (make_tags host port custom_tags) :: new)).
      * constructor; [apply sample_ok_gauge | exact Hall].
      * rewrite Hnew. cbn [emit metrics]. now rewrite Hmet, <- app_assoc.
    + rewrite (emitted_app s s0 []); [constructor | now rewrite app_nil_r].
  - cbn [snd]. rewrite (emitted_app s s0 []); [constructor | now rewrite app_nil_r].
Qed.

(** ** The samples of the two tables *)

Lemma filter_none {A : Type} (f : A -> bool) (l : list A) :
  Forall (fun x => f x = false) l -> List.filter f l = [].
Proof.
  induction 1 as [|x l Hx _ IH]; [reflexivity|]. cbn. now rewrite Hx.
Qed.

Lemma filter_all {A : Type} (f : A -> bool) (l : list A) :
  Forall (fun x => f x = true) l -> List.filter f l = l.
Proof.
  induction 1 as [|x l Hx _ IH]; [reflexivity|]. cbn. now rewrite Hx, IH.
Qed.

Lemma of_tables_In (m : metric) :
  of_tables m = true <-> In (m_name m) (map snd (GAUGE_KEYS ++ RATE_KEYS)).
Proof.
  unfold of_tables. rewrite existsb_exists. split.
  - intros (x & Hx & Heq). apply String.eqb_eq in Heq. now subst.
  - intros H. exists (m_name m). split; [exact H | apply String.eqb_refl].
Qed.

Lemma of_tables_not_llen (m : metric) (l : string) :
  m_name m = "redis.llen." +:+ l -> of_tables m = false.
Proof.
  intros Hname. destruct (of_tables m) eqn:Hm; [|reflexivity].
  apply of_tables_In in Hm. rewrite Hname in Hm.
  assert (Hall : Forall (fun n => n <> "redis.llen." +:+ l)
                        (map snd (GAUGE_KEYS ++ RATE_KEYS))).
  { unfold GAUGE_KEYS, RATE_KEYS. cbn [map app snd].
    repeat (apply List.Forall_cons;
            [intros E; cbv [String.append] in E; discriminate E|]).
    apply List.Forall_nil. }
  rewrite List.Forall_forall in Hall. now apply Hall in Hm.
Qed.

Lemma of_tables_mapped (k : metric_kind) (table : list (string * string))
    (info : list (string * pyval)) (tags : list string) :
  incl table (GAUGE_KEYS ++ RATE_KEYS) ->
  Forall (fun m => of_tables m = true) (mapped k table info tags).
Proof.
  intros Hincl. eapply Forall_impl; [apply mapped_names|].
  intros m [Hn _]. apply of_tables_In.
  apply in_map_iff in Hn as ([f n] & Hname & Hin). cbn in Hname. subst n.
  apply in_map_iff. exists (f, m_name m). split; [reflexivity | now apply Hincl].
Qed.

(** The samples of [extract] whose name is of the tables. *)
Lemma extract_table_samples (w : world) (c : conn) (info : list (string * pyval))
    (list_lengths tags : list string) (s : state) :
  List.filter of_tables (emitted s (snd (extract w c info list_lengths tags s)))
  = match fst (save_dbs w info tags s) with
    | Ok _ => (mapped Gauge GAUGE_KEYS info tags ++ mapped Rate RATE_KEYS info tags)%list
    | Raise _ => []
    end.
Proof.
  destruct (frame_save_dbs w info tags s) as (n1 & msgs & Hs1 & Hn1).
  assert (Hf1 : List.filter of_tables n1 = []).
  { apply filter_none. eapply Forall_impl; [exact Hn1|].
    intros [k n v t] [key [_ Hn]]. unfold of_tables. cbn in Hn |- *.
    repeat (destruct Hn as [<-|Hn]; [reflexivity|]). destruct Hn. }
  unfold extract.
  destruct (save_dbs w info tags s) as [[[]|e] s1] eqn:Hd; cbn [fst snd] in *.
  - rewrite (bind_Ok _ _ s s1 tt Hd).
    rewrite (bind_Ok _ _ s1 _ tt (save_gauges_eq info tags s1)).
    rewrite (bind_Ok _ _ _ _ tt (save_rates_eq info tags _)).
    assert (Htail : emits (fun m => of_tables m = false)
                      (save_ratios w info tags ;;
                       save_list_lengths w c (last_key info) list_lengths tags ;;
                       save_commands info tags)).
    { apply emits_bind.
      - apply frame_emits. eapply frame_weaken; [|apply frame_save_ratios].
        intros [k n v t] [Hn _]. unfold of_tables. cbn in Hn |- *. now subst n.
      - intros _. apply emits_bind.
        + apply frame_emits. eapply frame_weaken; [|apply frame_save_list_lengths].
          intros m [(l & _ & Hn) _]. now apply (of_tables_not_llen m l).
        + intros _. eapply emits_weaken; [|apply emits_save_commands].
          intros [k n v t] [Hn _]. unfold of_tables. cbn in Hn |- *. now subst n. }
    match goal with
    | |- context [snd (?m ?st)] => destruct (Htail st) as (new & Hnew & Hq)
    end.
    rewrite (emitted_app s _
               (n1 ++ mapped Gauge GAUGE_KEYS info tags ++ mapped Rate RATE_KEYS info tags
                ++ new)%list).
    + rewrite !List.filter_app, Hf1, (filter_none _ new Hq), app_nil_r. cbn [app].
      rewrite !filter_all; [reflexivity| |].
      * apply of_tables_mapped. intros x Hx. apply in_or_app. now right.
      * apply of_tables_mapped. intros x Hx. apply in_or_app. now left.
    + rewrite Hnew, Hs1. unfold grow. destruct s. cbn. now rewrite <- !app_assoc.
  - rewrite (bind_Raise _ _ s s1 e Hd). cbn [snd].
    rewrite (emitted_app s s1 n1); [exact Hf1|]. rewrite Hs1. now destruct s.
Qed.

(** X14.  In an invocation that returns, the samples with a name of
    [GAUGE_KEYS] or [RATE_KEYS] are: for each field of [GAUGE_KEYS] that the
    snapshot holds, one gauge whose value is the field as the server gave it,
    and for each field of [RATE_KEYS] that it holds, one such rate.  All carry
    the tags of the instance; a field that the snapshot does not hold gives no
    sample, and no other statement submits under one of these names. *)
Theorem check_db_table_samples
    (w : world) (host : string) (port : Z) (password : option string) (db : Z)
    (list_lengths : list string) (custom_tags : option (list string))
    (s s0 : state) (c : conn) (info : list (string * pyval)) :
  _get_conn w host port password db s = (Ok c, s0) ->
  conn_info w c = Ok info ->
  fst (_check_db w host port password db list_lengths custom_tags s) = Ok tt ->
  Permutation
    (List.filter of_tables
       (emitted s (snd (_check_db w host port password db list_lengths custom_tags s))))
    (mapped Gauge GAUGE_KEYS info (make_tags host port custom_tags)
     ++ mapped Rate RATE_KEYS info (make_tags host port custom_tags))%list.
Proof.
  intros Hconn Hinfo. rewrite check_db_cases, Hconn, Hinfo. intros Hok.
  destruct (get_conn_keeps w host port password db s) as [_ Hmet].
  rewrite Hconn in Hmet. cbn [snd] in Hmet.
  set (tags := make_tags host port custom_tags) in *.
  set (s1 := emit [latency_metric w tags] s0) in *.
  pose proof (extract_table_samples w c info list_lengths tags s1) as Hx.
  assert (Hdbs : exists s2, save_dbs w info tags s1 = (Ok tt, s2)).
  { unfold extract in Hok. unfold bind at 1 in Hok.
    destruct (save_dbs w info tags s1) as [[[]|e] s2]; [now exists s2 | discriminate Hok]. }
  destruct Hdbs as (s2 & Hdbs). rewrite Hdbs in Hx. cbn [fst] in Hx.
  destruct (emits_extract w c info list_lengths tags s1) as (new & Hnew & _).
  rewrite (emitted_app s1 _ new Hnew) in Hx.
  rewrite (emitted_app s _ (latency_metric w tags :: new)).
  - cbn [List.filter]. unfold of_tables at 1. cbn [latency_metric m_name].
    change (existsb _ _) with false. cbv iota. now rewrite Hx.
  - rewrite Hnew. unfold s1. cbn [emit metrics]. now rewrite Hmet, <- app_assoc.
Qed.

Lemma check_db_table_samples_witness :
  Permutation
    (List.filter of_tables
       (emitted init (snd (_check_db (example_world scenario) "localhost" 6379 None 0 [] None
                             init))))
    (mapped Gauge GAUGE_KEYS scenario (make_tags "localhost" 6379 None)
     ++ mapped Rate RATE_KEYS scenario (make_tags "localhost" 6379 None))%list.
Proof.
  apply (check_db_table_samples (example_world scenario) "localhost" 6379 None 0 [] None init
           (snd (_get_conn (example_world scenario) "localhost" 6379 None 0 init))
           0%nat scenario).
  - vm_compute. reflexivity.
  - reflexivity.
  - vm_compute. reflexivity.
Defined.

(** ** The tags of an instance *)

Lemma string_compare_refl (a : string) : String.compare a a = Eq.
Proof.
  induction a as [|x a IH]; [reflexivity|]. cbn [String.compare].
  unfold Ascii.compare. now rewrite N.compare_refl.
Qed.

Lemma string_compare_trans (a b c : string) :
  String.compare a b = Lt -> String.compare b c = Lt -> String.compare a c = Lt.
Proof.
  revert b c. induction a as [|x a IH]; intros [|y b] [|z c]; cbn [String.compare];
    try easy.
  destruct (Ascii.compare x y) eqn:Exy; try easy;
    destruct (Ascii.compare y z) eqn:Eyz; try easy.
  - apply Ascii.compare_eq_iff in Exy, Eyz. subst y z.
    unfold Ascii.compare. rewrite N.compare_refl. apply IH.
  - apply Ascii.compare_eq_iff in Exy. subst y. now rewrite Eyz.
  - apply Ascii.compare_eq_iff in Eyz. subst z. now rewrite Exy.
  - unfold Ascii.compare in *. rewrite N.compare_lt_iff in Exy, Eyz.
    now rewrite (proj2 (N.compare_lt_iff _ _) (N.lt_trans _ _ _ Exy Eyz)).
Qed.

Lemma ltb_compare (a b : string) : String.ltb a b = true <-> String.compare a b = Lt.
Proof. unfold String.ltb. destruct (String.compare a b); easy. Qed.

Lemma ltb_trans (a b c : string) :
  String.ltb a b = true -> String.ltb b c = true -> String.ltb a c = true.
Proof. rewrite !ltb_compare. apply string_compare_trans. Qed.

Lemma ltb_irrefl (a : string) : String.ltb a a = false.
Proof. unfold String.ltb. now rewrite string_compare_refl. Qed.

Lemma ltb_total (a b : string) :
  String.eqb a b = false -> String.ltb a b = false -> String.ltb b a = true.
Proof.
  intros Hne Hlt. unfold String.ltb in *. rewrite String.compare_antisym.
  destruct (String.compare a b) eqn:Hc; [|discriminate Hlt|reflexivity].
  apply String.compare_eq_iff in Hc. subst b. now rewrite String.eqb_refl in Hne.
Qed.

Lemma insert_sorted_In (x : string) (l : list string) (t : string) :
  In t (insert_sorted x l) <-> t = x \/ In t l.
Proof.
  induction l as [|y l IH]; cbn [insert_sorted In].
  - intuition.
  - destruct (String.eqb x y) eqn:Heq.
    + apply String.eqb_eq in Heq. subst y. cbn [In]. intuition.
    + destruct (String.ltb x y); cbn [In]; [intuition|]. rewrite IH. intuition.
Qed.

Lemma insert_sorted_sorted (x : string) (l : list string) :
  StronglySorted (fun a b => String.ltb a b = true) l ->
  StronglySorted (fun a b => String.ltb a b = true) (insert_sorted x l).
Proof.
  induction 1 as [|y l Hl IH Hy]; cbn [insert_sorted].
  - repeat constructor.
  - destruct (String.eqb x y) eqn:Heq; [now constructor|].
    destruct (String.ltb x y) eqn:Hlt.
    + constructor; [now constructor|]. constructor; [exact Hlt|].
      eapply Forall_impl; [exact Hy|]. intros z Hz. cbn in Hz |- *.
      now apply (ltb_trans x y z).
    + constructor; [exact IH|]. apply List.Forall_forall. intros t Ht.
      apply insert_sorted_In in Ht as [->|Ht].
      * now apply ltb_total.
      * rewrite List.Forall_forall in Hy. now apply Hy.
Qed.

Lemma sorted_set_In (l : list string) (t : string) : In t (sorted_set l) <-> In t l.
Proof.
  unfold sorted_set. induction l as [|x l IH]; cbn [fold_right In]; [tauto|].
  rewrite insert_sorted_In, IH. intuition.
Qed.

Lemma sorted_set_sorted (l : list string) :
  StronglySorted (fun a b => String.ltb a b = true) (sorted_set l).
Proof.
  unfold sorted_set. induction l as [|x l IH]; cbn [fold_right]; [constructor|].
  now apply insert_sorted_sorted.
Qed.

(** Two increasing lists of the same strings are the same list. *)
Lemma sorted_unique (l1 l2 : list string) :
  StronglySorted (fun a b => String.ltb a b = true) l1 ->
  StronglySorted (fun a b => String.ltb a b = true) l2 ->
  (forall t, In t l1 <-> In t l2) ->
  l1 = l2.
Proof.
  intros H1. revert l2. induction H1 as [|x l1 Hl1 IH Hx]; intros l2 H2 Hsame.
  - destruct l2 as [|y l2]; [reflexivity|]. exfalso. apply (Hsame y). now left.
  - destruct H2 as [|y l2 Hl2 Hy]; [exfalso; apply (Hsame x); now left|].
    rewrite List.Forall_forall in Hx, Hy.
    assert (Hxy : x = y).
    { destruct (proj1 (Hsame x) (or_introl eq_refl)) as [E|Hin]; [now symmetry|].
      destruct (proj2 (Hsame y) (or_introl eq_refl)) as [E|Hin']; [exact E|].
      exfalso. pose proof (ltb_trans _ _ _ (Hy x Hin) (Hx y Hin')) as Hc.
      now rewrite ltb_irrefl in Hc. }
    subst y. f_equal. apply IH; [exact Hl2|]. intros t. split; intros Ht.
    + destruct (proj1 (Hsame t) (or_intror Ht)) as [E|Hin]; [|exact Hin].
      exfalso. subst t. pose proof (Hx x Ht) as Hc. now rewrite ltb_irrefl in Hc.
    + destruct (proj2 (Hsame t) (or_intror Ht)) as [E|Hin]; [|exact Hin].
      exfalso. subst t. pose proof (Hy x Ht) as Hc. now rewrite ltb_irrefl in Hc.
Qed.

Lemma make_tags_sorted_aux (host : string) (port : Z) (custom_tags : option (list string)) :
  StronglySorted (fun a b => String.ltb a b = true) (make_tags host port custom_tags).
Proof. apply sorted_set_sorted. Qed.

(** X15.  The tags of an instance are strictly increasing in the order of
    the bytes, hence without duplicates, and they are the custom tags, the
    tag of the host and the tag of the port, nothing else. *)
Theorem make_tags_sorted (host : string) (port : Z) (custom_tags : option (list string)) :
  StronglySorted (fun a b => String.ltb a b = true) (make_tags host port custom_tags)
  /\ forall t,
       In t (make_tags host port custom_tags)
       <-> (t = "redis_host:" +:+ host
            \/ t = "redis_port:" +:+ str_of_Z port
            \/ match custom_tags with
               | Some l => In t l
               | None => False
               end).
Proof.
  unfold make_tags. split; [apply sorted_set_sorted|].
  intros t. rewrite sorted_set_In, in_app_iff. cbn [In].
  destruct custom_tags as [l|]; intuition.
Qed.

(** X16.  The order of the custom tags and their repetitions have no effect:
    two lists of custom tags with the same members give the same tags, hence
    the same key of the previous command counts, and the same invocation. *)
Theorem check_db_custom_tags_set
    (w : world) (host : string) (port : Z) (password : option string) (db : Z)
    (list_lengths : list string) (l l' : list string) (s : state) :
  (forall t, In t l <-> In t l') ->
  make_tags host port (Some l) = make_tags host port (Some l')
  /\ _check_db w host port password db list_lengths (Some l) s
     = _check_db w host port password db list_lengths (Some l') s.
Proof.
  intros Hsame.
  assert (Htags : make_tags host port (Some l) = make_tags host port (Some l')).
  { apply sorted_unique.
    - apply make_tags_sorted_aux.
    - apply make_tags_sorted_aux.
    - intros t. unfold make_tags. rewrite !sorted_set_In, !in_app_iff, Hsame. tauto. }
  split; [exact Htags|]. unfold _check_db. now rewrite Htags.
Qed.

Lemma check_db_custom_tags_set_witness :
  make_tags "localhost" 6379 (Some ["b"; "a"; "b"]) = make_tags "localhost" 6379 (Some ["a"; "b"])
  /\ _check_db (example_world plain_snapshot) "localhost" 6379 None 0 [] (Some ["b"; "a"; "b"])
       init
     = _check_db (example_world plain_snapshot) "localhost" 6379 None 0 [] (Some ["a"; "b"])
         init.
Proof.
  apply (check_db_custom_tags_set (example_world plain_snapshot) "localhost" 6379 None 0 []
           ["b"; "a"; "b"] ["a"; "b"] init).
  intros t. cbn. tauto.
Defined.

(** ** The entry point *)

Lemma check_cases (w : world) (inst : instance) (s : state) :
  check w inst s
  = match py_int (get_default (i_port inst) (VInt 6379)) with
    | Raise e => (Raise e, s)
    | Ok port =>
        match py_int (get_default (i_db inst) (VInt 0)) with
        | Raise e => (Raise e, s)
        | Ok db =>
            _check_db w (get_default (i_host inst) "localhost") port (i_password inst) db
              (get_default (i_list_lengths inst) []) (Some (get_default (i_tags inst) [])) s
        end
    end.
Proof.
  unfold check, bind, lift.
  destruct (py_int (get_default (i_port inst) (VInt 6379))); [|reflexivity].
  destruct (py_int (get_default (i_db inst) (VInt 0))); reflexivity.
Qed.

Lemma grow_connections (new : list metric) (msgs : list log_entry) (s : state) :
  connections (grow new msgs s) = connections s
  /\ constructed (grow new msgs s) = constructed s.
Proof. now destruct s. Qed.

Lemma save_commands_connections (info : list (string * pyval)) (tags : list string)
    (s : state) :
  connections (snd (save_commands info tags s)) = connections s
  /\ constructed (snd (save_commands info tags s)) = constructed s.
Proof.
  unfold save_commands, bind, index, lift, previous_of, store_total_commands, gauge, submit,
    ret, raise.
  destruct (assoc "total_commands_processed" info) as [v|]; [|now split].
  destruct (py_sub v (VInt 1)) as [total|e1]; [|now split].
  destruct (previous_total_commands s !! tags) as [p|].
  - destruct (py_sub total p) as [count|e2]; [|now split]. now destruct s.
  - now destruct s.
Qed.

Lemma extract_connections (w : world) (c : conn) (info : list (string * pyval))
    (list_lengths tags : list string) (s : state) :
  connections (snd (extract w c info list_lengths tags s)) = connections s
  /\ constructed (snd (extract w c info list_lengths tags s)) = constructed s.
Proof.
  rewrite extract_split. unfold bind.
  destruct (frame_sample_before_commands w c info list_lengths tags s)
    as (new & msgs & Hs & _).
  destruct (grow_connections new msgs s) as [Hc Hk].
  destruct (before_commands w c info list_lengths tags s) as [[[]|e] s1]; cbn [snd] in Hs;
    subst s1.
  - destruct (save_commands_connections info tags (grow new msgs s)) as [Hc' Hk'].
    now rewrite Hc', Hk'.
  - now split.
Qed.

(** After the connection, [_check_db] neither constructs a client nor
    touches the cache. *)
Lemma check_db_connections (w : world) (host : string) (port : Z) (password : option string)
    (db : Z) (list_lengths : list string) (custom_tags : option (list string)) (s : state) :
  connections (snd (_check_db w host port password db list_lengths custom_tags s))
  = connections (snd (_get_conn w host port password db s))
  /\ constructed (snd (_check_db w host port password db list_lengths custom_tags s))
     = constructed (snd (_get_conn w host port password db s)).
Proof.
  rewrite check_db_cases.
  destruct (_get_conn w host port password db s) as [[c|e] s0]; [|now split].
  destruct (conn_info w c) as [info|e]; [|now split].
  destruct (extract_connections w c info list_lengths (make_tags host port custom_tags)
              (emit [latency_metric w (make_tags host port custom_tags)] s0)) as [Hc Hk].
  rewrite Hc, Hk. now destruct s0.
Qed.

(** X17.  A port and a database number given as decimal strings, as a
    configuration file may hold them, give the invocation of the integers
    they denote: same cache key, same tags, same samples. *)
Theorem check_decimal_strings
    (w : world) (host : option string) (port db : Z) (password : option string)
    (tags list_lengths : option (list string)) (s : state) :
  check w (Instance host (Some (VStr (str_of_Z port))) (Some (VStr (str_of_Z db))) password
             tags list_lengths) s
  = check w (Instance host (Some (VInt port)) (Some (VInt db)) password tags list_lengths) s.
Proof.
  rewrite !check_cases. cbn [i_host i_port i_db i_password i_tags i_list_lengths get_default
                               py_int].
  now rewrite !int_of_str_of_Z.
Qed.

(** X18.  When [int(port)] raises, or [int(port)] returns and [int(db)]
    raises, [check] raises that exception before anything else happens: the
    state is as it was, no client is constructed, no sample submitted. *)
Theorem check_bad_option (w : world) (inst : instance) (s : state) (e : exn) :
  py_int (get_default (i_port inst) (VInt 6379)) = Raise e
  \/ ((exists port, py_int (get_default (i_port inst) (VInt 6379)) = Ok port)
      /\ py_int (get_default (i_db inst) (VInt 0)) = Raise e) ->
  check w inst s = (Raise e, s).
Proof.
  rewrite check_cases. intros [->|[[port ->] ->]]; reflexivity.
Qed.

Lemma check_bad_option_witness :
  check (example_world plain_snapshot)
    (Instance None (Some (VStr "6379")) (Some (VStr "db0")) None None None) init
  = (Raise ValueError, init).
Proof.
  apply (check_bad_option (example_world plain_snapshot)
           (Instance None (Some (VStr "6379")) (Some (VStr "db0")) None None None) init
           ValueError).
  right. split; [exists 6379; reflexivity | reflexivity].
Defined.

(** X19.  After a [check] that returned, a [check] of an instance with the
    same host, port and database number constructs no client, whatever its
    password, tags and lists, whatever the outcome, and even when the
    library would now refuse the connection. *)
Theorem check_reuses_connection
    (w w' : world) (inst : instance) (password' : option string)
    (tags' list_lengths' : option (list string)) (s : state) :
  fst (check w inst s) = Ok tt ->
  constructed
    (snd (check w' (Instance (i_host inst) (i_port inst) (i_db inst) password' tags'
                      list_lengths')
            (snd (check w inst s))))
  = constructed (snd (check w inst s)).
Proof.
  rewrite !check_cases. cbn [i_host i_port i_db i_password i_tags i_list_lengths].
  destruct (py_int (get_default (i_port inst) (VInt 6379))) as [port|e]; [|discriminate].
  destruct (py_int (get_default (i_db inst) (VInt 0))) as [db|e]; [|discriminate].
  set (host := get_default (i_host inst) "localhost").
  intros Hok.
  destruct (_check_db w host port (i_password inst) db (get_default (i_list_lengths inst) [])
              (Some (get_default (i_tags inst) [])) s) as [[[]|e] s1] eqn:Hrun;
    [|discriminate Hok].
  cbn [snd].
  pose proof (check_db_connections w host port (i_password inst) db
                (get_default (i_list_lengths inst) [])
                (Some (get_default (i_tags inst) [])) s) as [Hc _].
  rewrite Hrun in Hc. cbn [snd] in Hc.
  apply check_db_Ok_inv in Hrun as (c & info & s0 & Hconn & _ & _).
  rewrite Hconn in Hc. cbn [snd] in Hc.
  pose proof (get_conn_Ok_cached _ _ _ _ _ _ _ _ Hconn) as Hcached. rewrite <- Hc in Hcached.
  pose proof (check_db_connections w' host port password' db (get_default list_lengths' [])
                (Some (get_default tags' [])) s1) as [_ Hk].
  rewrite Hk, (get_conn_hit w' host port password' db s1 c Hcached). reflexivity.
Qed.

Lemma check_reuses_connection_witness :
  constructed
    (snd (check (example_world later_snapshot)
            (Instance None None None (Some "secret") (Some ["env:prod"]) (Some ["queue"]))
            (snd (check (example_world plain_snapshot)
                    (Instance None None None None None None) init))))
  = constructed (snd (check (example_world plain_snapshot)
                        (Instance None None None None None None) init)).
Proof.
  apply (check_reuses_connection (example_world plain_snapshot) (example_world later_snapshot)
           (Instance None None None None None None) (Some "secret") (Some ["env:prod"])
           (Some ["queue"]) init).
  vm_compute. reflexivity.
Defined.

(** ** The snapshot of an old client *)

Lemma save_subkey_legacy_value (info : list (string * pyval)) (db_tags : list string)
    (key subkey str : string) (st : state) :
  assoc key info = Some (VStr str) ->
  exists msgs,
    save_subkey info db_tags key subkey st
    = (Ok tt,
       grow [Metric Gauge ("redis." +:+ subkey) (legacy_value str subkey) db_tags] msgs st).
Proof.
  intros Hkey. unfold save_subkey, legacy_value.
  assert (Hbody : (d <- index info key ;; lift (py_get d subkey (VInt (-1)))) st
                  = (Raise AttributeError, st)).
  { now rewrite (bind_Ok _ _ st st (VStr str)) by (apply index_Some, Hkey). }
  unfold bind at 1.
  rewrite (try_except_caught _ _ st st AttributeError
             (d <- index info key ;; _parse_dict_string d subkey (VInt (-1))) Hbody eq_refl).
  rewrite (bind_Ok _ _ st st (VStr str)) by (apply index_Some, Hkey).
  unfold _parse_dict_string, try_except, lift, bind, log, ret, gauge, submit.
  destruct (parse_items (split "," str) subkey (VInt (-1))) as [val|e].
  - exists []. now rewrite emit_grow.
  - eexists [_]. now destruct st.
Qed.

Lemma save_db_legacy_value (w : world) (info : list (string * pyval)) (tags : list string)
    (key str : string) (st : state) :
  db_key_pattern_match key = true ->
  assoc key info = Some (VStr str) ->
  exists msgs,
    save_db w info tags key st
    = (Raise TypeError,
       grow [Metric Gauge "redis.keys" (legacy_value str "keys")
               (tags ++ ["redis_db:" +:+ key])%list;
             Metric Gauge "redis.expires" (legacy_value str "expires")
               (tags ++ ["redis_db:" +:+ key])%list] msgs st).
Proof.
  intros Hmatch Hkey. unfold save_db. rewrite Hmatch. cbv zeta.
  set (db_tags := (tags ++ ["redis_db:" +:+ key])%list).
  destruct (save_subkey_legacy_value info db_tags key "keys" str st Hkey) as (m1 & H1).
  destruct (save_subkey_legacy_value info db_tags key "expires" str
              (grow [Metric Gauge ("redis." +:+ "keys") (legacy_value str "keys") db_tags] m1 st)
              Hkey) as (m2 & H2).
  exists (m1 ++ m2)%list. unfold subkeys. cbn [for_each].
  unfold bind at 1. unfold bind at 1. rewrite H1.
  unfold bind at 1. rewrite H2. unfold ret.
  rewrite grow_grow.
  unfold save_expires_ratio.
  apply try_except_uncaught; [|reflexivity].
  now rewrite (bind_Ok _ _ _ _ (VStr str)) by (apply index_Some, Hkey).
Qed.

(** X20.  With the old client the comment of the loop speaks of, whose
    snapshot holds a string for a per-database entry, the body of the loop
    submits the two gauges with the values that [_parse_dict_string] finds in
    the string, then indexes the string for the ratio and raises [TypeError],
    which [except AttributeError] does not catch: the invocation raises, at
    this entry or before it. *)
Theorem check_db_legacy_client
    (w : world) (host : string) (port : Z) (password : option string) (db : Z)
    (list_lengths : list string) (custom_tags : option (list string))
    (s s0 : state) (c : conn) (info : list (string * pyval)) (key str : string) :
  _get_conn w host port password db s = (Ok c, s0) ->
  conn_info w c = Ok info ->
  db_key_pattern_match key = true ->
  assoc key info = Some (VStr str) ->
  (forall tags st, exists msgs,
      save_db w info tags key st
      = (Raise TypeError,
         grow [Metric Gauge "redis.keys" (legacy_value str "keys")
                 (tags ++ ["redis_db:" +:+ key])%list;
               Metric Gauge "redis.expires" (legacy_value str "expires")
                 (tags ++ ["redis_db:" +:+ key])%list] msgs st))
  /\ exists e, fst (_check_db w host port password db list_lengths custom_tags s) = Raise e.
Proof.
  intros Hconn Hinfo Hmatch Hkey. split.
  - intros tags st. now apply save_db_legacy_value.
  - rewrite check_db_cases, Hconn, Hinfo.
    set (tags := make_tags host port custom_tags).
    set (s1 := emit [latency_metric w tags] s0).
    destruct (for_each_raises (map fst info) (save_db w info tags) key
                (assoc_In _ _ _ Hkey)
                (fun st => match save_db_legacy_value w info tags key str st Hmatch Hkey with
                           | ex_intro _ msgs H =>
                               ex_intro _ TypeError (f_equal fst H)
                           end) s1) as (e & He).
    exists e. unfold extract. unfold bind at 1. fold (save_dbs w info tags).
    unfold save_dbs. destruct (for_each (map fst info) (save_db w info tags) s1) as [[[]|e'] s2];
      [discriminate He | exact He].
Qed.

Lemma check_db_legacy_client_witness :
  (forall tags st, exists msgs,
      save_db (example_world legacy_snapshot) legacy_snapshot tags "db0" st
      = (Raise TypeError,
         grow [Metric Gauge "redis.keys" (legacy_value "keys=abc,expires=0" "keys")
                 (tags ++ ["redis_db:" +:+ "db0"])%list;
               Metric Gauge "redis.expires" (legacy_value "keys=abc,expires=0" "expires")
                 (tags ++ ["redis_db:" +:+ "db0"])%list] msgs st))
  /\ exists e,
       fst (_check_db (example_world legacy_snapshot) "localhost" 6379 None 0 [] None init)
       = Raise e.
Proof.
  apply (check_db_legacy_client (example_world legacy_snapshot) "localhost" 6379 None 0 [] None
           init (snd (_get_conn (example_world legacy_snapshot) "localhost" 6379 None 0 init))
           0%nat legacy_snapshot "db0" "keys=abc,expires=0").
  - vm_compute. reflexivity.
  - reflexivity.
  - reflexivity.
  - reflexivity.
Defined.

End Redis.
